(** * The IPC watcher of nanoclaw (src/ipc.ts): mailbox protocol,
      authorization gate and task request processor.

    The development embeds one poll cycle of [startIpcWatcher] and
    [processTaskIpc] with its action handlers as functions in a small
    state-and-exception monad over an explicit world (task store, group
    registry, sent messages, log, external calls, mailbox file system).
    What the action handlers build before they call the Google API (the
    Gmail message and its encoding, the calendar event bodies), the
    duplicate-start guard of [startIpcWatcher], and the voice transcription
    of src/transcription.ts are embedded as pure functions.

    Conventions.
    - JavaScript strings are Rocq strings: the sequence of bytes of the
      text in UTF-8, the encoding the request files are read in; every
      field of a request is an optional string as the
      parameter type of [processTaskIpc] declares it ([None] is
      [undefined]).
    - Instants are integers, milliseconds since the epoch.
    - Platform and library functions the code calls but does not define
      (date parsing and formatting, the cron parser, the clock, the random
      source, the collaborators behind [deps]) are fields of [Env].
    - File-system calls succeed on a file that exists; the rescheduling of
      the next cycle by [setTimeout] is not part of the model. *)

From stdpp Require Import base option list gmap strings pretty.
From Stdlib Require Import ZArith Ascii String Lia.

Local Open Scope Z_scope.
Local Open Scope string_scope.

(** ** Data model *)

(** The request object handed over by [JSON.parse]: the fields of the [data]
    parameter of [processTaskIpc], the [text] of a message file, and the
    fields the action handlers test before they call out. *)
Record Payload := mkPayload {
  p_type : option string;
  p_taskId : option string;
  p_prompt : option string;
  p_schedule_type : option string;
  p_schedule_value : option string;
  p_context_mode : option string;
  p_groupFolder : option string;
  p_chatJid : option string;
  p_targetJid : option string;
  p_jid : option string;
  p_name : option string;
  p_folder : option string;
  p_trigger : option string;
  p_requiresTrigger : option bool;
  p_containerConfig : option string;
  p_text : option string;
  p_event_id : option string;
  p_summary : option string;
  p_start : option string;
  p_end : option string
}.

(** [RegisteredGroup] of types.ts, as built by the register_group case. *)
Record RegisteredGroup := mkGroup {
  g_name : string;
  g_folder : string;
  g_trigger : string;
  g_added_at : string;
  g_containerConfig : option string;
  g_requiresTrigger : option bool
}.

(** The two status literals [processTaskIpc] writes, 'active' and 'paused'. *)
Inductive TaskStatus := StActive | StPaused.

Inductive ContextMode := CtxGroup | CtxIsolated.

(** The record handed to [createTask]. [schedule_type] stays a string: the
    source narrows it with a type assertion, which checks nothing at run
    time. *)
Record ScheduledTask := mkTask {
  t_id : string;
  t_group_folder : string;
  t_chat_jid : string;
  t_prompt : string;
  t_schedule_type : string;
  t_schedule_value : string;
  t_context_mode : ContextMode;
  t_next_run : option string;
  t_status : TaskStatus;
  t_created_at : string
}.

Inductive Level := LDebug | LInfo | LWarn | LError.

(** Calls that leave the process. *)
Inductive ExtCall :=
| SyncGroupMetadata (force : bool)
| WriteGroupsSnapshot (groupFolder : string) (isMain : bool)
    (availableGroups : list string) (registeredJids : gset string)
| GoogleApi (method : string) (d : Payload).

Inductive Channel := Messages | Tasks.

(** What a request file holds, up to [JSON.parse]: text that does not parse,
    the JSON value [null] (the one parsed value on which a property read
    throws), or an object. *)
Inductive FileContent :=
| Unparsable (raw : string)
| JsonNull
| JsonObject (d : Payload).

(** One tenant directory under the IPC root; a sub-channel directory that
    does not exist is [None], otherwise it lists (file name, content) in
    listing order. *)
Record Mailbox := mkMailbox {
  mb_messages : option (list (string * FileContent));
  mb_tasks : option (list (string * FileContent))
}.

Inductive FsEvent :=
| Unlink (group : string) (ch : Channel) (file : string)
| Mkdir (dir : string)
| Rename (group : string) (ch : Channel) (file : string) (target : string).

Record World := mkWorld {
  tasks : gmap string ScheduledTask;
  groups : gmap string RegisteredGroup;
  sent : list (string * string);
  logs : list (Level * string);
  calls : list ExtCall;
  ticks : nat;
  draws : nat;
  mailboxes : list (string * Mailbox);
  errorsDir : gmap string FileContent;
  fsLog : list FsEvent
}.

Inductive Exn :=
| TypeError (msg : string)
| RangeError (msg : string)
| SyntaxError (msg : string)
| Rejected (msg : string)
| ENOENT (path : string).

(** ** The effect monad: state that survives a throw *)

Inductive Outcome (A : Type) :=
| Ok (a : A) (w : World)
| Throw (e : Exn) (w : World).
Arguments Ok {A} a w.
Arguments Throw {A} e w.

Definition M (A : Type) : Type := World -> Outcome A.

Definition ret {A} (a : A) : M A := fun w => Ok a w.

Definition bind {A B} (c : M A) (k : A -> M B) : M B :=
  fun w => match c w with
           | Ok a w' => k a w'
           | Throw e w' => Throw e w'
           end.

Definition throw {A} (e : Exn) : M A := fun w => Throw e w.

(** [try { c } catch (err) { h err }] *)
Definition try_catch {A} (c : M A) (h : Exn -> M A) : M A :=
  fun w => match c w with
           | Ok a w' => Ok a w'
           | Throw e w' => h e w'
           end.

Notation "'do' x <- c ; k" := (bind c (fun x => k))
  (at level 10, x name, c at level 100, k at level 200).

Definition final {A} (o : Outcome A) : World :=
  match o with Ok _ w => w | Throw _ w => w end.

Definition threw {A} (o : Outcome A) : bool :=
  match o with Ok _ _ => false | Throw _ _ => true end.

(** ** World updates *)

Definition set_tasks (f : gmap string ScheduledTask -> gmap string ScheduledTask)
  (w : World) : World :=
  mkWorld (f (tasks w)) (groups w) (sent w) (logs w) (calls w) (ticks w)
          (draws w) (mailboxes w) (errorsDir w) (fsLog w).

Definition set_groups (f : gmap string RegisteredGroup -> gmap string RegisteredGroup)
  (w : World) : World :=
  mkWorld (tasks w) (f (groups w)) (sent w) (logs w) (calls w) (ticks w)
          (draws w) (mailboxes w) (errorsDir w) (fsLog w).

Definition add_sent (m : string * string) (w : World) : World :=
  mkWorld (tasks w) (groups w) (sent w ++ [m]) (logs w) (calls w) (ticks w)
          (draws w) (mailboxes w) (errorsDir w) (fsLog w).

Definition add_log (l : Level * string) (w : World) : World :=
  mkWorld (tasks w) (groups w) (sent w) (logs w ++ [l]) (calls w) (ticks w)
          (draws w) (mailboxes w) (errorsDir w) (fsLog w).

Definition add_call (c : ExtCall) (w : World) : World :=
  mkWorld (tasks w) (groups w) (sent w) (logs w) (calls w ++ [c]) (ticks w)
          (draws w) (mailboxes w) (errorsDir w) (fsLog w).

Definition tick (w : World) : World :=
  mkWorld (tasks w) (groups w) (sent w) (logs w) (calls w) (S (ticks w))
          (draws w) (mailboxes w) (errorsDir w) (fsLog w).

Definition draw (w : World) : World :=
  mkWorld (tasks w) (groups w) (sent w) (logs w) (calls w) (ticks w)
          (S (draws w)) (mailboxes w) (errorsDir w) (fsLog w).

Definition set_fs (mb : list (string * Mailbox)) (ed : gmap string FileContent)
  (ev : list FsEvent) (w : World) : World :=
  mkWorld (tasks w) (groups w) (sent w) (logs w) (calls w) (ticks w)
          (draws w) mb ed (fsLog w ++ ev).

(** ** JavaScript primitives *)

(** Truthiness of an optional string: [undefined] and the empty string are
    falsy. *)
Definition truthy (o : option string) : bool :=
  match o with
  | Some s => negb (String.eqb s "")
  | None => false
  end.

(** [o === lit] for a string literal. *)
Definition is_lit (o : option string) (lit : string) : bool :=
  match o with
  | Some s => String.eqb s lit
  | None => false
  end.

(** The white space of ECMAScript (WhiteSpace and LineTerminator), which
    [parseInt] skips and [trim] strips, by the number of bytes UTF-8 writes
    a character in. One byte: tab, line feed, vertical tab, form feed,
    carriage return, space. *)
Definition is_ws (a : ascii) : bool :=
  let n := N_of_ascii a in
  (N.eqb n 9 || N.eqb n 10 || N.eqb n 11 || N.eqb n 12 || N.eqb n 13 || N.eqb n 32)%bool.

(** Two bytes: U+00A0 (C2 A0). *)
Definition is_ws2 (a b : ascii) : bool :=
  (N.eqb (N_of_ascii a) 194 && N.eqb (N_of_ascii b) 160)%bool.

(** Three bytes: U+1680 (E1 9A 80), U+2000 to U+200A (E2 80 80 to 8A),
    U+2028, U+2029, U+202F (E2 80 A8, A9, AF), U+205F (E2 81 9F), U+3000
    (E3 80 80) and U+FEFF (EF BB BF). *)
Definition is_ws3 (a b c : ascii) : bool :=
  let x := N_of_ascii a in
  let y := N_of_ascii b in
  let z := N_of_ascii c in
  (N.eqb x 225 && N.eqb y 154 && N.eqb z 128
   || N.eqb x 226 && N.eqb y 128
      && (N.leb 128 z && N.leb z 138 || N.eqb z 168 || N.eqb z 169 || N.eqb z 175)
   || N.eqb x 226 && N.eqb y 129 && N.eqb z 159
   || N.eqb x 227 && N.eqb y 128 && N.eqb z 128
   || N.eqb x 239 && N.eqb y 187 && N.eqb z 191)%bool.

(** The text without its leading white space. *)
Fixpoint skip_ws (s : string) : string :=
  match s with
  | String a r =>
      if is_ws a then skip_ws r
      else
        match r with
        | String b r2 =>
            if is_ws2 a b then skip_ws r2
            else
              match r2 with
              | String c r3 => if is_ws3 a b c then skip_ws r3 else s
              | EmptyString => s
              end
        | EmptyString => s
        end
  | EmptyString => s
  end.

Definition digit_of (a : ascii) : option Z :=
  let n := N_of_ascii a in
  if (N.leb 48 n && N.leb n 57)%bool then Some (Z.of_N n - 48) else None.

(** The longest prefix of decimal digits, as a number; [acc] is the value
    read so far, [None] while no digit was seen. *)
Fixpoint digits_prefix (s : string) (acc : option Z) : option Z :=
  match s with
  | String a r =>
      match digit_of a with
      | Some d => digits_prefix r (Some (10 * default 0 acc + d))
      | None => acc
      end
  | EmptyString => acc
  end.

(** [parseInt(s, 10)]: leading white space is skipped, one sign is read, then
    the longest run of digits; what follows is ignored. [None] is NaN. The
    value is exact; a double is exact up to 2^53, beyond [MAX_TIME]. *)
Definition parseInt10 (s : string) : option Z :=
  match skip_ws s with
  | String "-"%char r => Z.opp <$> digits_prefix r None
  | String "+"%char r => digits_prefix r None
  | t => digits_prefix t None
  end.

(** The largest time value of a Date (8.64e15 ms); beyond it the Date is
    invalid and [toISOString] throws a RangeError. *)
Definition MAX_TIME : Z := 8640000000000000.

(** ** The environment *)

(** What the process does not decide itself.
    - [clock n]: the n-th reading of the clock, a valid time value.
    - [random_suffix n]: the n-th [Math.random().toString(36).slice(2, 8)].
    - [cron_next e now]: the next occurrence of cron expression [e] after
      [now] in the configured time zone; [None] when the parser, [next()]
      or the formatting throws.
    - [Date_parse s]: the time value of [new Date(s)]; [None] when it is NaN.
    - [toISOString t]: the ISO-8601 text of a valid time value.
    - [send_rejects jid text]: the promise of [deps.sendMessage] rejects.
    - [sync_rejects]: the promise of [deps.syncGroupMetadata] rejects.
    - [available_groups]: the result of [deps.getAvailableGroups()].
    - [import_fails]: a dynamic import of an action handler fails.
    - [oauth_configured]: both OAuth files exist.
    - [client_fails]: reading or parsing the two OAuth files, or building
      the client from them, throws.
    - [google_fails m d]: the promise of the Google API method [m], called
      for request [d], rejects. *)
Record Env := mkEnv {
  clock : nat -> Z;
  random_suffix : nat -> string;
  cron_next : string -> Z -> option Z;
  Date_parse : string -> option Z;
  toISOString : Z -> string;
  send_rejects : string -> string -> bool;
  sync_rejects : bool;
  available_groups : list string;
  import_fails : bool;
  oauth_configured : bool;
  client_fails : bool;
  google_fails : string -> Payload -> bool
}.

(** ** Building blocks of the handlers *)

(** A truthy optional string, as the string it holds. *)
Definition nonempty (o : option string) : option string :=
  match o with
  | Some s => if String.eqb s "" then None else Some s
  | None => None
  end.

Definition log (l : Level) (msg : string) : M unit :=
  fun w => Ok tt (add_log (l, msg) w).

(** Modelled from the spec: the Task Store of db.ts is not among the sources;
    section 2 describes it as a persisted collection of Task records with
    CRUD-like mutation operations, keyed by the task id. *)
Definition createTask (t : ScheduledTask) : M unit :=
  fun w => Ok tt (set_tasks (insert (t_id t) t) w).

(** Modelled from the spec: lookup in the Task Store of db.ts. *)
Definition getTaskById (id : string) : M (option ScheduledTask) :=
  fun w => Ok (tasks w !! id) w.

Definition with_status (st : TaskStatus) (t : ScheduledTask) : ScheduledTask :=
  mkTask (t_id t) (t_group_folder t) (t_chat_jid t) (t_prompt t)
         (t_schedule_type t) (t_schedule_value t) (t_context_mode t)
         (t_next_run t) st (t_created_at t).

(** Modelled from the spec: [updateTask(id, { status })] of db.ts changes the
    status of the record in place. *)
Definition updateTask (id : string) (st : TaskStatus) : M unit :=
  fun w => Ok tt (set_tasks (alter (with_status st) id) w).

(** Modelled from the spec: [deleteTask] of db.ts removes the record. *)
Definition deleteTask (id : string) : M unit :=
  fun w => Ok tt (set_tasks (delete id) w).

(** [s.endsWith(suffix)] *)
Definition ends_with (s suffix : string) : bool :=
  let n := String.length s in
  let k := String.length suffix in
  (Nat.leb k n && String.eqb (String.substring (n - k) k s) suffix)%bool.

(** [for (const x of l) { await body(x) }] *)
Fixpoint for_each {A} (l : list A) (body : A -> M unit) : M unit :=
  match l with
  | [] => ret tt
  | x :: r => do _ <- body x ; for_each r body
  end.

Fixpoint alist_lookup {A} (k : string) (l : list (string * A)) : option A :=
  match l with
  | [] => None
  | (k', v) :: r => if String.eqb k' k then Some v else alist_lookup k r
  end.

Fixpoint alist_remove {A} (k : string) (l : list (string * A)) : list (string * A) :=
  match l with
  | [] => []
  | (k', v) :: r => if String.eqb k' k then alist_remove k r else (k', v) :: alist_remove k r
  end.

Fixpoint alist_alter {A} (f : A -> A) (k : string) (l : list (string * A)) : list (string * A) :=
  match l with
  | [] => []
  | (k', v) :: r => if String.eqb k' k then (k', f v) :: r else (k', v) :: alist_alter f k r
  end.

Definition chan_files (ch : Channel) (mb : Mailbox) : option (list (string * FileContent)) :=
  match ch with
  | Messages => mb_messages mb
  | Tasks => mb_tasks mb
  end.

Definition set_chan (ch : Channel) (fs : option (list (string * FileContent)))
  (mb : Mailbox) : Mailbox :=
  match ch with
  | Messages => mkMailbox fs (mb_tasks mb)
  | Tasks => mkMailbox (mb_messages mb) fs
  end.

(** The content of [<ipc>/<group>/<channel>/<file>], if the file exists. *)
Definition find_file (group : string) (ch : Channel) (file : string)
  (w : World) : option FileContent :=
  mb ← alist_lookup group (mailboxes w);
  fs ← chan_files ch mb;
  alist_lookup file fs.

(** The mailboxes without [<ipc>/<group>/<channel>/<file>]. *)
Definition remove_file (group : string) (ch : Channel) (file : string)
  (mbs : list (string * Mailbox)) : list (string * Mailbox) :=
  alist_alter (fun mb => set_chan ch (alist_remove file <$> chan_files ch mb) mb)
    group mbs.

Definition readFileSync (group : string) (ch : Channel) (file : string) : M FileContent :=
  fun w => match find_file group ch file w with
           | Some c => Ok c w
           | None => Throw (ENOENT file) w
           end.

Definition unlinkSync (group : string) (ch : Channel) (file : string) : M unit :=
  fun w => match find_file group ch file w with
           | Some _ =>
               Ok tt (set_fs (remove_file group ch file (mailboxes w)) (errorsDir w)
                        [Unlink group ch file] w)
           | None => Throw (ENOENT file) w
           end.

Definition mkdirSync (dir : string) : M unit :=
  fun w => Ok tt (set_fs (mailboxes w) (errorsDir w) [Mkdir dir] w).

(** [fs.renameSync(filePath, path.join(errorDir, target))] *)
Definition renameSync (group : string) (ch : Channel) (file target : string) : M unit :=
  fun w => match find_file group ch file w with
           | Some c =>
               Ok tt (set_fs (remove_file group ch file (mailboxes w))
                        (<[target := c]> (errorsDir w))
                        [Rename group ch file target] w)
           | None => Throw (ENOENT file) w
           end.

(** [JSON.parse] followed by the first property read of the result. *)
Definition JSON_parse (c : FileContent) : M Payload :=
  match c with
  | Unparsable _ => throw (SyntaxError "Unexpected token")
  | JsonNull => throw (TypeError "Cannot read properties of null")
  | JsonObject d => ret d
  end.

(** ** The handlers *)

Section Ipc.

(** Constants of config.ts, which is not among the sources. *)
Variable MAIN_GROUP_FOLDER : string.
Variable ASSISTANT_NAME : string.
Variable env : Env.

(** [Date.now()]: the next reading of the clock. *)
Definition Date_now : M Z :=
  fun w => Ok (clock env (ticks w)) (tick w).

(** [Math.random().toString(36).slice(2, 8)] *)
Definition random36 : M string :=
  fun w => Ok (random_suffix env (draws w)) (draw w).

(** [new Date(t).toISOString()] for a computed time value [t]. *)
Definition Date_toISOString (t : Z) : M string :=
  if (Z.abs t <=? MAX_TIME)%Z then ret (toISOString env t)
  else throw (RangeError "Invalid time value").

(** Modelled from the spec: the collaborators of [IpcDeps] are built outside
    the sources at hand; section 6 describes a group-registry reader/writer
    exposing "get all registrations" and "upsert one". The registry is the
    one object that [deps.registeredGroups()] returns and
    [deps.registerGroup] writes. *)
Definition deps_registeredGroups : M (gmap string RegisteredGroup) :=
  fun w => Ok (groups w) w.

(** Modelled from the spec: "upsert one" of the group registry. *)
Definition deps_registerGroup (jid : string) (g : RegisteredGroup) : M unit :=
  fun w => Ok tt (set_groups (insert jid g) w).

(** [sent] records every call of [deps.sendMessage], also one whose promise
    rejects. *)
Definition deps_sendMessage (jid text : string) : M unit :=
  fun w => if send_rejects env jid text
           then Throw (Rejected "sendMessage") (add_sent (jid, text) w)
           else Ok tt (add_sent (jid, text) w).

Definition deps_syncGroupMetadata (force : bool) : M unit :=
  fun w => if sync_rejects env
           then Throw (Rejected "syncGroupMetadata") (add_call (SyncGroupMetadata force) w)
           else Ok tt (add_call (SyncGroupMetadata force) w).

Definition deps_getAvailableGroups : M (list string) :=
  ret (available_groups env).

Definition deps_writeGroupsSnapshot (groupFolder : string) (isMain : bool)
  (available : list string) (jids : gset string) : M unit :=
  fun w => Ok tt (add_call (WriteGroupsSnapshot groupFolder isMain available jids) w).

(** Lines 214-250 of [processTaskIpc]: the next run of a schedule. [None] is
    the [break] of a rejected descriptor; [Some nextRun] carries the value of
    the variable [nextRun] (initially [null]) on to [createTask]. The cron
    parser reads the clock itself. *)
Definition scheduleNextRun (scheduleType scheduleValue : string)
  : M (option (option string)) :=
  if String.eqb scheduleType "cron" then
    do now <- Date_now ;
    match cron_next env scheduleValue now with
    | Some t => ret (Some (Some (toISOString env t)))
    | None => do _ <- log LWarn "Invalid cron expression" ; ret None
    end
  else if String.eqb scheduleType "interval" then
    match parseInt10 scheduleValue with
    | None => do _ <- log LWarn "Invalid interval" ; ret None
    | Some ms =>
        if (ms <=? 0)%Z then do _ <- log LWarn "Invalid interval" ; ret None
        else
          do now <- Date_now ;
          do iso <- Date_toISOString (now + ms) ;
          ret (Some (Some iso))
    end
  else if String.eqb scheduleType "once" then
    match Date_parse env scheduleValue with
    | None => do _ <- log LWarn "Invalid timestamp" ; ret None
    | Some t => ret (Some (Some (toISOString env t)))
    end
  else ret (Some None).

Definition contextModeOf (o : option string) : ContextMode :=
  if is_lit o "group" then CtxGroup
  else if is_lit o "isolated" then CtxIsolated
  else CtxIsolated.

(** case 'schedule_task' *)
Definition processScheduleTask (registeredGroups : gmap string RegisteredGroup)
  (data : Payload) (sourceGroup : string) (isMain : bool) : M unit :=
  match nonempty (p_prompt data), nonempty (p_schedule_type data),
        nonempty (p_schedule_value data), nonempty (p_targetJid data) with
  | Some prompt, Some scheduleType, Some scheduleValue, Some targetJid =>
      match registeredGroups !! targetJid with
      | None => log LWarn "Cannot schedule task: target group not registered"
      | Some targetGroupEntry =>
          let targetFolder := g_folder targetGroupEntry in
          if (negb isMain && negb (String.eqb targetFolder sourceGroup))%bool
          then log LWarn "Unauthorized schedule_task attempt blocked"
          else
            do r <- scheduleNextRun scheduleType scheduleValue ;
            match r with
            | None => ret tt
            | Some nextRun =>
                do now <- Date_now ;
                do suffix <- random36 ;
                let taskId := "task-" +:+ pretty now +:+ "-" +:+ suffix in
                let contextMode := contextModeOf (p_context_mode data) in
                do created <- Date_now ;
                do _ <- createTask
                     (mkTask taskId targetFolder targetJid prompt scheduleType
                        scheduleValue contextMode nextRun StActive
                        (toISOString env created)) ;
                log LInfo "Task created via IPC"
            end
      end
  | _, _, _, _ => ret tt
  end.

(** The test shared by pause, resume and cancel:
    [task && (isMain || task.group_folder === sourceGroup)]. *)
Definition mayControl (task : option ScheduledTask) (sourceGroup : string)
  (isMain : bool) : bool :=
  match task with
  | Some t => (isMain || String.eqb (t_group_folder t) sourceGroup)%bool
  | None => false
  end.

(** case 'pause_task' *)
Definition processPauseTask (data : Payload) (sourceGroup : string)
  (isMain : bool) : M unit :=
  match nonempty (p_taskId data) with
  | Some taskId =>
      do task <- getTaskById taskId ;
      if mayControl task sourceGroup isMain then
        do _ <- updateTask taskId StPaused ; log LInfo "Task paused via IPC"
      else log LWarn "Unauthorized task pause attempt"
  | None => ret tt
  end.

(** case 'resume_task' *)
Definition processResumeTask (data : Payload) (sourceGroup : string)
  (isMain : bool) : M unit :=
  match nonempty (p_taskId data) with
  | Some taskId =>
      do task <- getTaskById taskId ;
      if mayControl task sourceGroup isMain then
        do _ <- updateTask taskId StActive ; log LInfo "Task resumed via IPC"
      else log LWarn "Unauthorized task resume attempt"
  | None => ret tt
  end.

(** case 'cancel_task' *)
Definition processCancelTask (data : Payload) (sourceGroup : string)
  (isMain : bool) : M unit :=
  match nonempty (p_taskId data) with
  | Some taskId =>
      do task <- getTaskById taskId ;
      if mayControl task sourceGroup isMain then
        do _ <- deleteTask taskId ; log LInfo "Task cancelled via IPC"
      else log LWarn "Unauthorized task cancel attempt"
  | None => ret tt
  end.

(** case 'refresh_groups' *)
Definition processRefreshGroups (registeredGroups : gmap string RegisteredGroup)
  (sourceGroup : string) (isMain : bool) : M unit :=
  if isMain then
    do _ <- log LInfo "Group metadata refresh requested via IPC" ;
    do _ <- deps_syncGroupMetadata true ;
    do availableGroups <- deps_getAvailableGroups ;
    deps_writeGroupsSnapshot sourceGroup true availableGroups (dom registeredGroups)
  else log LWarn "Unauthorized refresh_groups attempt blocked".

(** case 'register_group' *)
Definition processRegisterGroup (data : Payload) (sourceGroup : string)
  (isMain : bool) : M unit :=
  if negb isMain then log LWarn "Unauthorized register_group attempt blocked"
  else
    match nonempty (p_jid data), nonempty (p_name data),
          nonempty (p_folder data), nonempty (p_trigger data) with
    | Some jid, Some name, Some folder, Some trigger =>
        do now <- Date_now ;
        deps_registerGroup jid
          (mkGroup name folder trigger (toISOString env now)
             (p_containerConfig data) (p_requiresTrigger data))
    | _, _, _, _ =>
        log LWarn "Invalid register_group request - missing required fields"
    end.

(** The dynamic imports at the head of every action handler. *)
Definition dynamic_import : M unit :=
  if import_fails env then throw (Rejected "import") else ret tt.

(** Loading the credentials and the tokens and building the OAuth2 client
    and the API client from them (in [processSendGmail], lines 435-452). *)
Definition load_client : M unit :=
  if client_fails env then throw (Rejected "credentials") else ret tt.

(** One call of a Google API method, with the request it is built from.
    [calls] records every call that is made, also one whose promise
    rejects. *)
Definition google_call (method : string) (data : Payload) : M unit :=
  fun w => if google_fails env method data
           then Throw (Rejected method) (add_call (GoogleApi method data) w)
           else Ok tt (add_call (GoogleApi method data) w).

Definition processSendGmail (data : Payload) (sourceGroup : string) : M unit :=
  try_catch
    (do _ <- dynamic_import ;
     if negb (oauth_configured env) then
       log LError "Gmail OAuth not configured. Run: node /workspace/project/scripts/gmail-oauth-setup.js"
     else
       do _ <- load_client ;
       do _ <- google_call "gmail.users.messages.send" data ;
       log LInfo "Gmail email sent successfully")
    (fun err => log LError "Failed to send Gmail email").

Definition processListCalendarEvents (data : Payload) (sourceGroup : string) : M unit :=
  try_catch
    (do _ <- dynamic_import ;
     if negb (oauth_configured env) then
       log LError "Google Calendar OAuth not configured. Run: node /workspace/project/scripts/gmail-oauth-setup.js"
     else
       do _ <- load_client ;
       do _ <- google_call "calendar.events.list" data ;
       log LInfo "Calendar events listed successfully")
    (fun err => log LError "Failed to list calendar events").

Definition processGetCalendarEvent (data : Payload) (sourceGroup : string) : M unit :=
  try_catch
    (do _ <- dynamic_import ;
     if negb (oauth_configured env) then
       log LError "Google Calendar OAuth not configured. Run: node /workspace/project/scripts/gmail-oauth-setup.js"
     else if negb (truthy (p_event_id data)) then
       log LError "Missing event_id for get_calendar_event"
     else
       do _ <- load_client ;
       do _ <- google_call "calendar.events.get" data ;
       log LInfo "Calendar event retrieved successfully")
    (fun err => log LError "Failed to get calendar event").

Definition processCreateCalendarEvent (data : Payload) (sourceGroup : string) : M unit :=
  try_catch
    (do _ <- dynamic_import ;
     if negb (oauth_configured env) then
       log LError "Google Calendar OAuth not configured. Run: node /workspace/project/scripts/gmail-oauth-setup.js"
     else if (negb (truthy (p_summary data)) || negb (truthy (p_start data))
              || negb (truthy (p_end data)))%bool then
       log LError "Missing required fields for create_calendar_event: summary, start, end"
     else
       do _ <- load_client ;
       do _ <- google_call "calendar.events.insert" data ;
       log LInfo "Calendar event created successfully")
    (fun err => log LError "Failed to create calendar event").

Definition processUpdateCalendarEvent (data : Payload) (sourceGroup : string) : M unit :=
  try_catch
    (do _ <- dynamic_import ;
     if negb (oauth_configured env) then
       log LError "Google Calendar OAuth not configured. Run: node /workspace/project/scripts/gmail-oauth-setup.js"
     else if negb (truthy (p_event_id data)) then
       log LError "Missing event_id for update_calendar_event"
     else
       do _ <- load_client ;
       do _ <- google_call "calendar.events.get" data ;
       do _ <- google_call "calendar.events.update" data ;
       log LInfo "Calendar event updated successfully")
    (fun err => log LError "Failed to update calendar event").

Definition processDeleteCalendarEvent (data : Payload) (sourceGroup : string) : M unit :=
  try_catch
    (do _ <- dynamic_import ;
     if negb (oauth_configured env) then
       log LError "Google Calendar OAuth not configured. Run: node /workspace/project/scripts/gmail-oauth-setup.js"
     else if negb (truthy (p_event_id data)) then
       log LError "Missing event_id for delete_calendar_event"
     else
       do _ <- load_client ;
       do _ <- google_call "calendar.events.delete" data ;
       log LInfo "Calendar event deleted successfully")
    (fun err => log LError "Failed to delete calendar event").

(** The six action types of the [switch]. *)
Definition is_action_type (ty : option string) : bool :=
  (is_lit ty "send_gmail" || is_lit ty "list_calendar_events"
   || is_lit ty "get_calendar_event" || is_lit ty "create_calendar_event"
   || is_lit ty "update_calendar_event" || is_lit ty "delete_calendar_event")%bool.

Definition processTaskIpc (data : Payload) (sourceGroup : string)
  (isMain : bool) : M unit :=
  do registeredGroups <- deps_registeredGroups ;
  let ty := p_type data in
  if is_lit ty "schedule_task" then
    processScheduleTask registeredGroups data sourceGroup isMain
  else if is_lit ty "pause_task" then processPauseTask data sourceGroup isMain
  else if is_lit ty "resume_task" then processResumeTask data sourceGroup isMain
  else if is_lit ty "cancel_task" then processCancelTask data sourceGroup isMain
  else if is_lit ty "refresh_groups" then
    processRefreshGroups registeredGroups sourceGroup isMain
  else if is_lit ty "register_group" then
    processRegisterGroup data sourceGroup isMain
  else if is_lit ty "send_gmail" then processSendGmail data sourceGroup
  else if is_lit ty "list_calendar_events" then
    processListCalendarEvents data sourceGroup
  else if is_lit ty "get_calendar_event" then
    processGetCalendarEvent data sourceGroup
  else if is_lit ty "create_calendar_event" then
    processCreateCalendarEvent data sourceGroup
  else if is_lit ty "update_calendar_event" then
    processUpdateCalendarEvent data sourceGroup
  else if is_lit ty "delete_calendar_event" then
    processDeleteCalendarEvent data sourceGroup
  else log LWarn "Unknown IPC task type".

(** ** The watcher *)

(** [targetGroup && targetGroup.folder === sourceGroup] *)
Definition ownsJid (registeredGroups : gmap string RegisteredGroup)
  (chatJid sourceGroup : string) : bool :=
  match registeredGroups !! chatJid with
  | Some targetGroup => String.eqb (g_folder targetGroup) sourceGroup
  | None => false
  end.

(** The body of the loop over [messageFiles] (lines 72-109). *)
Definition processMessageFile (registeredGroups : gmap string RegisteredGroup)
  (sourceGroup : string) (isMain : bool) (file : string) : M unit :=
  try_catch
    (do content <- readFileSync sourceGroup Messages file ;
     do data <- JSON_parse content ;
     do _ <- match is_lit (p_type data) "message",
                   nonempty (p_chatJid data), nonempty (p_text data) with
             | true, Some chatJid, Some text =>
                 if (isMain || ownsJid registeredGroups chatJid sourceGroup)%bool
                 then
                   do _ <- deps_sendMessage chatJid (ASSISTANT_NAME +:+ ": " +:+ text) ;
                   log LInfo "IPC message sent"
                 else log LWarn "Unauthorized IPC message attempt blocked"
             | _, _, _ => ret tt
             end ;
     unlinkSync sourceGroup Messages file)
    (fun err =>
       do _ <- log LError "Error processing IPC message" ;
       do _ <- mkdirSync "errors" ;
       renameSync sourceGroup Messages file (sourceGroup +:+ "-" +:+ file)).

(** The body of the loop over [taskFiles] (lines 126-143). *)
Definition processTaskFile (sourceGroup : string) (isMain : bool)
  (file : string) : M unit :=
  try_catch
    (do content <- readFileSync sourceGroup Tasks file ;
     do data <- JSON_parse content ;
     do _ <- processTaskIpc data sourceGroup isMain ;
     unlinkSync sourceGroup Tasks file)
    (fun err =>
       do _ <- log LError "Error processing IPC task" ;
       do _ <- mkdirSync "errors" ;
       renameSync sourceGroup Tasks file (sourceGroup +:+ "-" +:+ file)).

(** [fs.existsSync(dir)] and [fs.readdirSync(dir).filter(f => f.endsWith('.json'))]
    for a sub-channel directory: [None] when it does not exist. *)
Definition readdir_json (sourceGroup : string) (ch : Channel)
  : M (option (list string)) :=
  fun w =>
    match alist_lookup sourceGroup (mailboxes w) with
    | Some mb =>
        Ok ((fun fs => List.filter (fun f => ends_with f ".json") (fst <$> fs))
              <$> chan_files ch mb) w
    | None => Ok None w
    end.

(** Lines 66-117. The loop keeps the reference it got from
    [deps.registeredGroups()]; the registry being one shared object, each
    test reads its current content. *)
Definition processMessagesDir (sourceGroup : string) (isMain : bool) : M unit :=
  try_catch
    (do listing <- readdir_json sourceGroup Messages ;
     match listing with
     | Some messageFiles =>
         for_each messageFiles (fun file =>
           do registeredGroups <- deps_registeredGroups ;
           processMessageFile registeredGroups sourceGroup isMain file)
     | None => ret tt
     end)
    (fun err => log LError "Error reading IPC messages directory").

(** Lines 120-148. *)
Definition processTasksDir (sourceGroup : string) (isMain : bool) : M unit :=
  try_catch
    (do listing <- readdir_json sourceGroup Tasks ;
     match listing with
     | Some taskFiles =>
         for_each taskFiles (fun file => processTaskFile sourceGroup isMain file)
     | None => ret tt
     end)
    (fun err => log LError "Error reading IPC tasks directory").

(** Line 61: privilege is a test on the directory name. *)
Definition isMainGroup (sourceGroup : string) : bool :=
  String.eqb sourceGroup MAIN_GROUP_FOLDER.

(** The body of the loop over [groupFolders] (lines 60-149). *)
Definition processGroup (sourceGroup : string) : M unit :=
  let isMain := isMainGroup sourceGroup in
  do _ <- processMessagesDir sourceGroup isMain ;
  processTasksDir sourceGroup isMain.

(** The directories under the IPC root other than [errors]. *)
Definition readdir_groups : M (list string) :=
  fun w => Ok (List.filter (fun f => negb (String.eqb f "errors"))
                 (fst <$> mailboxes w)) w.

(** One poll cycle of [processIpcFiles]; identity is the directory name. *)
Definition processIpcFiles : M unit :=
  do groupFolders <- readdir_groups ;
  for_each groupFolders processGroup.

End Ipc.

(** ** Sample data for the examples *)

Definition demo_env : Env :=
  mkEnv (fun n => 1700000000000 + Z.of_nat n)
        (fun n => "k3x9qz")
        (fun s now => if String.eqb s "* * * * *" then Some (now + 60000) else None)
        (fun s => if String.eqb s "2001-09-09T01:46:40.000Z" then Some 1000000000000 else None)
        (fun t => "@" +:+ pretty t)
        (fun _ _ => false) false [] false true false (fun _ _ => false).

(** A registry in which jid g1 belongs to tenant alpha and g2 to beta. *)
Definition demo_groups : gmap string RegisteredGroup :=
  <["g1" := mkGroup "G1" "alpha" "@a" "t0" None None]>
    (<["g2" := mkGroup "G2" "beta" "@b" "t0" None None]> ∅).

Definition demo_task : ScheduledTask :=
  mkTask "task-1-aaaaaa" "beta" "g2" "p" "interval" "60000" CtxIsolated
         (Some "@1") StActive "@0".

Definition schedulePayload (scheduleType scheduleValue targetJid : string) : Payload :=
  mkPayload (Some "schedule_task") None (Some "p") (Some scheduleType)
    (Some scheduleValue) None None None (Some targetJid)
    None None None None None None None None None None None.

Definition controlPayload (type taskId : string) : Payload :=
  mkPayload (Some type) (Some taskId) None None None None None None None
    None None None None None None None None None None None.

Definition messagePayload (chatJid text : string) : Payload :=
  mkPayload (Some "message") None None None None None None (Some chatJid) None
    None None None None None None (Some text) None None None None.

Definition registerPayload (jid name folder trigger : string) : Payload :=
  mkPayload (Some "register_group") None None None None None None None None
    (Some jid) (Some name) (Some folder) (Some trigger) None None None None
    None None None.

Definition actionPayload (type : string) : Payload :=
  mkPayload (Some type) None None None None None None None None
    None None None None None None None None None None None.

(** A world with the sample registry, one task of beta, and one request file
    [r.json] holding [c] in the given channel of [group]. *)
Definition demo_world (group : string) (ch : Channel) (c : FileContent) : World :=
  mkWorld (<["task-1-aaaaaa" := demo_task]> ∅) demo_groups [] [] [] 0 0
    [(group, set_chan ch (Some [("r.json", c)]) (mkMailbox None None))] ∅ [].

(** ** Notions used by the statements *)

(** A computation relates every start world to its end world by [R],
    whether it returns or throws. *)
Definition keeps {A} (R : World -> World -> Prop) (c : M A) : Prop :=
  forall w, R w (final (c w)).

(** The mailbox file system is untouched. *)
Definition fs_same (w w' : World) : Prop :=
  mailboxes w' = mailboxes w /\ errorsDir w' = errorsDir w /\ fsLog w' = fsLog w.

(** Task Store, registry and outbound messages are untouched. *)
Definition store_same (w w' : World) : Prop :=
  tasks w' = tasks w /\ groups w' = groups w /\ sent w' = sent w.

(** The three control operations on a stored task. *)
Inductive ControlOp := Pause | Resume | Cancel.

Definition op_type (op : ControlOp) : string :=
  match op with
  | Pause => "pause_task"
  | Resume => "resume_task"
  | Cancel => "cancel_task"
  end.

Definition op_effect (op : ControlOp) (taskId : string)
  (ts : gmap string ScheduledTask) : gmap string ScheduledTask :=
  match op with
  | Pause => alter (with_status StPaused) taskId ts
  | Resume => alter (with_status StActive) taskId ts
  | Cancel => delete taskId ts
  end.

Definition op_done (op : ControlOp) : string :=
  match op with
  | Pause => "Task paused via IPC"
  | Resume => "Task resumed via IPC"
  | Cancel => "Task cancelled via IPC"
  end.

(** The request [d] with other identity claims written into it: the fields
    [groupFolder], [chatJid], [jid], [name], [folder] and [trigger]. *)
Definition with_claims (groupFolder chatJid jid name folder trigger : option string)
  (d : Payload) : Payload :=
  mkPayload (p_type d) (p_taskId d) (p_prompt d) (p_schedule_type d)
    (p_schedule_value d) (p_context_mode d) groupFolder chatJid
    (p_targetJid d) jid name folder trigger (p_requiresTrigger d)
    (p_containerConfig d) (p_text d) (p_event_id d) (p_summary d)
    (p_start d) (p_end d).

(** The id [processTaskIpc] gives a task it creates in world [w]:
    [`task-${Date.now()}-${Math.random().toString(36).slice(2, 8)}`]. *)
Definition newTaskId (env : Env) (w : World) : string :=
  "task-" +:+ pretty (clock env (ticks w)) +:+ "-" +:+ random_suffix env (draws w).

(** The message [d] with other identity claims written into it: the fields
    [groupFolder], [targetJid], [jid], [name], [folder] and [trigger]. *)
Definition with_message_claims
  (groupFolder targetJid jid name folder trigger : option string)
  (d : Payload) : Payload :=
  mkPayload (p_type d) (p_taskId d) (p_prompt d) (p_schedule_type d)
    (p_schedule_value d) (p_context_mode d) groupFolder (p_chatJid d)
    targetJid jid name folder trigger (p_requiresTrigger d)
    (p_containerConfig d) (p_text d) (p_event_id d) (p_summary d)
    (p_start d) (p_end d).

(** What the [try] block of the messages loop does with the content of a
    file, between reading it and unlinking it (lines 74-96). *)
Definition messageWork (ASSISTANT_NAME : string) (env : Env)
  (registeredGroups : gmap string RegisteredGroup) (sourceGroup : string)
  (isMain : bool) (c : FileContent) : M unit :=
  do data <- JSON_parse c ;
  match is_lit (p_type data) "message",
        nonempty (p_chatJid data), nonempty (p_text data) with
  | true, Some chatJid, Some text =>
      if (isMain || ownsJid registeredGroups chatJid sourceGroup)%bool
      then
        do _ <- deps_sendMessage env chatJid (ASSISTANT_NAME +:+ ": " +:+ text) ;
        log LInfo "IPC message sent"
      else log LWarn "Unauthorized IPC message attempt blocked"
  | _, _, _ => ret tt
  end.

(** The same for the tasks loop (lines 128-130). *)
Definition taskWork (env : Env) (sourceGroup : string) (isMain : bool)
  (c : FileContent) : M unit :=
  do data <- JSON_parse c ;
  processTaskIpc env data sourceGroup isMain.

(** The two ways a request file leaves its mailbox. *)
Definition deleted (sg : string) (ch : Channel) (file : string)
  (w w' : World) : Prop :=
  fsLog w' = (fsLog w ++ [Unlink sg ch file])%list /\
  errorsDir w' = errorsDir w.

Definition quarantined (sg : string) (ch : Channel) (file : string)
  (c : FileContent) (w w' : World) : Prop :=
  fsLog w' = (fsLog w ++ [Mkdir "errors";
                          Rename sg ch file (sg +:+ "-" +:+ file)])%list /\
  errorsDir w' = <[sg +:+ "-" +:+ file := c]> (errorsDir w).

(** The two exceptional outcomes of [processTaskIpc]: the metadata resync
    asked by main is rejected, or a complete, authorized interval schedule
    leads past the last instant a Date can hold. *)
Definition exceptional (env : Env) (d : Payload) (sg : string) (isMain : bool)
  (w : World) : Prop :=
  (p_type d = Some "refresh_groups" /\ isMain = true /\ sync_rejects env = true)
  \/
  (p_type d = Some "schedule_task" /\ p_schedule_type d = Some "interval" /\
   exists prompt sv tj g ms,
     nonempty (p_prompt d) = Some prompt /\
     nonempty (p_schedule_value d) = Some sv /\
     nonempty (p_targetJid d) = Some tj /\
     groups w !! tj = Some g /\
     (isMain = true \/ g_folder g = sg) /\
     parseInt10 sv = Some ms /\ 0 < ms /\
     MAX_TIME < Z.abs (clock env (ticks w) + ms)).

(** What C8 says of a Task created for target [tj], registered as [g]. *)
Definition task_fields_ok (d : Payload) (tj : string) (g : RegisteredGroup)
  (t : ScheduledTask) : Prop :=
  t_group_folder t = g_folder g /\
  t_chat_jid t = tj /\
  t_status t = StActive /\
  (p_context_mode d = Some "group" -> t_context_mode t = CtxGroup) /\
  (p_context_mode d = Some "isolated" -> t_context_mode t = CtxIsolated) /\
  (p_context_mode d <> Some "group" -> t_context_mode t = CtxIsolated).

(** *** One poll cycle *)

Definition channel_eqb (a b : Channel) : bool :=
  match a, b with
  | Messages, Messages | Tasks, Tasks => true
  | _, _ => false
  end.

(** The event removes file [f] from channel [ch] of [sg]: an unlink or a
    rename into the errors directory. *)
Definition disposes (sg : string) (ch : Channel) (f : string) (e : FsEvent) : bool :=
  match e with
  | Unlink g c x => (String.eqb sg g && channel_eqb ch c && String.eqb f x)%bool
  | Rename g c x _ => (String.eqb sg g && channel_eqb ch c && String.eqb f x)%bool
  | Mkdir _ => false
  end.

(** How often the file was disposed of in a trace. *)
Definition disposals (sg : string) (ch : Channel) (f : string)
  (l : list FsEvent) : nat :=
  List.length (List.filter (disposes sg ch f) l).

(** The listing of a sub-channel directory, when it exists. *)
Definition dir_files (sg : string) (ch : Channel) (mbs : list (string * Mailbox))
  : option (list (string * FileContent)) :=
  mb ← alist_lookup sg mbs; chan_files ch mb.

Definition exists_file (sg : string) (ch : Channel) (f : string) (w : World) : bool :=
  match find_file sg ch f w with Some _ => true | None => false end.

Definition mem (x : string) (l : list string) : bool :=
  existsb (String.eqb x) l.

(** No directory lists a name twice. *)
Definition mailboxes_wf (w : World) : Prop :=
  NoDup (fst <$> mailboxes w) /\
  forall sg ch fs, dir_files sg ch (mailboxes w) = Some fs -> NoDup (fst <$> fs).

(** The same, as a test that computes. *)
Definition channel_wf_b (o : option (list (string * FileContent))) : bool :=
  match o with
  | Some fs => bool_decide (NoDup (fst <$> fs))
  | None => true
  end.

Definition mailboxes_wf_b (w : World) : bool :=
  (bool_decide (NoDup (fst <$> mailboxes w))
   && forallb (fun e => channel_wf_b (mb_messages (snd e))
                       && channel_wf_b (mb_tasks (snd e)))
        (mailboxes w))%bool.

(** From [w] to [w'] the request files of the directories selected by [P]
    were taken up: each of their .json files is gone and was disposed of
    once more than before; no other file and no other directory changed. *)
Definition swept (P : string -> Channel -> bool) (w w' : World) : Prop :=
  (forall sg ch, P sg ch = false ->
     dir_files sg ch (mailboxes w') = dir_files sg ch (mailboxes w)) /\
  (forall sg ch f,
     find_file sg ch f w' =
     if (P sg ch && ends_with f ".json")%bool then None else find_file sg ch f w) /\
  (forall sg ch f,
     disposals sg ch f (fsLog w') =
     (disposals sg ch f (fsLog w)
      + if (P sg ch && ends_with f ".json" && exists_file sg ch f w)%bool
        then 1 else 0)%nat).

(** The same for a list of files of one directory. *)
Definition swept_files (sg : string) (ch : Channel) (files : list string)
  (w w' : World) : Prop :=
  (forall sg' ch', (String.eqb sg' sg && channel_eqb ch' ch)%bool = false ->
     dir_files sg' ch' (mailboxes w') = dir_files sg' ch' (mailboxes w)) /\
  (forall sg' ch' f,
     find_file sg' ch' f w' =
     if (String.eqb sg' sg && channel_eqb ch' ch && mem f files)%bool
     then None else find_file sg' ch' f w) /\
  (forall sg' ch' f,
     disposals sg' ch' f (fsLog w') =
     (disposals sg' ch' f (fsLog w)
      + if (String.eqb sg' sg && channel_eqb ch' ch && mem f files)%bool
        then 1 else 0)%nat).

(** One file was taken up: it left its directory and the trace has one more
    disposal of it, and of nothing else. *)
Definition file_step (sg : string) (ch : Channel) (f : string) (w w' : World) : Prop :=
  mailboxes w' = remove_file sg ch f (mailboxes w) /\
  forall sg' ch' f',
    disposals sg' ch' f' (fsLog w') =
    (disposals sg' ch' f' (fsLog w)
     + if disposes sg' ch' f' (Unlink sg ch f) then 1 else 0)%nat.

(** A request file that the cycle takes up: a .json file in a channel of a
    directory other than errors. *)
Definition processed (sg : string) (ch : Channel) (f : string) (w : World) : bool :=
  (negb (String.eqb sg "errors") && ends_with f ".json" && exists_file sg ch f w)%bool.

(** Spec reading of "numeric" for an interval: the whole value is a decimal
    numeral, one or more digits and nothing else. *)
Fixpoint all_digits (s : string) : bool :=
  match s with
  | String a r =>
      match digit_of a with
      | Some _ => all_digits r
      | None => false
      end
  | EmptyString => true
  end.

Definition spec_numeric (s : string) : bool :=
  (negb (String.eqb s "") && all_digits s)%bool.

(** Spec reading of "present": the request has the field. *)
Definition present (o : option string) : bool :=
  match o with Some _ => true | None => false end.

(** The reading of a count of milliseconds, said without the parser.
    [decimal s] is the number that the digits at the head of [s] write. *)
Fixpoint decimal_from (acc : Z) (s : string) : Z :=
  match s with
  | String a r =>
      match digit_of a with
      | Some d => decimal_from (10 * acc + d) r
      | None => acc
      end
  | EmptyString => acc
  end.

Definition decimal (s : string) : Z := decimal_from 0 s.

Definition starts_with_digit (s : string) : bool :=
  match s with
  | String a _ => match digit_of a with Some _ => true | None => false end
  | EmptyString => false
  end.

(** [sv] reads as [n]: white space, then an optional sign, then the longest
    run of decimal digits, which is not empty, then any text; [n] is the
    number the digits write, negated under a minus sign. *)
Definition reads_as (sv : string) (n : Z) : Prop :=
  exists ws sign digits rest,
    sv = ws +:+ sign +:+ digits +:+ rest /\
    skip_ws ws = "" /\
    (sign = "" \/ sign = "+" \/ sign = "-") /\
    digits <> "" /\ all_digits digits = true /\
    starts_with_digit rest = false /\
    n = if String.eqb sign "-" then - decimal digits else decimal digits.

(** Each entry of the Task Store is as it was in [w], or is gone, or is a
    task of a folder in [P]. *)
Definition tasks_within (P : string -> Prop) (w w' : World) : Prop :=
  forall id,
    tasks w' !! id = tasks w !! id \/ tasks w' !! id = None \/
    exists t', tasks w' !! id = Some t' /\ P (t_group_folder t').

(** What has happened since [w] stayed within the folders in [P]: the
    registry is untouched, whatever was handed to the send function went to
    a jid registered to a folder in [P], with the assistant's name in front
    of the text, and the Task Store changed within [P]. *)
Definition confined (ASSISTANT_NAME : string) (P : string -> Prop)
  (w w' : World) : Prop :=
  groups w' = groups w /\
  (exists new, sent w' = (sent w ++ new)%list /\
     forall jid text, (jid, text) ∈ new ->
       (exists g, groups w !! jid = Some g /\ P (g_folder g)) /\
       exists body, text = ASSISTANT_NAME +:+ ": " +:+ body) /\
  tasks_within P w w'.

(** No request file waits in the directory [sg]. *)
Definition no_request_files (sg : string) (w : World) : Prop :=
  forall ch f, (ends_with f ".json" && exists_file sg ch f w)%bool = false.

(** Files only leave the mailboxes. *)
Definition files_shrink (w w' : World) : Prop :=
  forall g ch f, exists_file g ch f w' = true -> exists_file g ch f w = true.

(** The outbound messages only grow. *)
Definition sent_grows (w w' : World) : Prop :=
  exists new, sent w' = (sent w ++ new)%list.

(** Files only leave the mailboxes and, from a world in which no request
    file waits in the directory [main], what happens stays within the other
    folders. *)
Definition without_main (ASSISTANT_NAME main : string) (w w' : World) : Prop :=
  files_shrink w w' /\
  (no_request_files main w ->
   confined ASSISTANT_NAME (fun folder => folder <> main) w w').

(** A world with the sample registry and Task Store in which main and
    tenant alpha each hold one message file, both for the chat g2 of
    tenant beta. *)
Definition two_senders : World :=
  mkWorld (<["task-1-aaaaaa" := demo_task]> ∅) demo_groups [] [] [] 0 0
    [("alpha", mkMailbox (Some [("r.json", JsonObject (messagePayload "g2" "hi"))])
                 (Some [("s.json", JsonObject (schedulePayload "interval" "60000" "g2"))]));
     ("main", mkMailbox (Some [("m.json", JsonObject (messagePayload "g2" "hello"))])
                (Some []))] ∅ [].

(** ** Notions used by the further properties *)

Definition is_google_call (c : ExtCall) : bool :=
  match c with
  | GoogleApi _ _ => true
  | _ => false
  end.

(** The twelve literals of the [switch] in [processTaskIpc]. *)
Definition known_types : list string :=
  ["schedule_task"; "pause_task"; "resume_task"; "cancel_task";
   "refresh_groups"; "register_group"; "send_gmail"; "list_calendar_events";
   "get_calendar_event"; "create_calendar_event"; "update_calendar_event";
   "delete_calendar_event"].

Definition is_known_type (ty : option string) : bool :=
  match ty with
  | Some s => mem s known_types
  | None => false
  end.

(** Registry and outbound messages are untouched, and whatever left the
    process since [w] is a call of the Google API. *)
Definition tenant_bounds (w w' : World) : Prop :=
  groups w' = groups w /\ sent w' = sent w /\
  exists new, calls w' = (calls w ++ new)%list /\ forallb is_google_call new = true.


(** Registry untouched, and whatever was handed to the send function since
    [w] went to a jid registered to [sg], with the assistant's name in
    front of the text. *)
Definition sends_own (ASSISTANT_NAME sg : string) (w w' : World) : Prop :=
  groups w' = groups w /\
  exists new, sent w' = (sent w ++ new)%list /\
    forall jid text, (jid, text) ∈ new ->
      ownsJid (groups w) jid sg = true /\
      exists body, text = ASSISTANT_NAME +:+ ": " +:+ body.

(** Content on which [JSON.parse] or the first property read throws. *)
Definition malformed (c : FileContent) : bool :=
  match c with
  | JsonObject _ => false
  | _ => true
  end.










(** ** The requests built by the action handlers *)

(** The fields of a send_gmail request (lines 410-417). *)
Record GmailData := mkGmailData {
  gm_to : option (list string);
  gm_subject : option string;
  gm_body : option string;
  gm_cc : option (list string);
  gm_bcc : option (list string);
  gm_html : option bool
}.

Definition newline : string := String "010"%char "".

(** Lines 455-470: the lines of the message before filtering. An array is
    truthy also when empty, so [x || []] only replaces a missing field. *)
Definition messageParts (data : GmailData) : list string :=
  let to := default [] (gm_to data) in
  let cc := default [] (gm_cc data) in
  let bcc := default [] (gm_bcc data) in
  let subject := default "" (gm_subject data) in
  let body := default "" (gm_body data) in
  let isHtml := default false (gm_html data) in
  [ "To: " +:+ String.concat ", " to;
    if (0 <? List.length cc)%nat then "Cc: " +:+ String.concat ", " cc else "";
    if (0 <? List.length bcc)%nat then "Bcc: " +:+ String.concat ", " bcc else "";
    "Subject: " +:+ subject;
    "Content-Type: " +:+ (if isHtml then "text/html" else "text/plain")
      +:+ "; charset=utf-8";
    "";
    body ].

(** Line 472: [messageParts.filter(Boolean).join('\n')]. *)
Definition gmailMessage (data : GmailData) : string :=
  String.concat newline
    (List.filter (fun s => negb (String.eqb s "")) (messageParts data)).

(** [s.includes(a)] for a single character. *)
Fixpoint includes (s : string) (a : ascii) : bool :=
  match s with
  | String c r => (Ascii.eqb c a || includes r a)%bool
  | EmptyString => false
  end.

(** [s.replace(/a/g, b)] for single characters. *)
Fixpoint replace_all (a b : ascii) (s : string) : string :=
  match s with
  | String c r => String (if Ascii.eqb c a then b else c) (replace_all a b r)
  | EmptyString => EmptyString
  end.

(** [s.replace(/a+$/, '')] *)
Fixpoint strip_trailing (a : ascii) (s : string) : string :=
  match s with
  | String c r =>
      let r' := strip_trailing a r in
      if (Ascii.eqb c a && String.eqb r' "")%bool then EmptyString else String c r'
  | EmptyString => EmptyString
  end.

(** Lines 473-477, from the base64 text of the message on. *)
Definition base64url (b64 : string) : string :=
  strip_trailing "=" (replace_all "/" "_" (replace_all "+" "-" b64)).

(** Line 552: [Math.min(data.max_results || 10, 250)] for an integer
    [max_results]; 0 is falsy. *)
Definition maxResults (max_results : option Z) : Z :=
  Z.min (match max_results with
         | Some n => if (n =? 0)%Z then 10 else n
         | None => 10
         end) 250.

(** The fields of the calendar requests that build an event (lines 638-648
    and 738-749). *)
Record CalendarData := mkCalendarData {
  cd_event_id : option string;
  cd_summary : option string;
  cd_start : option string;
  cd_end : option string;
  cd_description : option string;
  cd_location : option string;
  cd_attendees : option (list string);
  cd_calendar_id : option string;
  cd_timezone : option string;
  cd_send_notifications : option bool
}.

(** The values of the properties of an event object: a text, the two shapes
    of a start or end, the attendee list, or anything else the API
    returned. *)
Inductive EventValue :=
| EvText (s : string)
| EvDate (date timeZone : string)
| EvDateTime (dateTime timeZone : string)
| EvAttendees (emails : list string)
| EvOther (json : string).

(** [if (v !== undefined) event[key] = f(v)], and the same under the other
    tests of the handlers, which [v] then encodes. *)
Definition assign_if {A} (key : string) (v : option A) (f : A -> EventValue)
  (event : gmap string EventValue) : gmap string EventValue :=
  match v with
  | Some x => <[key := f x]> event
  | None => event
  end.

(** [a && a.length > 0] *)
Definition nonempty_list {A} (o : option (list A)) : option (list A) :=
  match o with
  | Some (a :: r) => Some (a :: r)
  | _ => None
  end.

Section Requests.

(** Constant of config.ts. *)
Variable TIMEZONE : string.

(** [data.timezone || TIMEZONE] *)
Definition timeZoneOf (data : CalendarData) : string :=
  default TIMEZONE (nonempty (cd_timezone data)).

(** [isAllDay ? { date: v, timeZone } : { dateTime: v, timeZone }] *)
Definition eventTime (isAllDay : bool) (data : CalendarData) (v : string)
  : EventValue :=
  if isAllDay then EvDate v (timeZoneOf data) else EvDateTime v (timeZoneOf data).

(** Lines 666-716: the request body of [calendar.events.insert]; [None] is
    the early return on a missing field. *)
Definition createEvent (data : CalendarData) : option (gmap string EventValue) :=
  match nonempty (cd_summary data), nonempty (cd_start data),
        nonempty (cd_end data) with
  | Some summary, Some start, Some end_ =>
      let isAllDay := negb (includes start "T") in
      let event : gmap string EventValue :=
        <["end" := eventTime isAllDay data end_]>
          (<["start" := eventTime isAllDay data start]>
             (<["summary" := EvText summary]> ∅)) in
      let event := assign_if "description" (nonempty (cd_description data)) EvText event in
      let event := assign_if "location" (nonempty (cd_location data)) EvText event in
      let event :=
        assign_if "attendees" (nonempty_list (cd_attendees data)) EvAttendees event in
      Some event
  | _, _, _ => None
  end.

(** Lines 797-828: the request body of [calendar.events.update], from the
    event that [calendar.events.get] returned. A field is applied when it is
    not [undefined]. *)
Definition updateEvent (existing : gmap string EventValue) (data : CalendarData)
  : gmap string EventValue :=
  let event := existing in
  let event := assign_if "summary" (cd_summary data) EvText event in
  let event :=
    assign_if "start" (cd_start data)
      (fun x => eventTime (negb (includes x "T")) data x) event in
  let event :=
    assign_if "end" (cd_end data)
      (fun x => eventTime (negb (includes x "T")) data x) event in
  let event := assign_if "description" (cd_description data) EvText event in
  let event := assign_if "location" (cd_location data) EvText event in
  let event := assign_if "attendees" (cd_attendees data) EvAttendees event in
  event.

End Requests.

(** The properties of an event that an update request can set. *)
Definition event_fields : list string :=
  ["summary"; "start"; "end"; "description"; "location"; "attendees"].

(** ** Starting the watcher *)

(** The module state of ipc.ts: the flag [ipcWatcherRunning], the number of
    polling loops that were started (a loop is the chain of calls of
    [processIpcFiles] linked by [setTimeout]), and the world. *)
Record Watcher := mkWatcher {
  ipcWatcherRunning : bool;
  pollLoops : nat;
  world : World
}.

(** Lines 34-43 and 154-155 of [startIpcWatcher]. The call that starts the
    loop is counted in [pollLoops]; what the cycles of the loop do, each a
    [processIpcFiles], is not part of this function, so the log holds the
    lines of [startIpcWatcher] itself. The directory made is the IPC root. *)
Definition startIpcWatcher (s : Watcher) : Watcher :=
  if ipcWatcherRunning s then
    mkWatcher (ipcWatcherRunning s) (pollLoops s)
      (add_log (LDebug, "IPC watcher already running, skipping duplicate start")
         (world s))
  else
    mkWatcher true (S (pollLoops s))
      (add_log (LInfo, "IPC watcher started (per-group namespaces)")
         (final (mkdirSync "ipc" (world s)))).

(** * Voice transcription (src/transcription.ts) *)

Record ProviderConfig := mkProviderConfig {
  apiKey : string;
  model : string
}.

(** The parsed configuration file. A field that the file leaves out is
    [None], [false] or the empty string. *)
Record TranscriptionConfig := mkTranscriptionConfig {
  provider : string;
  openai : option ProviderConfig;
  groq : option ProviderConfig;
  enabled : bool;
  fallbackMessage : option string
}.

(** What a call leaves behind: log lines, and the attempts to transcribe
    through a provider, with the base URL (none is OpenAI's own), the key
    and the model used. *)
Inductive TranscriptionEvent :=
| Logged (l : Level) (msg : string)
| Attempt (baseURL : option string) (key model : string).

(** What [JSON.parse] makes of the configuration file: nothing when reading
    or parsing throws, [null], or a value whose fields can be read. A value
    that is no object (a number, a string, a boolean) has none of the
    fields, like an empty object. *)
Inductive ConfigFile :=
| ConfigUnreadable
| ConfigNull
| ConfigObject (config : TranscriptionConfig).

(** What the module does not decide itself.
    - [config_file]: the configuration file as [JSON.parse] gives it.
    - [provider_result baseURL key model audio]: the text the provider
      returns; [None] when the import, the upload or the request throws. *)
Record TranscriptionEnv := mkTranscriptionEnv {
  config_file : ConfigFile;
  provider_result : option string -> string -> string -> string -> option string
}.

(** How the promise of [transcribeAudio] settles: with a result, [None] for
    [undefined], or with an exception. *)
Inductive Settled :=
| Resolves (result : option string)
| Rejects (e : Exn).

(** [s.trimEnd()]: the text up to the position from which on everything is
    white space. *)
Fixpoint trim_end (s : string) : string :=
  match s with
  | String c r =>
      if String.eqb (skip_ws s) "" then EmptyString else String c (trim_end r)
  | EmptyString => EmptyString
  end.

(** [s.trim()] *)
Definition trim (s : string) : string := trim_end (skip_ws s).

Section Transcription.

Variable tenv : TranscriptionEnv.

(** Lines 24-37. The result is [None] when the file holds [null]. *)
Definition loadConfig : option TranscriptionConfig * list TranscriptionEvent :=
  match config_file tenv with
  | ConfigObject config => (Some config, [])
  | ConfigNull => (None, [])
  | ConfigUnreadable =>
      (Some (mkTranscriptionConfig "openai" None None false
               (Some "[Voice Message - transcription unavailable]")),
       [Logged LWarn "Transcription config not found, using defaults"])
  end.

(** Lines 39-72. *)
Definition transcribeWithOpenAI (audioBuffer : string) (config : TranscriptionConfig)
  : option string * list TranscriptionEvent :=
  match openai config with
  | Some pc =>
      if String.eqb (apiKey pc) ""
      then (None, [Logged LWarn "OpenAI API key not configured"])
      else
        let m := if String.eqb (model pc) "" then "whisper-1" else model pc in
        match provider_result tenv None (apiKey pc) m audioBuffer with
        | Some transcription => (Some transcription, [Attempt None (apiKey pc) m])
        | None =>
            (None, [Attempt None (apiKey pc) m;
                    Logged LError "OpenAI transcription failed"])
        end
  | None => (None, [Logged LWarn "OpenAI API key not configured"])
  end.

(** Lines 74-109. *)
Definition transcribeWithGroq (audioBuffer : string) (config : TranscriptionConfig)
  : option string * list TranscriptionEvent :=
  match groq config with
  | Some pc =>
      if String.eqb (apiKey pc) ""
      then (None, [Logged LWarn "Groq API key not configured"])
      else
        let baseURL := Some "https://api.groq.com/openai/v1" in
        let m := if String.eqb (model pc) "" then "whisper-large-v3" else model pc in
        match provider_result tenv baseURL (apiKey pc) m audioBuffer with
        | Some transcription => (Some transcription, [Attempt baseURL (apiKey pc) m])
        | None =>
            (None, [Attempt baseURL (apiKey pc) m;
                    Logged LError "Groq transcription failed"])
        end
  | None => (None, [Logged LWarn "Groq API key not configured"])
  end.

(** Lines 111-152. The test of [config.enabled] stands before the [try]:
    on a configuration that is [null] it throws, and the promise rejects. *)
Definition transcribeAudio (audioBuffer : string)
  : Settled * list TranscriptionEvent :=
  match loadConfig with
  | (None, t0) => (Rejects (TypeError "Cannot read properties of null"), t0)
  | (Some config, t0) =>
      if negb (enabled config) then
        (Resolves (fallbackMessage config),
         t0 ++ [Logged LDebug "Transcription disabled in config"])%list
      else
        let t1 := (t0 ++ [Logged LInfo "Transcribing audio"])%list in
        let switch :=
          if String.eqb (provider config) "openai"
          then Some (transcribeWithOpenAI audioBuffer config)
          else if String.eqb (provider config) "groq"
          then Some (transcribeWithGroq audioBuffer config)
          else None in
        match switch with
        | None =>
            (Resolves (fallbackMessage config),
             t1 ++ [Logged LError "Unknown transcription provider"])%list
        | Some (None, t2) => (Resolves (fallbackMessage config), t1 ++ t2)%list
        | Some (Some transcript, t2) =>
            if String.eqb transcript ""
            then (Resolves (fallbackMessage config), t1 ++ t2)%list
            else (Resolves (Some (trim transcript)),
                  t1 ++ t2 ++ [Logged LInfo "Transcription successful"])%list
        end
  end.

End Transcription.

(** The provider attempts of a trace, in order. *)
Definition attempts (t : list TranscriptionEvent)
  : list (option string * string * string) :=
  omap (fun e => match e with
                 | Attempt baseURL key m => Some (baseURL, key, m)
                 | Logged _ _ => None
                 end) t.

(** ** Sample data for the further properties *)

(** A world whose only mailboxes are the given ones, with the sample
    registry and the sample task. *)
Definition world_with (mbs : list (string * Mailbox)) : World :=
  mkWorld (<["task-1-aaaaaa" := demo_task]> ∅) demo_groups [] [] [] 0 0 mbs ∅ [].



Definition demo_gmail : GmailData :=
  mkGmailData (Some ["a@example.org"]) (Some "Hi") (Some "Hello") None None None.

(** An all-day start with an end that has a time. *)
Definition demo_calendar : CalendarData :=
  mkCalendarData None (Some "Trip") (Some "2024-05-01")
    (Some "2024-05-02T10:00:00") None None None None None None.

(** A request that names no field. *)
Definition empty_calendar : CalendarData :=
  mkCalendarData (Some "ev1") None None None None None None None None None.

(** A no-break space (U+00A0) followed by a space. *)
Definition blank_text : string := String "194"%char (String "160"%char " ").

(** Groq is configured without a model, and the provider answers with white
    space alone. *)
Definition demo_tenv : TranscriptionEnv :=
  mkTranscriptionEnv
    (ConfigObject
       (mkTranscriptionConfig "groq" None (Some (mkProviderConfig "gsk-1" ""))
          true (Some "[no transcript]")))
    (fun _ _ _ _ => Some blank_text).

(** No request file waits in the tasks channel of [sg]. *)
Definition no_task_files (sg : string) (w : World) : Prop :=
  forall f, (ends_with f ".json" && exists_file sg Tasks f w)%bool = false.

(** From a world in which no request file waits in the tasks channel of
    [sg], the registry is kept and no such file has appeared. *)
Definition registry_kept (sg : string) (w w' : World) : Prop :=
  no_task_files sg w -> groups w' = groups w /\ no_task_files sg w'.

(** * Frame rules *)

#[local] Instance fs_same_refl : Reflexive fs_same.
Proof. intros w. unfold fs_same. auto. Qed.

#[local] Instance fs_same_trans : Transitive fs_same.
Proof.
  intros a b c (H1 & H2 & H3) (H4 & H5 & H6). unfold fs_same.
  rewrite H4, H5, H6. auto.
Qed.

#[local] Instance store_same_refl : Reflexive store_same.
Proof. intros w. unfold store_same. auto. Qed.

#[local] Instance store_same_trans : Transitive store_same.
Proof.
  intros a b c (H1 & H2 & H3) (H4 & H5 & H6). unfold store_same.
  rewrite H4, H5, H6. auto.
Qed.

Section FrameRules.

Context (R : World -> World -> Prop) `{!Reflexive R} `{!Transitive R}.

Lemma keeps_ret {A} (a : A) : keeps R (ret a).
Proof. intros w. simpl. reflexivity. Qed.

Lemma keeps_throw {A} (e : Exn) : keeps R (@throw A e).
Proof. intros w. simpl. reflexivity. Qed.

Lemma keeps_bind {A B} (c : M A) (k : A -> M B) :
  keeps R c -> (forall a, keeps R (k a)) -> keeps R (bind c k).
Proof.
  intros Hc Hk w. unfold bind. specialize (Hc w).
  destruct (c w) as [a w1 | e w1]; simpl in *; [|assumption].
  etransitivity; [eassumption | apply Hk].
Qed.

Lemma keeps_try_catch {A} (c : M A) (h : Exn -> M A) :
  keeps R c -> (forall e, keeps R (h e)) -> keeps R (try_catch c h).
Proof.
  intros Hc Hh w. unfold try_catch. specialize (Hc w).
  destruct (c w) as [a w1 | e w1]; simpl in *; [assumption|].
  etransitivity; [eassumption | apply Hh].
Qed.

Lemma keeps_for_each {A} (l : list A) (body : A -> M unit) :
  (forall x, keeps R (body x)) -> keeps R (for_each l body).
Proof.
  intros Hb. induction l as [|x r IH]; simpl.
  - apply keeps_ret.
  - apply keeps_bind; [apply Hb | intros _; exact IH].
Qed.

End FrameRules.

Create HintDb keeps discriminated.

(** A primitive that touches none of the fields [R] looks at. *)
Ltac keeps_prim :=
  let w := fresh "w" in
  intros w; repeat autounfold with keeps_unfold; simpl;
  repeat case_match; simpl; repeat split; reflexivity.

Create HintDb keeps_unfold discriminated.
#[local] Hint Unfold fs_same store_same : keeps_unfold.

(** Structural descent through a handler body. *)
Ltac keeps_struct :=
  repeat (intros;
          first [ solve [apply keeps_ret; typeclasses eauto]
                | solve [apply keeps_throw; typeclasses eauto]
                | solve [eauto with keeps]
                | solve [typeclasses eauto]
                | apply keeps_bind
                | apply keeps_try_catch
                | apply keeps_for_each
                | case_match ]).

Section Frames.

Variable MAIN_GROUP_FOLDER : string.
Variable ASSISTANT_NAME : string.
Variable env : Env.

Lemma log_fs l msg : keeps fs_same (log l msg).
Proof. keeps_prim. Qed.

Lemma log_store l msg : keeps store_same (log l msg).
Proof. keeps_prim. Qed.

Lemma Date_now_fs : keeps fs_same (Date_now env).
Proof. keeps_prim. Qed.

Lemma Date_now_store : keeps store_same (Date_now env).
Proof. keeps_prim. Qed.

Lemma random36_fs : keeps fs_same (random36 env).
Proof. keeps_prim. Qed.

Lemma Date_toISOString_fs t : keeps fs_same (Date_toISOString env t).
Proof. unfold Date_toISOString. keeps_prim. Qed.

Lemma createTask_fs t : keeps fs_same (createTask t).
Proof. keeps_prim. Qed.

Lemma getTaskById_fs id : keeps fs_same (getTaskById id).
Proof. keeps_prim. Qed.

Lemma updateTask_fs id st : keeps fs_same (updateTask id st).
Proof. keeps_prim. Qed.

Lemma deleteTask_fs id : keeps fs_same (deleteTask id).
Proof. keeps_prim. Qed.

Lemma deps_registeredGroups_fs : keeps fs_same deps_registeredGroups.
Proof. keeps_prim. Qed.

Lemma deps_registeredGroups_store : keeps store_same deps_registeredGroups.
Proof. keeps_prim. Qed.

Lemma deps_registerGroup_fs jid g : keeps fs_same (deps_registerGroup jid g).
Proof. keeps_prim. Qed.

Lemma deps_sendMessage_fs jid text : keeps fs_same (deps_sendMessage env jid text).
Proof. unfold deps_sendMessage. keeps_prim. Qed.

Lemma deps_syncGroupMetadata_fs b : keeps fs_same (deps_syncGroupMetadata env b).
Proof. unfold deps_syncGroupMetadata. keeps_prim. Qed.

Lemma deps_syncGroupMetadata_store b : keeps store_same (deps_syncGroupMetadata env b).
Proof. unfold deps_syncGroupMetadata. keeps_prim. Qed.

Lemma deps_getAvailableGroups_fs : keeps fs_same (deps_getAvailableGroups env).
Proof. keeps_prim. Qed.

Lemma deps_getAvailableGroups_store : keeps store_same (deps_getAvailableGroups env).
Proof. keeps_prim. Qed.

Lemma deps_writeGroupsSnapshot_fs g b a j :
  keeps fs_same (deps_writeGroupsSnapshot g b a j).
Proof. keeps_prim. Qed.

Lemma deps_writeGroupsSnapshot_store g b a j :
  keeps store_same (deps_writeGroupsSnapshot g b a j).
Proof. keeps_prim. Qed.

Lemma dynamic_import_fs : keeps fs_same (dynamic_import env).
Proof. unfold dynamic_import. keeps_prim. Qed.

Lemma dynamic_import_store : keeps store_same (dynamic_import env).
Proof. unfold dynamic_import. keeps_prim. Qed.

Lemma google_call_fs m d : keeps fs_same (google_call env m d).
Proof. unfold google_call. keeps_prim. Qed.

Lemma google_call_store m d : keeps store_same (google_call env m d).
Proof. unfold google_call. keeps_prim. Qed.

#[local] Hint Resolve log_fs log_store Date_now_fs Date_now_store random36_fs
  Date_toISOString_fs createTask_fs getTaskById_fs updateTask_fs deleteTask_fs
  deps_registeredGroups_fs deps_registeredGroups_store deps_registerGroup_fs
  deps_sendMessage_fs deps_syncGroupMetadata_fs deps_syncGroupMetadata_store
  deps_getAvailableGroups_fs deps_getAvailableGroups_store
  deps_writeGroupsSnapshot_fs deps_writeGroupsSnapshot_store
  dynamic_import_fs dynamic_import_store google_call_fs google_call_store : keeps.

(** No action handler touches the Task Store, the registry or the outbound
    messages, and none touches the mailboxes. *)
Lemma action_handlers_keep R `{!Reflexive R} `{!Transitive R} :
  (forall l msg, keeps R (log l msg)) ->
  keeps R (dynamic_import env) ->
  (forall m d, keeps R (google_call env m d)) ->
  forall d sg,
    keeps R (processSendGmail env d sg) /\
    keeps R (processListCalendarEvents env d sg) /\
    keeps R (processGetCalendarEvent env d sg) /\
    keeps R (processCreateCalendarEvent env d sg) /\
    keeps R (processUpdateCalendarEvent env d sg) /\
    keeps R (processDeleteCalendarEvent env d sg).
Proof.
  intros Hlog Himp Hcall d sg.
  assert (Hclient : keeps R (load_client env)).
  { intros w. unfold load_client. destruct (client_fails env); simpl; reflexivity. }
  unfold processSendGmail, processListCalendarEvents, processGetCalendarEvent,
    processCreateCalendarEvent, processUpdateCalendarEvent,
    processDeleteCalendarEvent.
  repeat split; keeps_struct.
Qed.

Lemma processTaskIpc_fs d sg isMain : keeps fs_same (processTaskIpc env d sg isMain).
Proof.
  destruct (action_handlers_keep fs_same log_fs dynamic_import_fs google_call_fs d sg)
    as (H1 & H2 & H3 & H4 & H5 & H6).
  unfold processTaskIpc, processScheduleTask, scheduleNextRun, processPauseTask,
    processResumeTask, processCancelTask, processRefreshGroups,
    processRegisterGroup.
  keeps_struct.
Qed.

End Frames.

(** * Association lists and the mailbox file system *)

Lemma is_lit_true o lit : is_lit o lit = true <-> o = Some lit.
Proof.
  destruct o as [s|]; simpl; [|split; discriminate].
  rewrite String.eqb_eq. split; congruence.
Qed.

Lemma nonempty_Some o s : nonempty o = Some s <-> o = Some s /\ s <> "".
Proof.
  destruct o as [t|]; simpl.
  - destruct (String.eqb_spec t ""); split.
    + discriminate.
    + intros [[= ->] Hne]. contradiction.
    + intros [= ->]. auto.
    + intros [[= ->] _]. reflexivity.
  - split; [discriminate | intros [? _]; discriminate].
Qed.

Lemma alist_lookup_remove {A} k (l : list (string * A)) :
  alist_lookup k (alist_remove k l) = None.
Proof.
  induction l as [|[k' v] r IH]; simpl; [reflexivity|].
  destruct (String.eqb k' k) eqn:E; simpl; [exact IH|].
  rewrite E. exact IH.
Qed.

Lemma alist_lookup_remove_ne {A} k k' (l : list (string * A)) :
  k <> k' -> alist_lookup k' (alist_remove k l) = alist_lookup k' l.
Proof.
  intros Hne. induction l as [|[k0 v] r IH]; simpl; [reflexivity|].
  destruct (String.eqb_spec k0 k) as [->|Hk].
  - destruct (String.eqb_spec k k'); [contradiction | exact IH].
  - simpl. rewrite IH. reflexivity.
Qed.

Lemma alist_lookup_alter {A} (f : A -> A) k (l : list (string * A)) :
  alist_lookup k (alist_alter f k l) = f <$> alist_lookup k l.
Proof.
  induction l as [|[k' v] r IH]; simpl; [reflexivity|].
  destruct (String.eqb k' k) eqn:E; simpl; rewrite E; [reflexivity | exact IH].
Qed.

Lemma alist_lookup_alter_ne {A} (f : A -> A) k k' (l : list (string * A)) :
  k <> k' -> alist_lookup k' (alist_alter f k l) = alist_lookup k' l.
Proof.
  intros Hne. induction l as [|[k0 v] r IH]; simpl; [reflexivity|].
  destruct (String.eqb_spec k0 k) as [->|Hk]; simpl.
  - destruct (String.eqb_spec k k'); [contradiction | reflexivity].
  - rewrite IH. reflexivity.
Qed.

Lemma chan_files_set_chan ch fs mb : chan_files ch (set_chan ch fs mb) = fs.
Proof. destruct ch; reflexivity. Qed.

Lemma find_file_mailboxes g ch f w w' :
  mailboxes w' = mailboxes w -> find_file g ch f w' = find_file g ch f w.
Proof. unfold find_file. intros ->. reflexivity. Qed.

(** Once removed, the file is gone. *)
Lemma find_file_removed g ch f w w' :
  mailboxes w' = remove_file g ch f (mailboxes w) -> find_file g ch f w' = None.
Proof.
  unfold find_file, remove_file. intros ->.
  rewrite alist_lookup_alter.
  destruct (alist_lookup g (mailboxes w)) as [mb|]; simpl; [|reflexivity].
  rewrite chan_files_set_chan.
  destruct (chan_files ch mb) as [fs|]; simpl; [|reflexivity].
  apply alist_lookup_remove.
Qed.

(** * Disposal of one request file *)

(** The try/catch around one file, for any processing [work] that leaves
    the mailboxes alone: the file is unlinked when [work] returns and moved
    to the errors directory when it throws; nothing escapes. *)
Lemma disposal_pattern ch sg file msg (work : FileContent -> M unit) c w :
  find_file sg ch file w = Some c ->
  keeps fs_same (work c) ->
  let inner := work c w in
  let o := try_catch
             (do content <- readFileSync sg ch file ;
              do _ <- work content ;
              unlinkSync sg ch file)
             (fun err =>
                do _ <- log LError msg ;
                do _ <- mkdirSync "errors" ;
                renameSync sg ch file (sg +:+ "-" +:+ file)) w in
  threw o = false /\
  find_file sg ch file (final o) = None /\
  store_same (final inner) (final o) /\
  (if threw inner
   then fsLog (final o)
          = (fsLog w ++ [Mkdir "errors"; Rename sg ch file (sg +:+ "-" +:+ file)])%list
        /\ errorsDir (final o) = <[sg +:+ "-" +:+ file := c]> (errorsDir w)
        /\ logs (final o) = (logs (final inner) ++ [(LError, msg)])%list
   else fsLog (final o) = (fsLog w ++ [Unlink sg ch file])%list
        /\ errorsDir (final o) = errorsDir w
        /\ logs (final o) = logs (final inner)).
Proof.
  intros Hfile Hkeep inner o. subst inner o.
  specialize (Hkeep w). destruct Hkeep as (Hmb & Hed & Hlog).
  unfold try_catch, bind, readFileSync. rewrite Hfile.
  destruct (work c w) as [[] w1 | e w1]; simpl in *.
  - unfold unlinkSync.
    rewrite (find_file_mailboxes sg ch file w w1 Hmb), Hfile. simpl.
    rewrite Hed, Hlog, Hmb.
    repeat split; try reflexivity.
    eapply find_file_removed. simpl. rewrite Hmb. reflexivity.
  - unfold log, mkdirSync, renameSync. simpl.
    assert (Hf : find_file sg ch file
                   (set_fs (mailboxes w1) (errorsDir w1) [Mkdir "errors"]
                      (add_log (LError, msg) w1)) = Some c).
    { rewrite <- Hfile. apply find_file_mailboxes. simpl. exact Hmb. }
    rewrite Hf. simpl. rewrite Hed, Hlog, Hmb, <- app_assoc. simpl.
    repeat split; try reflexivity.
    eapply find_file_removed. simpl. rewrite Hmb. reflexivity.
Qed.

(** * Reading a count of milliseconds *)

Lemma string_cons_app a s t : String a s +:+ t = String a (s +:+ t).
Proof. reflexivity. Qed.

Lemma skip_ws_1 a r : is_ws a = true -> skip_ws (String a r) = skip_ws r.
Proof. intros H. simpl. rewrite H. reflexivity. Qed.

Lemma skip_ws_2 a b r :
  is_ws a = false -> is_ws2 a b = true ->
  skip_ws (String a (String b r)) = skip_ws r.
Proof. intros H1 H2. simpl. rewrite H1, H2. reflexivity. Qed.

Lemma skip_ws_3 a b c r :
  is_ws a = false -> is_ws2 a b = false -> is_ws3 a b c = true ->
  skip_ws (String a (String b (String c r))) = skip_ws r.
Proof. intros H1 H2 H3. simpl. rewrite H1, H2, H3. reflexivity. Qed.

(** Induction along [skip_ws]: a white-space character of one, two or three
    bytes is taken off, or the text is left as it is. *)
Lemma skip_ws_ind (P : string -> Prop) :
  (forall a r, is_ws a = true -> P r -> P (String a r)) ->
  (forall a b r, is_ws a = false -> is_ws2 a b = true -> P r ->
     P (String a (String b r))) ->
  (forall a b c r, is_ws a = false -> is_ws2 a b = false -> is_ws3 a b c = true ->
     P r -> P (String a (String b (String c r)))) ->
  (forall s, skip_ws s = s -> P s) ->
  forall s, P s.
Proof.
  intros H1 H2 H3 H0 s.
  remember (String.length s) as n eqn:Hn. revert s Hn.
  induction n as [n IH] using lt_wf_ind. intros s Hn.
  destruct s as [|a r]; [apply H0; reflexivity|].
  destruct (is_ws a) eqn:E1.
  { apply H1; [exact E1|]. apply (IH (String.length r)); [subst n; simpl; lia | reflexivity]. }
  destruct r as [|b r]; [apply H0; simpl; rewrite E1; reflexivity|].
  destruct (is_ws2 a b) eqn:E2.
  { apply H2; try assumption.
    apply (IH (String.length r)); [subst n; simpl; lia | reflexivity]. }
  destruct r as [|c r]; [apply H0; simpl; rewrite E1, E2; reflexivity|].
  destruct (is_ws3 a b c) eqn:E3.
  { apply H3; try assumption.
    apply (IH (String.length r)); [subst n; simpl; lia | reflexivity]. }
  apply H0. simpl. rewrite E1, E2, E3. reflexivity.
Qed.

Lemma skip_ws_app ws t : skip_ws ws = "" -> skip_ws (ws +:+ t) = skip_ws t.
Proof.
  induction ws as [a r E1 IH|a b r E1 E2 IH|a b c r E1 E2 E3 IH|s Hs] using skip_ws_ind.
  - rewrite skip_ws_1 by exact E1. intros H.
    rewrite string_cons_app, skip_ws_1 by exact E1. apply IH, H.
  - rewrite skip_ws_2 by assumption. intros H.
    rewrite !string_cons_app, skip_ws_2 by assumption. apply IH, H.
  - rewrite skip_ws_3 by assumption. intros H.
    rewrite !string_cons_app, skip_ws_3 by assumption. apply IH, H.
  - rewrite Hs. intros ->. reflexivity.
Qed.

Lemma skip_ws_split s : exists ws, s = ws +:+ skip_ws s /\ skip_ws ws = "".
Proof.
  induction s as [a r E1 [ws [Hr Hw]]|a b r E1 E2 [ws [Hr Hw]]
                  |a b c r E1 E2 E3 [ws [Hr Hw]]|s Hs] using skip_ws_ind.
  - exists (String a ws). rewrite !skip_ws_1 by exact E1.
    rewrite string_cons_app, <- Hr. auto.
  - exists (String a (String b ws)). rewrite !skip_ws_2 by assumption.
    rewrite !string_cons_app, <- Hr. auto.
  - exists (String a (String b (String c ws))). rewrite !skip_ws_3 by assumption.
    rewrite !string_cons_app, <- Hr. auto.
  - exists "". rewrite Hs. auto.
Qed.

(** A character of one byte that is no white space stays where it is. *)
Lemma skip_ws_plain a r :
  (N_of_ascii a < 128)%N -> is_ws a = false -> skip_ws (String a r) = String a r.
Proof.
  intros Ha Hw. simpl. rewrite Hw.
  assert (H2 : forall b, is_ws2 a b = false).
  { intros b. unfold is_ws2.
    assert (N.eqb (N_of_ascii a) 194 = false) as -> by (apply N.eqb_neq; lia).
    reflexivity. }
  assert (H3 : forall b c, is_ws3 a b c = false).
  { intros b c. unfold is_ws3. cbv zeta.
    assert (N.eqb (N_of_ascii a) 225 = false) as -> by (apply N.eqb_neq; lia).
    assert (N.eqb (N_of_ascii a) 226 = false) as -> by (apply N.eqb_neq; lia).
    assert (N.eqb (N_of_ascii a) 227 = false) as -> by (apply N.eqb_neq; lia).
    assert (N.eqb (N_of_ascii a) 239 = false) as -> by (apply N.eqb_neq; lia).
    reflexivity. }
  destruct r as [|b r]; [reflexivity|]. rewrite H2.
  destruct r as [|c r]; [reflexivity|]. rewrite H3. reflexivity.
Qed.

Lemma digit_of_Some a d :
  digit_of a = Some d -> (48 <= N_of_ascii a <= 57)%N.
Proof.
  unfold digit_of. cbv zeta.
  destruct (N.leb 48 (N_of_ascii a) && N.leb (N_of_ascii a) 57)%bool eqn:E;
    [|discriminate].
  apply andb_true_iff in E as [E1 E2].
  apply N.leb_le in E1. apply N.leb_le in E2. intros _. lia.
Qed.

Lemma skip_ws_digit a r d : digit_of a = Some d -> skip_ws (String a r) = String a r.
Proof.
  intros Hd. apply digit_of_Some in Hd. apply skip_ws_plain; [lia|].
  unfold is_ws. cbv zeta.
  assert (N.eqb (N_of_ascii a) 9 = false) as -> by (apply N.eqb_neq; lia).
  assert (N.eqb (N_of_ascii a) 10 = false) as -> by (apply N.eqb_neq; lia).
  assert (N.eqb (N_of_ascii a) 11 = false) as -> by (apply N.eqb_neq; lia).
  assert (N.eqb (N_of_ascii a) 12 = false) as -> by (apply N.eqb_neq; lia).
  assert (N.eqb (N_of_ascii a) 13 = false) as -> by (apply N.eqb_neq; lia).
  assert (N.eqb (N_of_ascii a) 32 = false) as -> by (apply N.eqb_neq; lia).
  reflexivity.
Qed.

(** The digit run at the head of a text. *)
Lemma digits_prefix_app digits rest acc :
  all_digits digits = true -> starts_with_digit rest = false ->
  digits_prefix (digits +:+ rest) acc
  = if String.eqb digits "" then acc
    else Some (decimal_from (default 0 acc) digits).
Proof.
  revert acc. induction digits as [|a ds IH]; intros acc Hd Hr.
  - change ("" +:+ rest) with rest. simpl.
    destruct rest as [|b r]; [reflexivity|]. simpl in *.
    destruct (digit_of b); [discriminate | reflexivity].
  - rewrite string_cons_app. simpl in *.
    destruct (digit_of a) as [d|]; [|discriminate].
    rewrite (IH _ Hd Hr). simpl.
    destruct ds; reflexivity.
Qed.

Lemma digits_prefix_split t :
  exists digits rest,
    t = digits +:+ rest /\ all_digits digits = true /\
    starts_with_digit rest = false.
Proof.
  induction t as [|a r (ds & rest & Hr & Hd & Hs)].
  - exists "", "". auto.
  - destruct (digit_of a) as [d|] eqn:E.
    + exists (String a ds), rest. rewrite string_cons_app, <- Hr. simpl. rewrite E. auto.
    + exists "", (String a r). simpl. rewrite E. auto.
Qed.

(** The three ways [parseInt10] goes on after the white space. *)
Lemma parseInt10_cases s :
  (exists r, skip_ws s = String "-" r /\ parseInt10 s = Z.opp <$> digits_prefix r None)
  \/ (exists r, skip_ws s = String "+" r /\ parseInt10 s = digits_prefix r None)
  \/ ((forall r, skip_ws s <> String "-" r) /\ (forall r, skip_ws s <> String "+" r) /\
      parseInt10 s = digits_prefix (skip_ws s) None).
Proof.
  unfold parseInt10. destruct (skip_ws s) as [|a r].
  - right. right. repeat split; intros; discriminate.
  - destruct (Ascii.eqb_spec a "-") as [->|Hm]; [left; eauto|].
    destruct (Ascii.eqb_spec a "+") as [->|Hp]; [right; left; eauto|].
    right. right. split; [intros r' [= ? _]; contradiction|].
    split; [intros r' [= ? _]; contradiction|].
    destruct a as [[] [] [] [] [] [] [] []]; try reflexivity; contradiction.
Qed.

Lemma reads_as_sound sv n : reads_as sv n -> parseInt10 sv = Some n.
Proof.
  intros (ws & sign & digits & rest & -> & Hws & Hsign & Hne & Hd & Hr & ->).
  assert (Hrun : digits_prefix (digits +:+ rest) None = Some (decimal digits)).
  { rewrite (digits_prefix_app digits rest None Hd Hr).
    destruct digits; [contradiction | reflexivity]. }
  destruct digits as [|a ds]; [contradiction|].
  simpl in Hd. destruct (digit_of a) as [d|] eqn:Ea; [|discriminate].
  destruct Hsign as [->|[->| ->]].
  - change ("" +:+ String a ds +:+ rest) with (String a (ds +:+ rest)).
    destruct (parseInt10_cases (ws +:+ String a (ds +:+ rest)))
      as [(r & Hs & _)|[(r & Hs & _)|(_ & _ & ->)]];
      rewrite (skip_ws_app ws _ Hws), (skip_ws_digit a _ d Ea) in *.
    + injection Hs as -> _. discriminate Ea.
    + injection Hs as -> _. discriminate Ea.
    + exact Hrun.
  - change ("+" +:+ String a ds +:+ rest) with (String "+" (String a ds +:+ rest)).
    destruct (parseInt10_cases (ws +:+ String "+" (String a ds +:+ rest)))
      as [(r & Hs & He)|[(r & Hs & He)|(_ & Hn & _)]];
      rewrite (skip_ws_app ws _ Hws), skip_ws_plain in * by (vm_compute; reflexivity).
    + discriminate Hs.
    + injection Hs as <-. rewrite He. exact Hrun.
    + exfalso. eapply Hn. reflexivity.
  - change ("-" +:+ String a ds +:+ rest) with (String "-" (String a ds +:+ rest)).
    destruct (parseInt10_cases (ws +:+ String "-" (String a ds +:+ rest)))
      as [(r & Hs & He)|[(r & Hs & He)|(Hn & _ & _)]];
      rewrite (skip_ws_app ws _ Hws), skip_ws_plain in * by (vm_compute; reflexivity).
    + injection Hs as <-. rewrite He, Hrun. reflexivity.
    + discriminate Hs.
    + exfalso. eapply Hn. reflexivity.
Qed.

Lemma reads_as_complete sv n : parseInt10 sv = Some n -> reads_as sv n.
Proof.
  intros Hp. destruct (skip_ws_split sv) as (ws & Hsv & Hws).
  assert (Hrun : forall r v, digits_prefix r None = Some v ->
            exists digits rest, r = digits +:+ rest /\ digits <> "" /\
              all_digits digits = true /\ starts_with_digit rest = false /\
              v = decimal digits).
  { intros r v Hv. destruct (digits_prefix_split r) as (ds & rest & -> & Hd & Hr).
    rewrite (digits_prefix_app ds rest None Hd Hr) in Hv.
    destruct ds as [|a ds]; [discriminate Hv|]. injection Hv as <-.
    exists (String a ds), rest. repeat split; auto; discriminate. }
  destruct (parseInt10_cases sv) as [(r & Hs & He)|[(r & Hs & He)|(_ & _ & He)]];
    rewrite Hp in He.
  - destruct (digits_prefix r None) as [v|] eqn:Hv; [|discriminate He].
    injection He as ->.
    destruct (Hrun r v Hv) as (ds & rest & -> & Hne & Hd & Hr & ->).
    exists ws, "-", ds, rest. rewrite Hs in Hsv. repeat split; auto.
  - symmetry in He.
    destruct (Hrun r n He) as (ds & rest & -> & Hne & Hd & Hr & ->).
    exists ws, "+", ds, rest. rewrite Hs in Hsv. repeat split; auto.
  - symmetry in He.
    destruct (Hrun _ n He) as (ds & rest & Ht & Hne & Hd & Hr & ->).
    exists ws, "", ds, rest. rewrite Ht in Hsv. repeat split; auto.
Qed.

(** [parseInt(s, 10)] gives exactly the reading. *)
Lemma parseInt10_reads sv n : parseInt10 sv = Some n <-> reads_as sv n.
Proof. split; [apply reads_as_complete | apply reads_as_sound]. Qed.

(** * The task request processor *)

(** Unfolds the monad and splits on every test met on the way. *)
Ltac run_handler :=
  cbv [try_catch bind ret throw log];
  repeat (case_match; simplify_eq /=; try congruence);
  auto.

Section Handlers.

Variable MAIN_GROUP_FOLDER : string.
Variable ASSISTANT_NAME : string.
Variable env : Env.

(** Every action handler returns normally: what its body throws is caught
    and logged. *)
Lemma action_handlers_return d sg w :
  threw (processSendGmail env d sg w) = false /\
  threw (processListCalendarEvents env d sg w) = false /\
  threw (processGetCalendarEvent env d sg w) = false /\
  threw (processCreateCalendarEvent env d sg w) = false /\
  threw (processUpdateCalendarEvent env d sg w) = false /\
  threw (processDeleteCalendarEvent env d sg w) = false.
Proof.
  unfold processSendGmail, processListCalendarEvents, processGetCalendarEvent,
    processCreateCalendarEvent, processUpdateCalendarEvent,
    processDeleteCalendarEvent, dynamic_import, google_call.
  repeat split; run_handler.
Qed.

(** The type of a request on which [processTaskIpc] runs an action handler. *)
Lemma is_action_type_cases ty :
  is_action_type ty = true ->
  ty = Some "send_gmail" \/ ty = Some "list_calendar_events" \/
  ty = Some "get_calendar_event" \/ ty = Some "create_calendar_event" \/
  ty = Some "update_calendar_event" \/ ty = Some "delete_calendar_event".
Proof.
  unfold is_action_type. rewrite !orb_true_iff, !is_lit_true. tauto.
Qed.

Lemma processTaskIpc_action d sg isMain w :
  is_action_type (p_type d) = true ->
  threw (processTaskIpc env d sg isMain w) = false /\
  store_same w (final (processTaskIpc env d sg isMain w)).
Proof.
  intros Hty.
  destruct (action_handlers_return d sg w) as (T1 & T2 & T3 & T4 & T5 & T6).
  destruct (action_handlers_keep env store_same (log_store) (dynamic_import_store env)
              (google_call_store env) d sg) as (K1 & K2 & K3 & K4 & K5 & K6).
  unfold processTaskIpc, bind, deps_registeredGroups.
  destruct (is_action_type_cases _ Hty) as [E|[E|[E|[E|[E|E]]]]];
    rewrite E; simpl; auto.
Qed.


End Handlers.

Section Claims.

Variable MAIN_GROUP_FOLDER : string.
Variable ASSISTANT_NAME : string.
Variable env : Env.

Lemma mayControl_true task sg isMain :
  mayControl task sg isMain = true <->
  exists t, task = Some t /\ (isMain = true \/ t_group_folder t = sg).
Proof.
  destruct task as [t|]; simpl.
  - rewrite orb_true_iff, String.eqb_eq. split.
    + intros H. exists t. auto.
    + intros (t' & [= <-] & H). exact H.
  - split; [discriminate | intros (t & ? & _); discriminate].
Qed.

(** C4. A pause_task, resume_task or cancel_task request that carries a
    taskId changes the Task Store exactly when a task with that id is stored
    and the requester is main or the task's group_folder is the requester's
    directory: then the status becomes paused or active, or the record is
    deleted. Otherwise, a missing id included, the call returns normally
    and the Task Store is unchanged. The registry is never touched. Stored
    tasks carry generated, non-empty ids. *)
Theorem control_op_iff_owner_or_main (op : ControlOp) (d : Payload)
  (sg : string) (isMain : bool) (taskId : string) (w : World) :
  p_type d = Some (op_type op) ->
  p_taskId d = Some taskId ->
  tasks w !! "" = None ->
  let o := processTaskIpc env d sg isMain w in
  let authorized :=
    exists t, tasks w !! taskId = Some t /\ (isMain = true \/ t_group_folder t = sg) in
  threw o = false /\
  groups (final o) = groups w /\
  fs_same w (final o) /\
  exists new, logs (final o) = (logs w ++ new)%list /\
    ((authorized /\ tasks (final o) = op_effect op taskId (tasks w)
      /\ new = [(LInfo, op_done op)])
     \/
     (~ authorized /\ tasks (final o) = tasks w /\ (LInfo, op_done op) ∉ new)).
Proof.
  intros Hty Hid Hinv o authorized. subst o authorized.
  split; [|split; [|split; [apply processTaskIpc_fs|]]].
  1-2: unfold processTaskIpc, bind, deps_registeredGroups; rewrite Hty;
       destruct op; simpl;
       unfold processPauseTask, processResumeTask, processCancelTask, getTaskById,
         updateTask, deleteTask; run_handler.
  unfold processTaskIpc, bind, deps_registeredGroups. rewrite Hty.
  pose proof (mayControl_true (tasks w !! taskId) sg isMain) as Hmc.
  destruct op; simpl;
    unfold processPauseTask, processResumeTask, processCancelTask; rewrite Hid;
    simpl; (destruct (String.eqb_spec taskId "") as [->|Hne];
    [ exists []; split; [simpl; rewrite app_nil_r; reflexivity|];
      right; rewrite Hinv; split; [intros (t & ? & _); discriminate|];
      split; [reflexivity | apply not_elem_of_nil]
    | unfold bind, getTaskById, updateTask, deleteTask, log;
      destruct (mayControl (tasks w !! taskId) sg isMain) eqn:E; simpl;
      [ eexists; split; [reflexivity|]; left; split; [apply Hmc; reflexivity|];
        split; reflexivity
      | eexists; split; [reflexivity|]; right;
        split; [intros Ha; apply Hmc in Ha; discriminate|];
        split; [reflexivity|];
        rewrite list_elem_of_singleton; discriminate ] ]).
Qed.

(** The world after [createTask] of a task with next run [nextRun], started
    in [w1]: two clock readings and one random draw are consumed. *)
Lemma schedule_task_authorized d sg isMain w prompt st sv tj g :
  p_type d = Some "schedule_task" ->
  nonempty (p_prompt d) = Some prompt ->
  nonempty (p_schedule_type d) = Some st ->
  nonempty (p_schedule_value d) = Some sv ->
  nonempty (p_targetJid d) = Some tj ->
  groups w !! tj = Some g ->
  isMain = true \/ g_folder g = sg ->
  processTaskIpc env d sg isMain w =
  match scheduleNextRun env st sv w with
  | Ok None w1 => Ok tt w1
  | Ok (Some nextRun) w1 =>
      Ok tt (add_log (LInfo, "Task created via IPC")
               (set_tasks
                  (insert (newTaskId env w1)
                     (mkTask (newTaskId env w1) (g_folder g) tj prompt st sv
                        (contextModeOf (p_context_mode d)) nextRun StActive
                        (toISOString env (clock env (S (ticks w1))))))
                  (tick (draw (tick w1)))))
  | Throw e w1 => Throw e w1
  end.
Proof.
  intros Hty Hp Hst Hsv Htj Hg Hauth.
  unfold processTaskIpc, bind, deps_registeredGroups. rewrite Hty. simpl.
  unfold processScheduleTask. rewrite Hp, Hst, Hsv, Htj, Hg.
  assert (Hgate : (negb isMain && negb (String.eqb (g_folder g) sg))%bool = false).
  { destruct Hauth as [-> | <-]; [reflexivity|].
    rewrite String.eqb_refl. apply andb_false_r. }
  rewrite Hgate. unfold bind.
  destruct (scheduleNextRun env st sv w) as [[nr|] w1 | e w1]; reflexivity.
Qed.

(** A schedule_task request that names no registered group, or a group of
    another tenant while the requester is not main, or lacks a field, changes
    nothing but the log and returns normally. *)
Lemma schedule_task_denied d sg isMain w :
  p_type d = Some "schedule_task" ->
  (nonempty (p_prompt d) = None \/ nonempty (p_schedule_type d) = None \/
   nonempty (p_schedule_value d) = None \/ nonempty (p_targetJid d) = None \/
   exists tj, nonempty (p_targetJid d) = Some tj /\
     match groups w !! tj with
     | Some g => isMain = false /\ g_folder g <> sg
     | None => True
     end) ->
  threw (processTaskIpc env d sg isMain w) = false /\
  store_same w (final (processTaskIpc env d sg isMain w)).
Proof.
  intros Hty Hden.
  unfold processTaskIpc, bind, deps_registeredGroups. rewrite Hty. simpl.
  unfold processScheduleTask, store_same.
  destruct (nonempty (p_prompt d)) as [prompt|]; [|split; auto].
  destruct (nonempty (p_schedule_type d)) as [st|]; [|split; auto].
  destruct (nonempty (p_schedule_value d)) as [sv|]; [|split; auto].
  destruct (nonempty (p_targetJid d)) as [tj|]; [|split; auto].
  destruct Hden as [H|[H|[H|[H|(tj' & [= <-] & H)]]]]; try discriminate.
  destruct (groups w !! tj) as [g|]; [|split; auto].
  destruct H as [-> Hne]. apply String.eqb_neq in Hne. rewrite Hne. simpl.
  split; auto.
Qed.

(** A schedule_task request is either dropped by the checks that precede
    the schedule computation, or it is complete and authorized. *)
Lemma schedule_task_cases d sg isMain w :
  (nonempty (p_prompt d) = None \/ nonempty (p_schedule_type d) = None \/
   nonempty (p_schedule_value d) = None \/ nonempty (p_targetJid d) = None \/
   exists tj, nonempty (p_targetJid d) = Some tj /\
     match groups w !! tj with
     | Some g => isMain = false /\ g_folder g <> sg
     | None => True
     end)
  \/
  (exists prompt st sv tj g,
     nonempty (p_prompt d) = Some prompt /\
     nonempty (p_schedule_type d) = Some st /\
     nonempty (p_schedule_value d) = Some sv /\
     nonempty (p_targetJid d) = Some tj /\
     groups w !! tj = Some g /\
     (isMain = true \/ g_folder g = sg)).
Proof.
  destruct (nonempty (p_prompt d)) as [prompt|]; [|auto].
  destruct (nonempty (p_schedule_type d)) as [st|]; [|auto].
  destruct (nonempty (p_schedule_value d)) as [sv|]; [|auto].
  destruct (nonempty (p_targetJid d)) as [tj|]; [|auto 6].
  destruct (groups w !! tj) as [g|] eqn:Hg.
  - destruct isMain.
    + right. exists prompt, st, sv, tj, g. auto 10.
    + destruct (String.eqb_spec (g_folder g) sg) as [Heq|Hne].
      * right. exists prompt, st, sv, tj, g. auto 10.
      * left. do 4 right. exists tj. rewrite Hg. auto.
  - left. do 4 right. exists tj. rewrite Hg. auto.
Qed.

(** C5, as the code has it. For schedule_type interval the schedule_value is
    read by [parseInt(value, 10)], and that reading is: leading white space
    is skipped, an optional sign is read, and the longest run of decimal
    digits that follows, which must not be empty, writes the count of
    milliseconds, negated under a minus sign; what comes after the digits
    is ignored. When the value has no such reading, or the count is not
    positive, no Task is created and the call returns normally. When the
    count is positive and now plus the count is a time value a Date can
    hold, a complete and authorized request creates a Task whose next_run
    is the instant now plus that many milliseconds. *)
Theorem interval_next_run_by_parseInt (d : Payload) (sg : string)
  (isMain : bool) (sv : string) (w : World) :
  p_type d = Some "schedule_task" ->
  p_schedule_type d = Some "interval" ->
  p_schedule_value d = Some sv ->
  let o := processTaskIpc env d sg isMain w in
  let now := clock env (ticks w) in
  (forall n, parseInt10 sv = Some n <-> reads_as sv n)
  /\
  (((forall n, ~ reads_as sv n) \/ exists n, reads_as sv n /\ n <= 0) ->
   threw o = false /\ store_same w (final o))
  /\
  (forall n prompt tj g,
     reads_as sv n -> 0 < n -> Z.abs (now + n) <= MAX_TIME ->
     nonempty (p_prompt d) = Some prompt ->
     nonempty (p_targetJid d) = Some tj ->
     groups w !! tj = Some g ->
     isMain = true \/ g_folder g = sg ->
     threw o = false /\
     exists t,
       tasks (final o) = <[newTaskId env (tick w) := t]> (tasks w) /\
       t_next_run t = Some (toISOString env (now + n)) /\
       t_schedule_type t = "interval" /\ t_schedule_value t = sv).
Proof.
  intros Hty Hst Hsv o now. subst o now.
  split; [intros n; apply parseInt10_reads|]. split.
  - intros Hread.
    assert (Hbad : parseInt10 sv = None \/ exists ms, parseInt10 sv = Some ms /\ ms <= 0).
    { destruct Hread as [Hno | (n & Hn & Hle)].
      - left. destruct (parseInt10 sv) as [n|] eqn:E; [|reflexivity].
        exfalso. apply (Hno n), parseInt10_reads, E.
      - right. exists n. split; [apply parseInt10_reads, Hn | exact Hle]. }
    destruct (schedule_task_cases d sg isMain w)
      as [Hden | (prompt & st' & sv' & tj & g & Hp & Hst' & Hsv' & Htj & Hg & Hauth)].
    + apply schedule_task_denied; assumption.
    + rewrite (schedule_task_authorized d sg isMain w prompt st' sv' tj g)
        by assumption.
      apply nonempty_Some in Hst' as [Hst' _]. apply nonempty_Some in Hsv' as [Hsv' _].
      assert (st' = "interval") as -> by congruence.
      assert (sv' = sv) as -> by congruence.
      unfold scheduleNextRun. simpl. unfold store_same.
      destruct Hbad as [-> | (ms & -> & Hle)].
      * simpl. auto.
      * apply Z.leb_le in Hle. rewrite Hle. simpl. auto.
  - intros ms prompt tj g Hread Hpos Hrange Hp Htj Hg Hauth.
    assert (Hpi : parseInt10 sv = Some ms) by (apply parseInt10_reads, Hread).
    assert (Hsv' : nonempty (p_schedule_value d) = Some sv).
    { apply nonempty_Some. split; [assumption|]. intros ->. discriminate. }
    assert (Hst' : nonempty (p_schedule_type d) = Some "interval").
    { apply nonempty_Some. split; [assumption | discriminate]. }
    rewrite (schedule_task_authorized d sg isMain w prompt "interval" sv tj g)
      by assumption.
    unfold scheduleNextRun. simpl. rewrite Hpi.
    assert (Hpos' : (ms <=? 0)%Z = false) by (apply Z.leb_gt; lia).
    rewrite Hpos'. unfold bind, Date_now, Date_toISOString.
    apply Z.leb_le in Hrange. rewrite Hrange. simpl.
    split; [reflexivity|]. eexists. split; [reflexivity|]. simpl. auto.
Qed.

Lemma scheduleNextRun_store st sv : keeps store_same (scheduleNextRun env st sv).
Proof.
  intros w. unfold scheduleNextRun, store_same, Date_now, Date_toISOString.
  run_handler; repeat split; reflexivity.
Qed.

(** C6. For schedule_type once, a schedule_value that parses as a timestamp
    gives a Task whose next_run is that very instant, whether it lies before
    or after the current clock reading; a value that does not parse creates
    no Task. For schedule_type cron, an expression the parser refuses creates
    no Task. In both refusals the call returns normally. *)
Theorem once_verbatim_and_cron_rejection (d : Payload) (sg : string)
  (isMain : bool) (sv : string) (w : World) :
  p_type d = Some "schedule_task" ->
  p_schedule_value d = Some sv ->
  let o := processTaskIpc env d sg isMain w in
  (p_schedule_type d = Some "once" ->
   (Date_parse env sv = None -> threw o = false /\ store_same w (final o))
   /\
   (forall t prompt tj g,
      Date_parse env sv = Some t -> sv <> "" ->
      nonempty (p_prompt d) = Some prompt ->
      nonempty (p_targetJid d) = Some tj ->
      groups w !! tj = Some g ->
      isMain = true \/ g_folder g = sg ->
      threw o = false /\
      exists task,
        tasks (final o) = <[newTaskId env w := task]> (tasks w) /\
        t_next_run task = Some (toISOString env t) /\
        t_schedule_type task = "once" /\ t_schedule_value task = sv))
  /\
  (p_schedule_type d = Some "cron" ->
   cron_next env sv (clock env (ticks w)) = None ->
   threw o = false /\ store_same w (final o)).
Proof.
  intros Hty Hsv o. subst o. split.
  - intros Hst. split.
    + intros Hbad.
      destruct (schedule_task_cases d sg isMain w)
        as [Hden | (prompt & st' & sv' & tj & g & Hp & Hst' & Hsv' & Htj & Hg & Hauth)].
      * apply schedule_task_denied; assumption.
      * rewrite (schedule_task_authorized d sg isMain w prompt st' sv' tj g)
          by assumption.
        apply nonempty_Some in Hst' as [Hst' _].
        apply nonempty_Some in Hsv' as [Hsv' _].
        assert (st' = "once") as -> by congruence.
        assert (sv' = sv) as -> by congruence.
        unfold scheduleNextRun, store_same. simpl. rewrite Hbad. simpl. auto.
    + intros t prompt tj g Hdp Hne Hp Htj Hg Hauth.
      assert (Hsv' : nonempty (p_schedule_value d) = Some sv)
        by (apply nonempty_Some; auto).
      assert (Hst' : nonempty (p_schedule_type d) = Some "once")
        by (apply nonempty_Some; split; [assumption | discriminate]).
      rewrite (schedule_task_authorized d sg isMain w prompt "once" sv tj g)
        by assumption.
      unfold scheduleNextRun. simpl. rewrite Hdp. simpl.
      split; [reflexivity|]. eexists. split; [reflexivity|]. simpl. auto.
  - intros Hst Hbad.
    destruct (schedule_task_cases d sg isMain w)
      as [Hden | (prompt & st' & sv' & tj & g & Hp & Hst' & Hsv' & Htj & Hg & Hauth)].
    + apply schedule_task_denied; assumption.
    + rewrite (schedule_task_authorized d sg isMain w prompt st' sv' tj g)
        by assumption.
      apply nonempty_Some in Hst' as [Hst' _].
      apply nonempty_Some in Hsv' as [Hsv' _].
      assert (st' = "cron") as -> by congruence.
      assert (sv' = sv) as -> by congruence.
      unfold scheduleNextRun, store_same, bind, Date_now. simpl.
      rewrite Hbad. simpl. auto.
Qed.

Lemma contextModeOf_cases o :
  (o = Some "group" -> contextModeOf o = CtxGroup) /\
  (o <> Some "group" -> contextModeOf o = CtxIsolated).
Proof.
  unfold contextModeOf. split.
  - intros ->. reflexivity.
  - intros Hne. destruct (is_lit o "group") eqn:E.
    + apply is_lit_true in E. contradiction.
    + destruct (is_lit o "isolated"); reflexivity.
Qed.

(** C8. A complete and authorized schedule_task request whose target jid is
    registered and whose schedule yields a next-run instant creates a Task
    with group_folder the folder of the registered target (whoever asks),
    chat_jid the targetJid, status active and the computed next_run; its
    context_mode is group when the request says group and isolated in every
    other case: isolated, absent or anything else. Conversely, whenever a
    schedule_task request changes the Task Store, it adds one Task with
    these fields, for a registered target the requester may use. *)
Theorem created_task_fields (d : Payload) (sg : string) (isMain : bool)
  (w : World) :
  p_type d = Some "schedule_task" ->
  let o := processTaskIpc env d sg isMain w in
  (forall prompt st sv tj nextRun g w1,
     nonempty (p_prompt d) = Some prompt ->
     nonempty (p_schedule_type d) = Some st ->
     nonempty (p_schedule_value d) = Some sv ->
     nonempty (p_targetJid d) = Some tj ->
     groups w !! tj = Some g ->
     isMain = true \/ g_folder g = sg ->
     scheduleNextRun env st sv w = Ok (Some (Some nextRun)) w1 ->
     threw o = false /\
     groups (final o) = groups w /\
     exists t,
       tasks (final o) = <[newTaskId env w1 := t]> (tasks w) /\
       t_id t = newTaskId env w1 /\
       t_prompt t = prompt /\
       t_next_run t = Some nextRun /\
       task_fields_ok d tj g t)
  /\
  (tasks (final o) <> tasks w ->
   exists tj g t,
     nonempty (p_targetJid d) = Some tj /\
     groups w !! tj = Some g /\
     (isMain = true \/ g_folder g = sg) /\
     tasks (final o) = <[t_id t := t]> (tasks w) /\
     task_fields_ok d tj g t).
Proof.
  intros Hty o. subst o.
  destruct (contextModeOf_cases (p_context_mode d)) as [Hc1 Hc2].
  assert (Hc3 : p_context_mode d = Some "isolated" ->
                contextModeOf (p_context_mode d) = CtxIsolated).
  { intros E. apply Hc2. rewrite E. discriminate. }
  split.
  - intros prompt st sv tj nextRun g w1 Hp Hst Hsv Htj Hg Hauth Hrun.
    rewrite (schedule_task_authorized d sg isMain w prompt st sv tj g) by assumption.
    pose proof (scheduleNextRun_store st sv w) as (Ht & Hgr & _).
    rewrite Hrun in *. simpl in *.
    split; [reflexivity|]. split; [exact Hgr|].
    eexists. split; [rewrite Ht; reflexivity|]. unfold task_fields_ok. simpl.
    repeat split; auto.
  - intros Hchanged.
    destruct (schedule_task_cases d sg isMain w)
      as [Hden | (prompt & st & sv & tj & g & Hp & Hst & Hsv & Htj & Hg & Hauth)].
    + destruct (schedule_task_denied d sg isMain w Hty Hden) as (_ & Hsame & _).
      contradiction.
    + rewrite (schedule_task_authorized d sg isMain w prompt st sv tj g)
        in Hchanged |- * by assumption.
      pose proof (scheduleNextRun_store st sv w) as (Ht & _ & _).
      destruct (scheduleNextRun env st sv w) as [[nr|] w1 | e w1];
        simpl in Hchanged, Ht |- *; try contradiction.
      exists tj, g,
        (mkTask (newTaskId env w1) (g_folder g) tj prompt st sv
           (contextModeOf (p_context_mode d)) nr StActive
           (toISOString env (clock env (S (ticks w1))))).
      split; [assumption|]. split; [assumption|].
      split; [assumption|]. split; [rewrite Ht; reflexivity|].
      unfold task_fields_ok. simpl. repeat split; auto.
Qed.

(** C2 (divergence). A complete, authorized schedule_task request whose
    schedule_type is none of cron, interval and once passes every branch of
    the schedule computation untouched: a Task is created, and its next_run
    is null. *)
Theorem unknown_schedule_type_creates_task_without_next_run
  (d : Payload) (sg : string) (isMain : bool) (prompt st sv tj : string)
  (g : RegisteredGroup) (w : World) :
  p_type d = Some "schedule_task" ->
  nonempty (p_prompt d) = Some prompt ->
  nonempty (p_schedule_type d) = Some st ->
  nonempty (p_schedule_value d) = Some sv ->
  nonempty (p_targetJid d) = Some tj ->
  groups w !! tj = Some g ->
  isMain = true \/ g_folder g = sg ->
  st <> "cron" -> st <> "interval" -> st <> "once" ->
  let o := processTaskIpc env d sg isMain w in
  threw o = false /\
  exists t,
    tasks (final o) = <[newTaskId env w := t]> (tasks w) /\
    t_next_run t = None /\ t_schedule_type t = st /\ t_status t = StActive.
Proof.
  intros Hty Hp Hst Hsv Htj Hg Hauth H1 H2 H3 o. subst o.
  rewrite (schedule_task_authorized d sg isMain w prompt st sv tj g) by assumption.
  unfold scheduleNextRun.
  apply String.eqb_neq in H1, H2, H3. rewrite H1, H2, H3. simpl.
  split; [reflexivity|]. eexists. split; [reflexivity|]. simpl. auto.
Qed.

(** C9, as the code has it. A register_group request from a tenant other than
    main never changes the registry, whatever fields it carries. From main it
    creates or overwrites the RegisteredGroup of the given jid exactly when
    jid, name, folder and trigger are all present and non-empty; otherwise it
    changes nothing. The call returns normally and leaves the Task Store
    alone in every case. *)
Theorem register_group_main_only (d : Payload) (sg : string) (isMain : bool)
  (w : World) :
  p_type d = Some "register_group" ->
  let o := processTaskIpc env d sg isMain w in
  threw o = false /\
  tasks (final o) = tasks w /\
  (isMain = false -> groups (final o) = groups w) /\
  (isMain = true ->
   match nonempty (p_jid d), nonempty (p_name d),
         nonempty (p_folder d), nonempty (p_trigger d) with
   | Some jid, Some name, Some folder, Some trigger =>
       groups (final o) =
       <[jid := mkGroup name folder trigger
                  (toISOString env (clock env (ticks w)))
                  (p_containerConfig d) (p_requiresTrigger d)]> (groups w)
   | _, _, _, _ => groups (final o) = groups w
   end).
Proof.
  intros Hty o. subst o.
  unfold processTaskIpc, bind, deps_registeredGroups. rewrite Hty. simpl.
  unfold processRegisterGroup.
  destruct isMain; simpl.
  - unfold bind, Date_now, deps_registerGroup.
    destruct (nonempty (p_jid d)), (nonempty (p_name d)),
      (nonempty (p_folder d)), (nonempty (p_trigger d)); simpl;
      repeat split; auto; discriminate.
  - repeat split; auto; discriminate.
Qed.

Lemma newTaskId_nonempty w : newTaskId env w <> "".
Proof. unfold newTaskId. discriminate. Qed.

(** No request makes [processTaskIpc] store a task under the empty id. *)
Lemma empty_id_never_stored d sg isMain w :
  tasks w !! "" = None ->
  tasks (final (processTaskIpc env d sg isMain w)) !! "" = None.
Proof.
  intros Hinv.
  destruct (is_action_type (p_type d)) eqn:Hact.
  { destruct (processTaskIpc_action env d sg isMain w Hact) as (_ & -> & _).
    exact Hinv. }
  destruct (is_lit (p_type d) "schedule_task") eqn:Hs.
  - apply is_lit_true in Hs.
    destruct (schedule_task_cases d sg isMain w)
      as [Hden | (prompt & st & sv & tj & g & Hp & Hst & Hsv & Htj & Hg & Hauth)].
    + destruct (schedule_task_denied d sg isMain w Hs Hden) as (_ & -> & _).
      exact Hinv.
    + rewrite (schedule_task_authorized d sg isMain w prompt st sv tj g)
        by assumption.
      pose proof (scheduleNextRun_store st sv w) as (Ht & _ & _).
      destruct (scheduleNextRun env st sv w) as [[nr|] w1 | e w1];
        simpl in Ht |- *; rewrite ?Ht; try exact Hinv.
      rewrite lookup_insert_ne by apply newTaskId_nonempty. exact Hinv.
  - unfold processTaskIpc, bind, deps_registeredGroups. rewrite Hs.
    unfold processPauseTask, processResumeTask, processCancelTask,
      processRefreshGroups, processRegisterGroup, deps_syncGroupMetadata,
      deps_getAvailableGroups, deps_writeGroupsSnapshot, deps_registerGroup,
      getTaskById, updateTask, deleteTask, Date_now.
    unfold is_action_type in Hact. rewrite !orb_false_iff in Hact.
    destruct Hact as (((((A1 & A2) & A3) & A4) & A5) & A6).
    rewrite A1, A2, A3, A4, A5, A6.
    run_handler;
      rewrite ?lookup_alter, ?lookup_delete; repeat case_decide;
      subst; rewrite ?Hinv; auto.
Qed.

(** When [processTaskIpc] throws: the metadata resync of a refresh_groups
    request from main was rejected, or a complete and authorized interval
    schedule leads past the last instant a Date can hold. *)
Lemma processTaskIpc_throws d sg isMain w :
  threw (processTaskIpc env d sg isMain w) = true ->
  (p_type d = Some "refresh_groups" /\ isMain = true /\ sync_rejects env = true)
  \/
  (p_type d = Some "schedule_task" /\ p_schedule_type d = Some "interval" /\
   exists prompt sv tj g ms,
     nonempty (p_prompt d) = Some prompt /\
     nonempty (p_schedule_value d) = Some sv /\
     nonempty (p_targetJid d) = Some tj /\
     groups w !! tj = Some g /\
     (isMain = true \/ g_folder g = sg) /\
     parseInt10 sv = Some ms /\ 0 < ms /\
     MAX_TIME < Z.abs (clock env (ticks w) + ms)).
Proof.
  intros Hthrow.
  destruct (is_action_type (p_type d)) eqn:Hact.
  { destruct (processTaskIpc_action env d sg isMain w Hact) as [H _]. congruence. }
  destruct (is_lit (p_type d) "schedule_task") eqn:Hs.
  - apply is_lit_true in Hs. right.
    destruct (schedule_task_cases d sg isMain w)
      as [Hden | (prompt & st & sv & tj & g & Hp & Hst & Hsv & Htj & Hg & Hauth)].
    + destruct (schedule_task_denied d sg isMain w Hs Hden) as [H _]. congruence.
    + rewrite (schedule_task_authorized d sg isMain w prompt st sv tj g) in Hthrow
        by assumption.
      unfold scheduleNextRun, bind, Date_now, Date_toISOString in Hthrow.
      destruct (String.eqb_spec st "cron");
        [destruct (cron_next env sv (clock env (ticks w))); discriminate|].
      destruct (String.eqb_spec st "interval") as [->|];
        [|destruct (String.eqb st "once"); [destruct (Date_parse env sv)|];
          discriminate].
      destruct (parseInt10 sv) as [ms|] eqn:Hpi; [|discriminate].
      destruct (Z.leb_spec ms 0); [discriminate|].
      destruct (Z.leb_spec (Z.abs (clock env (ticks w) + ms)) MAX_TIME);
        [discriminate|].
      apply nonempty_Some in Hst as [Hst _].
      split; [assumption|]. split; [assumption|].
      exists prompt, sv, tj, g, ms. auto 10.
  - unfold processTaskIpc, bind, deps_registeredGroups in Hthrow.
    rewrite Hs in Hthrow.
    unfold processPauseTask, processResumeTask, processCancelTask,
      processRefreshGroups, processRegisterGroup, deps_syncGroupMetadata,
      deps_getAvailableGroups, deps_writeGroupsSnapshot, deps_registerGroup,
      getTaskById, updateTask, deleteTask, Date_now in Hthrow.
    unfold is_action_type in Hact. rewrite !orb_false_iff in Hact.
    destruct Hact as (((((A1 & A2) & A3) & A4) & A5) & A6).
    rewrite A1, A2, A3, A4, A5, A6 in Hthrow.
    destruct (is_lit (p_type d) "refresh_groups") eqn:Hr.
    + apply is_lit_true in Hr. left. rewrite Hr in Hthrow. simpl in Hthrow.
      revert Hthrow. run_handler.
    + exfalso. revert Hthrow. run_handler.
Qed.

(** * The watcher, file by file *)

Lemma processMessageFile_pattern registry sg isMain file w :
  processMessageFile ASSISTANT_NAME env registry sg isMain file w =
  try_catch
    (do content <- readFileSync sg Messages file ;
     do _ <- messageWork ASSISTANT_NAME env registry sg isMain content ;
     unlinkSync sg Messages file)
    (fun err =>
       do _ <- log LError "Error processing IPC message" ;
       do _ <- mkdirSync "errors" ;
       renameSync sg Messages file (sg +:+ "-" +:+ file)) w.
Proof.
  unfold processMessageFile, messageWork, try_catch, bind.
  destruct (readFileSync sg Messages file w) as [c w1|]; [|reflexivity].
  destruct (JSON_parse c w1); reflexivity.
Qed.

Lemma processTaskFile_pattern sg isMain file w :
  processTaskFile env sg isMain file w =
  try_catch
    (do content <- readFileSync sg Tasks file ;
     do _ <- taskWork env sg isMain content ;
     unlinkSync sg Tasks file)
    (fun err =>
       do _ <- log LError "Error processing IPC task" ;
       do _ <- mkdirSync "errors" ;
       renameSync sg Tasks file (sg +:+ "-" +:+ file)) w.
Proof.
  unfold processTaskFile, taskWork, try_catch, bind.
  destruct (readFileSync sg Tasks file w) as [c w1|]; [|reflexivity].
  destruct (JSON_parse c w1); reflexivity.
Qed.

Lemma JSON_parse_fs c : keeps fs_same (JSON_parse c).
Proof. destruct c; intros w; simpl; reflexivity. Qed.

Lemma messageWork_fs registry sg isMain c :
  keeps fs_same (messageWork ASSISTANT_NAME env registry sg isMain c).
Proof.
  unfold messageWork. apply keeps_bind; try typeclasses eauto.
  - apply JSON_parse_fs.
  - intros d. repeat case_match; try (apply keeps_ret; typeclasses eauto);
      try apply log_fs.
    apply keeps_bind; try typeclasses eauto;
      [apply deps_sendMessage_fs | intros; apply log_fs].
Qed.

Lemma taskWork_fs sg isMain c : keeps fs_same (taskWork env sg isMain c).
Proof.
  unfold taskWork. apply keeps_bind; try typeclasses eauto.
  - apply JSON_parse_fs.
  - intros d. apply processTaskIpc_fs.
Qed.

(** When the work on a message file throws. *)
Lemma messageWork_throws registry sg isMain c w :
  threw (messageWork ASSISTANT_NAME env registry sg isMain c w) = true <->
  (exists raw, c = Unparsable raw) \/ c = JsonNull \/
  (exists d jid text,
     c = JsonObject d /\ p_type d = Some "message" /\
     nonempty (p_chatJid d) = Some jid /\ nonempty (p_text d) = Some text /\
     (isMain || ownsJid registry jid sg)%bool = true /\
     send_rejects env jid (ASSISTANT_NAME +:+ ": " +:+ text) = true).
Proof.
  unfold messageWork, bind. destruct c as [raw| |d]; simpl.
  - split; [eauto | reflexivity].
  - split; [auto | reflexivity].
  - split.
    + intros H. right. right.
      destruct (is_lit (p_type d) "message") eqn:Hty; [|discriminate].
      apply is_lit_true in Hty.
      destruct (nonempty (p_chatJid d)) as [jid|] eqn:Hj; [|discriminate].
      destruct (nonempty (p_text d)) as [text|] eqn:Ht; [|discriminate].
      destruct (isMain || ownsJid registry jid sg)%bool eqn:Hal; [|discriminate].
      unfold bind, deps_sendMessage in H.
      destruct (send_rejects env jid (ASSISTANT_NAME +:+ ": " +:+ text)) eqn:Hrej;
        [|discriminate].
      exists d, jid, text. repeat split; auto.
    + intros [(raw & ?) | [? | (d' & jid & text & [= <-] & Hty & Hj & Ht & Hal & Hrej)]];
        try discriminate.
      apply is_lit_true in Hty. rewrite Hty, Hj, Ht, Hal.
      unfold bind, deps_sendMessage. rewrite Hrej. reflexivity.
Qed.

(** When the work on a task file throws. *)
Lemma taskWork_throws sg isMain c w :
  threw (taskWork env sg isMain c w) = true <->
  (exists raw, c = Unparsable raw) \/ c = JsonNull \/
  (exists d, c = JsonObject d /\ threw (processTaskIpc env d sg isMain w) = true).
Proof.
  unfold taskWork, bind. destruct c as [raw| |d]; simpl.
  - split; [eauto | reflexivity].
  - split; [auto | reflexivity].
  - split.
    + intros H. right. right. exists d. auto.
    + intros [(raw & ?) | [? | (d' & [= <-] & H)]]; try discriminate.
      exact H.
Qed.

Lemma deleted_or_quarantined sg ch file c w w' :
  ~ (deleted sg ch file w w' /\ quarantined sg ch file c w w').
Proof.
  intros [[Hd _] [Hq _]]. rewrite Hd in Hq.
  apply app_inv_head in Hq. discriminate.
Qed.

(** The disposal of one file in terms of the work done on its content. *)
Lemma file_disposal ch sg file msg (work : FileContent -> M unit) c w o :
  find_file sg ch file w = Some c ->
  keeps fs_same (work c) ->
  o = try_catch
        (do content <- readFileSync sg ch file ;
         do _ <- work content ;
         unlinkSync sg ch file)
        (fun err =>
           do _ <- log LError msg ;
           do _ <- mkdirSync "errors" ;
           renameSync sg ch file (sg +:+ "-" +:+ file)) w ->
  threw o = false /\
  find_file sg ch file (final o) = None /\
  store_same (final (work c w)) (final o) /\
  (threw (work c w) = false /\ deleted sg ch file w (final o)
   \/ threw (work c w) = true /\ quarantined sg ch file c w (final o)).
Proof.
  intros Hfile Hkeep ->.
  destruct (disposal_pattern ch sg file msg work c w Hfile Hkeep)
    as (H1 & H2 & H3 & H4).
  split; [assumption|]. split; [assumption|]. split; [assumption|].
  unfold deleted, quarantined.
  destruct (threw (work c w)); [right | left]; tauto.
Qed.

(** The disposal of one request file, for both channels: the handling
    never throws, the file is gone afterwards, and it was unlinked or renamed
    into the errors directory, never both; renamed exactly when its work
    throws. *)
Lemma file_disposed_once
  (registry : gmap string RegisteredGroup) (sg : string) (isMain : bool)
  (file : string) (c : FileContent) (w : World) :
  (find_file sg Messages file w = Some c ->
   let inner := messageWork ASSISTANT_NAME env registry sg isMain c w in
   let o := processMessageFile ASSISTANT_NAME env registry sg isMain file w in
   threw o = false /\
   find_file sg Messages file (final o) = None /\
   (threw inner = false /\ deleted sg Messages file w (final o)
    \/ threw inner = true /\ quarantined sg Messages file c w (final o)) /\
   ~ (deleted sg Messages file w (final o)
      /\ quarantined sg Messages file c w (final o)) /\
   (threw inner = true <->
    (exists raw, c = Unparsable raw) \/ c = JsonNull \/
    (exists d jid text,
       c = JsonObject d /\ p_type d = Some "message" /\
       nonempty (p_chatJid d) = Some jid /\ nonempty (p_text d) = Some text /\
       (isMain || ownsJid registry jid sg)%bool = true /\
       send_rejects env jid (ASSISTANT_NAME +:+ ": " +:+ text) = true)))
  /\
  (find_file sg Tasks file w = Some c ->
   let inner := taskWork env sg isMain c w in
   let o := processTaskFile env sg isMain file w in
   threw o = false /\
   find_file sg Tasks file (final o) = None /\
   (threw inner = false /\ deleted sg Tasks file w (final o)
    \/ threw inner = true /\ quarantined sg Tasks file c w (final o)) /\
   ~ (deleted sg Tasks file w (final o)
      /\ quarantined sg Tasks file c w (final o)) /\
   (threw inner = true <->
    (exists raw, c = Unparsable raw) \/ c = JsonNull \/
    (exists d, c = JsonObject d /\ threw (processTaskIpc env d sg isMain w) = true)) /\
   (forall d, c = JsonObject d ->
      threw (processTaskIpc env d sg isMain w) = true ->
      exceptional env d sg isMain w)).
Proof.
  split; intros Hfile inner o; subst inner o.
  - destruct (file_disposal Messages sg file "Error processing IPC message"
                (messageWork ASSISTANT_NAME env registry sg isMain) c w _ Hfile
                (messageWork_fs registry sg isMain c)
                (processMessageFile_pattern registry sg isMain file w))
      as (H1 & H2 & _ & H4).
    repeat split; try assumption.
    + apply deleted_or_quarantined.
    + apply messageWork_throws.
    + apply messageWork_throws.
  - destruct (file_disposal Tasks sg file "Error processing IPC task"
                (taskWork env sg isMain) c w _ Hfile
                (taskWork_fs sg isMain c)
                (processTaskFile_pattern sg isMain file w))
      as (H1 & H2 & _ & H4).
    repeat split; try assumption.
    + apply deleted_or_quarantined.
    + apply taskWork_throws.
    + apply taskWork_throws.
    + intros d _. apply processTaskIpc_throws.
Qed.

Lemma allowed_iff registry jid sg isMain :
  (isMain || ownsJid registry jid sg)%bool = true <->
  (isMain = true \/ exists g, registry !! jid = Some g /\ g_folder g = sg).
Proof.
  rewrite orb_true_iff. unfold ownsJid.
  destruct (registry !! jid) as [g|].
  - rewrite String.eqb_eq. split.
    + intros [H|H]; [auto | right; eauto].
    + intros [H|(g' & [= <-] & H)]; auto.
  - split.
    + intros [H|H]; [auto | discriminate].
    + intros [H|(g' & ? & _)]; [auto | discriminate].
Qed.

(** C7, as the code has it. A message file with type message whose chatJid
    and text are both non-empty is handed to the send function, as
    (chatJid, ASSISTANT_NAME: text), exactly when the requester is main or
    the group registered for chatJid has the requester's directory as
    folder. Main is therefore never refused; a refused request is logged as
    a warning, nothing is sent, and the file is unlinked. When chatJid or
    text is the empty string nothing is sent and nothing is logged, for main
    as for anyone, and the file is unlinked. *)
Theorem message_sent_iff_main_or_owner
  (registry : gmap string RegisteredGroup) (sg : string) (isMain : bool)
  (file : string) (d : Payload) (jid text : string) (w : World) :
  find_file sg Messages file w = Some (JsonObject d) ->
  p_type d = Some "message" ->
  p_chatJid d = Some jid ->
  p_text d = Some text ->
  let o := processMessageFile ASSISTANT_NAME env registry sg isMain file w in
  let allowed :=
    isMain = true \/ exists g, registry !! jid = Some g /\ g_folder g = sg in
  threw o = false /\
  (jid <> "" -> text <> "" -> allowed ->
   sent (final o) = (sent w ++ [(jid, ASSISTANT_NAME +:+ ": " +:+ text)])%list /\
   (send_rejects env jid (ASSISTANT_NAME +:+ ": " +:+ text) = false ->
    logs (final o) = (logs w ++ [(LInfo, "IPC message sent")])%list /\
    deleted sg Messages file w (final o))) /\
  (jid <> "" -> text <> "" -> ~ allowed ->
   sent (final o) = sent w /\
   logs (final o)
     = (logs w ++ [(LWarn, "Unauthorized IPC message attempt blocked")])%list /\
   deleted sg Messages file w (final o)) /\
  (jid = "" \/ text = "" ->
   sent (final o) = sent w /\ logs (final o) = logs w /\
   deleted sg Messages file w (final o)).
Proof.
  intros Hfile Hty Hj Ht o allowed. subst o allowed.
  rewrite processMessageFile_pattern.
  destruct (disposal_pattern Messages sg file "Error processing IPC message"
              (messageWork ASSISTANT_NAME env registry sg isMain) _ w Hfile
              (messageWork_fs registry sg isMain _))
    as (H1 & _ & (_ & _ & Hsent) & H4).
  apply is_lit_true in Hty.
  unfold messageWork, bind in Hsent, H4. simpl in Hsent, H4.
  rewrite Hty, Hj, Ht in Hsent, H4.
  pose proof (allowed_iff registry jid sg isMain) as Hal.
  split; [exact H1|].
  destruct (String.eqb_spec jid "") as [->|Hjne].
  { split; [intros Hc; contradiction|]. split; [intros Hc; contradiction|].
    intros _. simpl in *. unfold deleted. tauto. }
  destruct (String.eqb_spec text "") as [->|Htne].
  { split; [intros _ Hc; contradiction|]. split; [intros _ Hc; contradiction|].
    intros _. apply String.eqb_neq in Hjne. unfold nonempty in Hsent, H4.
    rewrite Hjne in Hsent, H4. simpl in *. unfold deleted. tauto. }
  assert (Hj' : nonempty (Some jid) = Some jid) by (apply nonempty_Some; auto).
  assert (Ht' : nonempty (Some text) = Some text) by (apply nonempty_Some; auto).
  rewrite Hj', Ht' in Hsent, H4.
  split; [|split].
  - intros _ _ Hallowed. apply Hal in Hallowed.
    rewrite Hallowed in Hsent, H4.
    unfold bind, deps_sendMessage, log in Hsent, H4.
    destruct (send_rejects env jid (ASSISTANT_NAME +:+ ": " +:+ text));
      simpl in *.
    + split; [exact Hsent | discriminate].
    + split; [exact Hsent|]. intros _. unfold deleted. tauto.
  - intros _ _ Hdenied.
    destruct (isMain || ownsJid registry jid sg)%bool eqn:E.
    + exfalso. apply Hdenied, Hal. reflexivity.
    + simpl in *. unfold deleted. tauto.
  - intros [?|?]; contradiction.
Qed.


Lemma isMainGroup_true s :
  isMainGroup MAIN_GROUP_FOLDER s = true <-> s = MAIN_GROUP_FOLDER.
Proof. unfold isMainGroup. apply String.eqb_eq. Qed.

(** A tenant other than main gets the same decision whatever identity its
    request claims. *)
Lemma claims_are_ignored d sg w gf cj j n f t :
  let o := processTaskIpc env d sg false w in
  let o' := processTaskIpc env (with_claims gf cj j n f t d) sg false w in
  threw o' = threw o /\ tasks (final o') = tasks (final o) /\
  groups (final o') = groups (final o) /\ sent (final o') = sent (final o).
Proof.
  intros o o'. subst o o'.
  destruct (is_action_type (p_type d)) eqn:Hact.
  - destruct (processTaskIpc_action env d sg false w Hact) as (T & A & B & C).
    destruct (processTaskIpc_action env (with_claims gf cj j n f t d) sg false w Hact)
      as (T' & A' & B' & C').
    rewrite T, T', A, A', B, B', C, C'. auto.
  - assert (E : processTaskIpc env (with_claims gf cj j n f t d) sg false w
                = processTaskIpc env d sg false w).
    { unfold is_action_type in Hact. rewrite !orb_false_iff in Hact.
      destruct Hact as (((((A1 & A2) & A3) & A4) & A5) & A6).
      unfold processTaskIpc, bind, deps_registeredGroups. simpl.
      rewrite A1, A2, A3, A4, A5, A6.
      repeat case_match; reflexivity. }
    rewrite E. auto.
Qed.

End Claims.

(** * One poll cycle *)

Lemma channel_eqb_eq a b : channel_eqb a b = true <-> a = b.
Proof. destruct a, b; simpl; split; congruence. Qed.

Lemma disposals_app sg ch f l l' :
  disposals sg ch f (l ++ l')%list
  = (disposals sg ch f l + disposals sg ch f l')%nat.
Proof. unfold disposals. rewrite List.filter_app. apply List.length_app. Qed.

Lemma mem_elem x l : mem x l = true <-> x ∈ l.
Proof.
  unfold mem. rewrite existsb_exists. split.
  - intros (y & Hin & Heq). apply String.eqb_eq in Heq. subst y.
    apply list_elem_of_In. exact Hin.
  - intros Hin. exists x. rewrite String.eqb_refl.
    split; [apply list_elem_of_In; exact Hin | reflexivity].
Qed.

Lemma alist_lookup_elem {A} k (l : list (string * A)) :
  is_Some (alist_lookup k l) <-> k ∈ fst <$> l.
Proof.
  induction l as [|[k' v] r IH]; simpl.
  - split; [intros [? ?]; discriminate | intros H; inversion H].
  - destruct (String.eqb_spec k' k) as [->|Hne].
    + split; [intros _; apply list_elem_of_here | eauto].
    + rewrite IH. split.
      * intros H. apply list_elem_of_further. exact H.
      * intros H. apply elem_of_cons in H as [H|H]; [congruence | exact H].
Qed.

Lemma find_file_dir sg ch f w :
  find_file sg ch f w = dir_files sg ch (mailboxes w) ≫= alist_lookup f.
Proof.
  unfold find_file, dir_files.
  destruct (alist_lookup sg (mailboxes w)) as [mb|]; reflexivity.
Qed.

Lemma chan_files_set_chan_ne ch ch' fs mb :
  channel_eqb ch' ch = false -> chan_files ch' (set_chan ch fs mb) = chan_files ch' mb.
Proof. destruct ch, ch'; simpl; congruence. Qed.

Lemma dir_files_remove_other sg ch f sg' ch' mbs :
  (String.eqb sg' sg && channel_eqb ch' ch)%bool = false ->
  dir_files sg' ch' (remove_file sg ch f mbs) = dir_files sg' ch' mbs.
Proof.
  intros H. unfold dir_files, remove_file.
  destruct (String.eqb_spec sg' sg) as [->|Hne]; simpl in H.
  - rewrite alist_lookup_alter.
    destruct (alist_lookup sg mbs) as [mb|]; simpl; [|reflexivity].
    apply chan_files_set_chan_ne. exact H.
  - rewrite alist_lookup_alter_ne by congruence. reflexivity.
Qed.

Lemma dir_files_remove_same sg ch f mbs :
  dir_files sg ch (remove_file sg ch f mbs) = alist_remove f <$> dir_files sg ch mbs.
Proof.
  unfold dir_files, remove_file. rewrite alist_lookup_alter.
  destruct (alist_lookup sg mbs) as [mb|]; simpl; [|reflexivity].
  apply chan_files_set_chan.
Qed.

(** Removing one file leaves every other file where it is. *)
Lemma find_file_remove sg ch f sg' ch' f' w w' :
  mailboxes w' = remove_file sg ch f (mailboxes w) ->
  find_file sg' ch' f' w' =
  if disposes sg' ch' f' (Unlink sg ch f) then None else find_file sg' ch' f' w.
Proof.
  intros Hmb. rewrite !find_file_dir, Hmb. simpl.
  destruct (String.eqb sg' sg && channel_eqb ch' ch)%bool eqn:Hdir; simpl.
  - apply andb_true_iff in Hdir as [Hs Hc].
    apply String.eqb_eq in Hs. apply channel_eqb_eq in Hc. subst sg' ch'.
    rewrite dir_files_remove_same.
    destruct (dir_files sg ch (mailboxes w)) as [fs|]; simpl.
    + destruct (String.eqb_spec f' f) as [->|Hne].
      * apply alist_lookup_remove.
      * apply alist_lookup_remove_ne. congruence.
    + destruct (String.eqb f' f); reflexivity.
  - rewrite dir_files_remove_other by exact Hdir. reflexivity.
Qed.

Lemma disposal_mailboxes ch sg file msg (work : FileContent -> M unit) c w :
  find_file sg ch file w = Some c ->
  keeps fs_same (work c) ->
  mailboxes
    (final
       (try_catch
          (do content <- readFileSync sg ch file ;
           do _ <- work content ;
           unlinkSync sg ch file)
          (fun err =>
             do _ <- log LError msg ;
             do _ <- mkdirSync "errors" ;
             renameSync sg ch file (sg +:+ "-" +:+ file)) w))
  = remove_file sg ch file (mailboxes w).
Proof.
  intros Hfile Hkeep.
  specialize (Hkeep w). destruct Hkeep as (Hmb & _ & _).
  unfold try_catch, bind, readFileSync. rewrite Hfile.
  destruct (work c w) as [[] w1 | e w1]; simpl in *.
  - unfold unlinkSync.
    rewrite (find_file_mailboxes sg ch file w w1 Hmb), Hfile. simpl.
    rewrite Hmb. reflexivity.
  - unfold log, mkdirSync, renameSync. simpl.
    assert (Hf : find_file sg ch file
                   (set_fs (mailboxes w1) (errorsDir w1) [Mkdir "errors"]
                      (add_log (LError, msg) w1)) = Some c).
    { rewrite <- Hfile. apply find_file_mailboxes. simpl. exact Hmb. }
    rewrite Hf. simpl. rewrite Hmb. reflexivity.
Qed.

Lemma file_step_of_pattern ch sg file msg (work : FileContent -> M unit) c w o :
  find_file sg ch file w = Some c ->
  keeps fs_same (work c) ->
  o = try_catch
        (do content <- readFileSync sg ch file ;
         do _ <- work content ;
         unlinkSync sg ch file)
        (fun err =>
           do _ <- log LError msg ;
           do _ <- mkdirSync "errors" ;
           renameSync sg ch file (sg +:+ "-" +:+ file)) w ->
  threw o = false /\ file_step sg ch file w (final o).
Proof.
  intros Hfile Hkeep Ho.
  destruct (file_disposal ch sg file msg work c w o Hfile Hkeep Ho)
    as (H1 & _ & _ & H4).
  split; [exact H1|]. split.
  - rewrite Ho. apply (disposal_mailboxes ch sg file msg work c w Hfile Hkeep).
  - intros sg' ch' f'.
    destruct H4 as [[_ [Hlog _]] | [_ [Hlog _]]]; rewrite Hlog, disposals_app;
      f_equal; unfold disposals; simpl;
      destruct (String.eqb sg' sg && channel_eqb ch' ch && String.eqb f' file)%bool;
      reflexivity.
Qed.

(** The loop over the files of one directory. *)
Lemma loop_files sg ch (body : string -> M unit) :
  (forall f w, exists_file sg ch f w = true ->
     threw (body f w) = false /\ file_step sg ch f w (final (body f w))) ->
  forall files, NoDup files ->
  forall w, (forall f, f ∈ files -> exists_file sg ch f w = true) ->
  threw (for_each files body w) = false /\
  swept_files sg ch files w (final (for_each files body w)).
Proof.
  intros Hbody files. induction files as [|x r IH]; intros Hnd w Hall.
  - simpl. split; [reflexivity|]. unfold swept_files. simpl.
    repeat split; intros; rewrite ?andb_false_r; auto.
  - apply NoDup_cons in Hnd as [Hx Hr].
    assert (Hxw : exists_file sg ch x w = true) by (apply Hall; left).
    destruct (Hbody x w Hxw) as [Hno [Hmb Hcnt]].
    simpl. unfold bind.
    destruct (body x w) as [[] w1 | e w1]; [|discriminate]. simpl in Hmb, Hcnt.
    assert (Hall1 : forall f, f ∈ r -> exists_file sg ch f w1 = true).
    { intros f Hf. unfold exists_file.
      rewrite (find_file_remove sg ch x sg ch f w w1 Hmb). simpl.
      assert (Hfx : String.eqb f x = false).
      { apply String.eqb_neq. intros ->. contradiction. }
      rewrite Hfx, andb_false_r.
      apply (Hall f). right. exact Hf. }
    destruct (IH Hr w1 Hall1) as [Hno2 (Hd & Hf & Hc)].
    split; [exact Hno2|]. split; [|split].
    + intros sg' ch' Hdir. rewrite (Hd sg' ch' Hdir), Hmb.
      apply dir_files_remove_other. exact Hdir.
    + intros sg' ch' f. rewrite Hf.
      rewrite (find_file_remove sg ch x sg' ch' f w w1 Hmb). simpl.
      destruct (String.eqb sg' sg && channel_eqb ch' ch)%bool; simpl;
        [|reflexivity].
      destruct (String.eqb f x), (mem f r); reflexivity.
    + intros sg' ch' f. rewrite Hc, Hcnt. simpl.
      destruct (String.eqb sg' sg && channel_eqb ch' ch)%bool; simpl; [|lia].
      destruct (String.eqb_spec f x) as [->|Hne]; simpl; [|lia].
      assert (Hm : mem x r = false).
      { destruct (mem x r) eqn:E; [|reflexivity].
        apply mem_elem in E. contradiction. }
      rewrite Hm. lia.
Qed.

Lemma exists_file_elem sg ch f w fs :
  dir_files sg ch (mailboxes w) = Some fs ->
  exists_file sg ch f w = true <-> f ∈ fst <$> fs.
Proof.
  intros Hdir. unfold exists_file. rewrite find_file_dir, Hdir. simpl.
  rewrite <- alist_lookup_elem.
  destruct (alist_lookup f fs); split; eauto; try discriminate.
  intros [? ?]; discriminate.
Qed.

Lemma mem_json_listing f (fs : list (string * FileContent)) :
  mem f (List.filter (fun n => ends_with n ".json") (fst <$> fs)) = true <->
  ends_with f ".json" = true /\ f ∈ fst <$> fs.
Proof.
  rewrite mem_elem, list_elem_of_In, List.filter_In, <- list_elem_of_In. tauto.
Qed.

(** Taking up the .json files of a directory sweeps that directory. *)
Lemma swept_of_files sg ch fs w w' :
  dir_files sg ch (mailboxes w) = Some fs ->
  swept_files sg ch (List.filter (fun n => ends_with n ".json") (fst <$> fs)) w w' ->
  swept (fun s c => String.eqb s sg && channel_eqb c ch)%bool w w'.
Proof.
  intros Hdir (Hd & Hf & Hc).
  pose proof (fun f => mem_json_listing f fs) as Hmem.
  pose proof (fun f => exists_file_elem sg ch f w fs Hdir) as Hex.
  split; [exact Hd|]. split.
  - intros sg' ch' f. rewrite Hf.
    destruct (String.eqb sg' sg && channel_eqb ch' ch)%bool eqn:D; simpl;
      [|reflexivity].
    apply andb_true_iff in D as [Hs Hch].
    apply String.eqb_eq in Hs. apply channel_eqb_eq in Hch. subst sg' ch'.
    destruct (ends_with f ".json") eqn:J.
    + destruct (mem f _) eqn:E; [reflexivity|].
      destruct (exists_file sg ch f w) eqn:X.
      * exfalso. apply Hex in X.
        pose proof (proj2 (Hmem f) (conj J X)) as E'. congruence.
      * unfold exists_file in X. destruct (find_file sg ch f w); congruence.
    + destruct (mem f _) eqn:E; [|reflexivity].
      apply Hmem in E as [E _]. congruence.
  - intros sg' ch' f. rewrite Hc. f_equal.
    destruct (String.eqb sg' sg && channel_eqb ch' ch)%bool eqn:D; simpl;
      [|reflexivity].
    apply andb_true_iff in D as [Hs Hch].
    apply String.eqb_eq in Hs. apply channel_eqb_eq in Hch. subst sg' ch'.
    destruct (mem f _) eqn:E.
    + apply Hmem in E as [-> E]. apply Hex in E. rewrite E. reflexivity.
    + destruct (ends_with f ".json") eqn:J; [|reflexivity].
      destruct (exists_file sg ch f w) eqn:X; [|reflexivity].
      apply Hex in X.
      pose proof (proj2 (Hmem f) (conj J X)) as E'. congruence.
Qed.

(** A directory that does not exist is swept by doing nothing. *)
Lemma swept_missing sg ch w :
  dir_files sg ch (mailboxes w) = None ->
  swept (fun s c => String.eqb s sg && channel_eqb c ch)%bool w w.
Proof.
  intros Hdir.
  assert (Hnone : forall f, find_file sg ch f w = None).
  { intros f. rewrite find_file_dir, Hdir. reflexivity. }
  split; [reflexivity|]. split.
  - intros sg' ch' f.
    destruct (String.eqb sg' sg && channel_eqb ch' ch)%bool eqn:D; simpl;
      [|reflexivity].
    apply andb_true_iff in D as [Hs Hch].
    apply String.eqb_eq in Hs. apply channel_eqb_eq in Hch. subst sg' ch'.
    rewrite Hnone. destruct (ends_with f ".json"); reflexivity.
  - intros sg' ch' f.
    destruct (String.eqb sg' sg && channel_eqb ch' ch)%bool eqn:D; simpl;
      [|lia].
    apply andb_true_iff in D as [Hs Hch].
    apply String.eqb_eq in Hs. apply channel_eqb_eq in Hch. subst sg' ch'.
    unfold exists_file. rewrite Hnone, andb_false_r. lia.
Qed.

Lemma swept_ext P Q w w' :
  (forall sg ch, P sg ch = Q sg ch) -> swept P w w' -> swept Q w w'.
Proof.
  intros Heq (Hd & Hf & Hc). split; [|split].
  - intros sg ch HQ. apply Hd. rewrite Heq. exact HQ.
  - intros sg ch f. rewrite <- Heq. apply Hf.
  - intros sg ch f. rewrite <- Heq. apply Hc.
Qed.

(** Sweeping disjoint sets of directories one after the other. *)
Lemma swept_compose P Q w w1 w2 :
  (forall sg ch, P sg ch = true -> Q sg ch = false) ->
  swept P w w1 -> swept Q w1 w2 ->
  swept (fun s c => P s c || Q s c)%bool w w2.
Proof.
  intros Hdisj (Hd1 & Hf1 & Hc1) (Hd2 & Hf2 & Hc2). split; [|split].
  - intros sg ch H. apply orb_false_iff in H as [HP HQ].
    rewrite (Hd2 sg ch HQ). apply Hd1. exact HP.
  - intros sg ch f. rewrite Hf2, Hf1.
    destruct (P sg ch), (Q sg ch), (ends_with f ".json"); reflexivity.
  - intros sg ch f. rewrite Hc2, Hc1.
    assert (Hx : exists_file sg ch f w1 =
                 if (P sg ch && ends_with f ".json")%bool then false
                 else exists_file sg ch f w).
    { unfold exists_file. rewrite Hf1.
      destruct (P sg ch && ends_with f ".json")%bool; reflexivity. }
    rewrite Hx. specialize (Hdisj sg ch).
    destruct (P sg ch), (Q sg ch); simpl; try lia.
Qed.

(** The loop over one sub-channel directory, inside its try/catch. *)
Lemma dir_loop_swept sg ch (body : string -> M unit) msg w :
  (forall f w0, exists_file sg ch f w0 = true ->
     threw (body f w0) = false /\ file_step sg ch f w0 (final (body f w0))) ->
  (forall fs, dir_files sg ch (mailboxes w) = Some fs -> NoDup (fst <$> fs)) ->
  let o := try_catch
             (do listing <- readdir_json sg ch ;
              match listing with
              | Some files => for_each files body
              | None => ret tt
              end)
             (fun err => log LError msg) w in
  threw o = false /\
  swept (fun s c => String.eqb s sg && channel_eqb c ch)%bool w (final o).
Proof.
  intros Hbody Hnd o. subst o.
  unfold try_catch, bind, readdir_json.
  destruct (dir_files sg ch (mailboxes w)) as [fs|] eqn:Hdir.
  - assert (Hlist : match alist_lookup sg (mailboxes w) with
                    | Some mb => chan_files ch mb
                    | None => None
                    end = Some fs) by exact Hdir.
    destruct (alist_lookup sg (mailboxes w)) as [mb|]; [|discriminate].
    rewrite Hlist. simpl.
    set (files := List.filter (fun f => ends_with f ".json") (fst <$> fs)).
    destruct (loop_files sg ch body Hbody files) with (w := w) as [Hno Hsw].
    + apply NoDup_ListNoDup, List.NoDup_filter, NoDup_ListNoDup, Hnd. reflexivity.
    + intros f Hf. apply (exists_file_elem sg ch f w fs Hdir).
      apply mem_elem, mem_json_listing in Hf. tauto.
    + destruct (for_each files body w) as [[] w1 | e w1]; [|discriminate].
      split; [reflexivity|]. apply (swept_of_files sg ch fs w w1 Hdir Hsw).
  - assert (Hlist : match alist_lookup sg (mailboxes w) with
                    | Some mb => chan_files ch mb
                    | None => None
                    end = None) by exact Hdir.
    destruct (alist_lookup sg (mailboxes w)) as [mb|].
    + rewrite Hlist. simpl. split; [reflexivity|]. apply swept_missing, Hdir.
    + simpl. split; [reflexivity|]. apply swept_missing, Hdir.
Qed.

Section Cycle.

Variable MAIN_GROUP_FOLDER : string.
Variable ASSISTANT_NAME : string.
Variable env : Env.

Lemma task_file_step sg isMain f w :
  exists_file sg Tasks f w = true ->
  threw (processTaskFile env sg isMain f w) = false /\
  file_step sg Tasks f w (final (processTaskFile env sg isMain f w)).
Proof.
  unfold exists_file. destruct (find_file sg Tasks f w) as [c|] eqn:Hfile;
    [intros _ | discriminate].
  apply (file_step_of_pattern Tasks sg f "Error processing IPC task"
           (taskWork env sg isMain) c w _ Hfile (taskWork_fs env sg isMain c)
           (processTaskFile_pattern env sg isMain f w)).
Qed.

Lemma message_file_step sg isMain f w :
  exists_file sg Messages f w = true ->
  let body := do registeredGroups <- deps_registeredGroups ;
              processMessageFile ASSISTANT_NAME env registeredGroups sg isMain f in
  threw (body w) = false /\ file_step sg Messages f w (final (body w)).
Proof.
  unfold exists_file. destruct (find_file sg Messages f w) as [c|] eqn:Hfile;
    [intros _ | discriminate].
  unfold bind, deps_registeredGroups.
  apply (file_step_of_pattern Messages sg f "Error processing IPC message"
           (messageWork ASSISTANT_NAME env (groups w) sg isMain) c w _ Hfile
           (messageWork_fs ASSISTANT_NAME env (groups w) sg isMain c)
           (processMessageFile_pattern ASSISTANT_NAME env (groups w) sg isMain f w)).
Qed.

Lemma processTasksDir_swept sg isMain w :
  (forall fs, dir_files sg Tasks (mailboxes w) = Some fs -> NoDup (fst <$> fs)) ->
  threw (processTasksDir env sg isMain w) = false /\
  swept (fun s c => String.eqb s sg && channel_eqb c Tasks)%bool w
    (final (processTasksDir env sg isMain w)).
Proof.
  intros Hnd. unfold processTasksDir.
  apply (dir_loop_swept sg Tasks (fun file => processTaskFile env sg isMain file));
    [|exact Hnd].
  intros f w0. apply task_file_step.
Qed.

Lemma processMessagesDir_swept sg isMain w :
  (forall fs, dir_files sg Messages (mailboxes w) = Some fs -> NoDup (fst <$> fs)) ->
  threw (processMessagesDir ASSISTANT_NAME env sg isMain w) = false /\
  swept (fun s c => String.eqb s sg && channel_eqb c Messages)%bool w
    (final (processMessagesDir ASSISTANT_NAME env sg isMain w)).
Proof.
  intros Hnd. unfold processMessagesDir.
  apply (dir_loop_swept sg Messages
           (fun file => do registeredGroups <- deps_registeredGroups ;
              processMessageFile ASSISTANT_NAME env registeredGroups sg isMain file));
    [|exact Hnd].
  intros f w0. apply message_file_step.
Qed.

Lemma processGroup_swept sg w :
  (forall ch fs, dir_files sg ch (mailboxes w) = Some fs -> NoDup (fst <$> fs)) ->
  let o := processGroup MAIN_GROUP_FOLDER ASSISTANT_NAME env sg w in
  threw o = false /\ swept (fun s c => String.eqb s sg) w (final o).
Proof.
  intros Hnd o. subst o. unfold processGroup, bind.
  destruct (processMessagesDir_swept sg (isMainGroup MAIN_GROUP_FOLDER sg) w
              (Hnd Messages)) as [Hno1 Hsw1].
  destruct (processMessagesDir ASSISTANT_NAME env sg _ w) as [[] w1 | e w1];
    [|discriminate].
  simpl in Hsw1.
  destruct (processTasksDir_swept sg (isMainGroup MAIN_GROUP_FOLDER sg) w1)
    as [Hno2 Hsw2].
  { intros fs Hfs. apply (Hnd Tasks).
    rewrite <- Hfs. symmetry. apply Hsw1.
    destruct (String.eqb sg sg); reflexivity. }
  split; [exact Hno2|].
  eapply swept_ext; [|eapply swept_compose; [|exact Hsw1|exact Hsw2]].
  - intros s c. simpl. destruct (String.eqb s sg), c; reflexivity.
  - intros s c H. simpl in *. destruct (String.eqb s sg), c; simpl in *; congruence.
Qed.

(** The loop over the tenant directories. *)
Lemma groups_loop_swept gs :
  NoDup gs ->
  forall w,
    (forall sg ch fs, sg ∈ gs -> dir_files sg ch (mailboxes w) = Some fs ->
       NoDup (fst <$> fs)) ->
    let o := for_each gs (processGroup MAIN_GROUP_FOLDER ASSISTANT_NAME env) w in
    threw o = false /\ swept (fun s c => mem s gs) w (final o).
Proof.
  induction gs as [|x r IH]; intros Hnd w Hwf o; subst o.
  - simpl. split; [reflexivity|]. repeat split; intros; simpl; auto.
  - apply NoDup_cons in Hnd as [Hx Hr]. simpl. unfold bind.
    destruct (processGroup_swept x w) as [Hno1 Hsw1].
    { intros ch fs. apply Hwf. left. }
    destruct (processGroup MAIN_GROUP_FOLDER ASSISTANT_NAME env x w)
      as [[] w1 | e w1]; [|discriminate].
    simpl in Hsw1.
    destruct (IH Hr w1) as [Hno2 Hsw2].
    { intros sg ch fs Hsg Hfs. apply (Hwf sg ch fs); [right; exact Hsg|].
      rewrite <- Hfs. symmetry. apply Hsw1.
      apply String.eqb_neq. intros ->. contradiction. }
    split; [exact Hno2|].
    eapply swept_ext; [|eapply swept_compose; [|exact Hsw1|exact Hsw2]].
    + intros s c. reflexivity.
    + intros s c H. simpl in H. apply String.eqb_eq in H. subst s.
      destruct (mem x r) eqn:E; [|reflexivity].
      apply mem_elem in E. contradiction.
Qed.

(** One poll cycle over well-formed mailboxes does not throw. Every .json
    file that lies in a channel of a tenant directory when the cycle starts
    is gone when it ends and was disposed of exactly once in between, by
    unlink or by rename into the errors directory; every other file is where
    it was and was not disposed of. *)
Lemma poll_cycle_sweep (w : World) :
  mailboxes_wf w ->
  let o := processIpcFiles MAIN_GROUP_FOLDER ASSISTANT_NAME env w in
  threw o = false /\
  forall sg ch f,
    find_file sg ch f (final o)
    = (if processed sg ch f w then None else find_file sg ch f w) /\
    disposals sg ch f (fsLog (final o))
    = (disposals sg ch f (fsLog w) + if processed sg ch f w then 1 else 0)%nat.
Proof.
  intros [Hgroups Hdirs] o. subst o.
  unfold processIpcFiles, bind, readdir_groups.
  set (gs := List.filter (fun f => negb (String.eqb f "errors")) (fst <$> mailboxes w)).
  destruct (groups_loop_swept gs) with (w := w) as [Hno (_ & Hf & Hc)].
  { apply NoDup_ListNoDup, List.NoDup_filter, NoDup_ListNoDup, Hgroups. }
  { intros sg ch fs _. apply Hdirs. }
  split; [exact Hno|].
  assert (Hmem : forall sg ch f, exists_file sg ch f w = true ->
                   mem sg gs = negb (String.eqb sg "errors")).
  { intros sg ch f Hex.
    assert (Hin : sg ∈ fst <$> mailboxes w).
    { apply alist_lookup_elem. unfold exists_file, find_file in Hex.
      destruct (alist_lookup sg (mailboxes w)); [eauto | discriminate]. }
    destruct (negb (String.eqb sg "errors")) eqn:E.
    - apply mem_elem, list_elem_of_In, List.filter_In.
      split; [apply list_elem_of_In; exact Hin | exact E].
    - destruct (mem sg gs) eqn:M; [|reflexivity].
      apply mem_elem, list_elem_of_In, List.filter_In in M as [_ M]. congruence. }
  intros sg ch f. rewrite Hf, Hc. unfold processed.
  destruct (exists_file sg ch f w) eqn:Hex.
  - rewrite (Hmem sg ch f Hex), !andb_true_r. auto.
  - rewrite !andb_false_r.
    unfold exists_file in Hex.
    destruct (find_file sg ch f w); [discriminate|].
    split; [|reflexivity].
    destruct (mem sg gs && ends_with f ".json")%bool; reflexivity.
Qed.

End Cycle.

Lemma alist_lookup_In {A} k (l : list (string * A)) v :
  alist_lookup k l = Some v -> In (k, v) l.
Proof.
  induction l as [|[k' v'] r IH]; simpl; [discriminate|].
  destruct (String.eqb_spec k' k) as [->|Hne].
  - intros [= ->]. left. reflexivity.
  - intros H. right. apply IH. exact H.
Qed.

Lemma mailboxes_wf_b_sound w : mailboxes_wf_b w = true -> mailboxes_wf w.
Proof.
  unfold mailboxes_wf_b. rewrite andb_true_iff, bool_decide_eq_true, forallb_forall.
  intros [Hg Hall]. split; [exact Hg|].
  intros sg ch fs Hdir. unfold dir_files in Hdir.
  destruct (alist_lookup sg (mailboxes w)) as [mb|] eqn:Hmb; [|discriminate].
  apply alist_lookup_In in Hmb. specialize (Hall _ Hmb). simpl in Hall, Hdir.
  apply andb_true_iff in Hall as [Hm Ht].
  destruct ch; simpl in Hdir; rewrite Hdir in *; simpl in *.
  - apply bool_decide_eq_true in Hm. exact Hm.
  - apply bool_decide_eq_true in Ht. exact Ht.
Qed.

(** C3. Each request file the watcher takes up leaves its mailbox by exactly
    one of two ways: it is unlinked, or it is renamed into the errors
    directory as sourceGroup-filename; never both, and the handling never
    throws. It is renamed exactly when its text does not parse, or parses to
    null, or the processing throws. For a message that is only a rejected
    send of an authorized request; for a task only the two exceptional
    outcomes, which need a request that is complete and authorized. Denied
    and incomplete requests are therefore unlinked. Over a whole poll cycle,
    every .json file found in a channel of a tenant directory is gone at the
    end and was disposed of exactly once; no other file is touched. *)
Theorem request_file_disposed_exactly_once
  (MAIN_GROUP_FOLDER ASSISTANT_NAME : string) (env : Env)
  (registry : gmap string RegisteredGroup) (sg : string) (isMain : bool)
  (file : string) (c : FileContent) (w : World) :
  (find_file sg Messages file w = Some c ->
   let inner := messageWork ASSISTANT_NAME env registry sg isMain c w in
   let o := processMessageFile ASSISTANT_NAME env registry sg isMain file w in
   threw o = false /\
   find_file sg Messages file (final o) = None /\
   (threw inner = false /\ deleted sg Messages file w (final o)
    \/ threw inner = true /\ quarantined sg Messages file c w (final o)) /\
   ~ (deleted sg Messages file w (final o)
      /\ quarantined sg Messages file c w (final o)) /\
   (threw inner = true <->
    (exists raw, c = Unparsable raw) \/ c = JsonNull \/
    (exists d jid text,
       c = JsonObject d /\ p_type d = Some "message" /\
       nonempty (p_chatJid d) = Some jid /\ nonempty (p_text d) = Some text /\
       (isMain || ownsJid registry jid sg)%bool = true /\
       send_rejects env jid (ASSISTANT_NAME +:+ ": " +:+ text) = true)))
  /\
  (find_file sg Tasks file w = Some c ->
   let inner := taskWork env sg isMain c w in
   let o := processTaskFile env sg isMain file w in
   threw o = false /\
   find_file sg Tasks file (final o) = None /\
   (threw inner = false /\ deleted sg Tasks file w (final o)
    \/ threw inner = true /\ quarantined sg Tasks file c w (final o)) /\
   ~ (deleted sg Tasks file w (final o)
      /\ quarantined sg Tasks file c w (final o)) /\
   (threw inner = true <->
    (exists raw, c = Unparsable raw) \/ c = JsonNull \/
    (exists d, c = JsonObject d /\ threw (processTaskIpc env d sg isMain w) = true)) /\
   (forall d, c = JsonObject d ->
      threw (processTaskIpc env d sg isMain w) = true ->
      exceptional env d sg isMain w))
  /\
  (mailboxes_wf w ->
   let o := processIpcFiles MAIN_GROUP_FOLDER ASSISTANT_NAME env w in
   threw o = false /\
   forall sg' ch f,
     find_file sg' ch f (final o)
     = (if processed sg' ch f w then None else find_file sg' ch f w) /\
     disposals sg' ch f (fsLog (final o))
     = (disposals sg' ch f (fsLog w) + if processed sg' ch f w then 1 else 0)%nat).
Proof.
  destruct (file_disposed_once ASSISTANT_NAME env registry sg isMain file c w)
    as [Hm Ht].
  split; [exact Hm|]. split; [exact Ht|].
  apply poll_cycle_sweep.
Qed.

(** * The claims on sample requests *)

(** C2 on a sample: tenant alpha schedules for its own jid with schedule_type
    weekly. *)
Lemma unknown_schedule_type_witness :
  let d := schedulePayload "weekly" "soon" "g1" in
  let w := demo_world "alpha" Tasks (JsonObject d) in
  let o := processTaskIpc demo_env d "alpha" false w in
  groups w !! "g1" = Some (mkGroup "G1" "alpha" "@a" "t0" None None) /\
  threw o = false /\
  exists t,
    tasks (final o) = <[newTaskId demo_env w := t]> (tasks w) /\
    t_next_run t = None /\ t_schedule_type t = "weekly" /\ t_status t = StActive.
Proof.
  intros d w o. split; [reflexivity|].
  apply (unknown_schedule_type_creates_task_without_next_run demo_env d "alpha"
           false "p" "weekly" "soon" "g1"
           (mkGroup "G1" "alpha" "@a" "t0" None None) w);
    try reflexivity; try discriminate.
  right. reflexivity.
Defined.

(** C3 on a sample: a task file of alpha that does not parse. *)
Lemma disposal_witness :
  let c := Unparsable "{oops" in
  let w := demo_world "alpha" Tasks c in
  find_file "alpha" Tasks "r.json" w = Some c /\
  mailboxes_wf w /\
  quarantined "alpha" Tasks "r.json" c w
    (final (processTaskFile demo_env "alpha" false "r.json" w)) /\
  disposals "alpha" Tasks "r.json"
    (fsLog (final (processIpcFiles "main" "Andy" demo_env w))) = 1%nat.
Proof.
  intros c w.
  assert (Hwf : mailboxes_wf w) by (apply mailboxes_wf_b_sound; reflexivity).
  split; [reflexivity|]. split; [exact Hwf|].
  destruct (request_file_disposed_exactly_once "main" "Andy" demo_env demo_groups
              "alpha" false "r.json" c w) as (_ & H & Hcycle).
  split.
  - destruct (H eq_refl) as (_ & _ & [[Hno _] | [_ Hq]] & _).
    + discriminate Hno.
    + exact Hq.
  - destruct (Hcycle Hwf) as [_ Hall].
    destruct (Hall "alpha" Tasks "r.json") as [_ Hcount].
    exact Hcount.
Defined.

(** C4 on a sample: beta pauses its own task. *)
Lemma control_op_witness :
  let d := controlPayload "pause_task" "task-1-aaaaaa" in
  let w := demo_world "beta" Tasks (JsonObject d) in
  p_type d = Some (op_type Pause) /\
  p_taskId d = Some "task-1-aaaaaa" /\
  tasks w !! "" = None /\
  tasks (final (processTaskIpc demo_env d "beta" false w))
    = op_effect Pause "task-1-aaaaaa" (tasks w).
Proof.
  intros d w. repeat (split; [reflexivity|]).
  destruct (control_op_iff_owner_or_main demo_env Pause d "beta" false
              "task-1-aaaaaa" w eq_refl eq_refl eq_refl)
    as (_ & _ & _ & new & _ & [(_ & Ht & _) | (Hna & _)]).
  - exact Ht.
  - exfalso. apply Hna. exists demo_task. split; [reflexivity|].
    right. reflexivity.
Defined.

(** C5 on a sample: an interval of 60000 ms, written with a no-break space
    and a plus sign in front and a unit behind. *)
Lemma interval_witness :
  let sv := String "194"%char (String "160"%char "+60000ms") in
  let d := schedulePayload "interval" sv "g1" in
  let w := demo_world "alpha" Tasks (JsonObject d) in
  let o := processTaskIpc demo_env d "alpha" false w in
  reads_as sv 60000 /\
  threw o = false /\
  exists t,
    tasks (final o) = <[newTaskId demo_env (tick w) := t]> (tasks w) /\
    t_next_run t = Some (toISOString demo_env (1700000000000 + 60000)) /\
    t_schedule_type t = "interval" /\ t_schedule_value t = sv.
Proof.
  intros sv d w o.
  destruct (interval_next_run_by_parseInt demo_env d "alpha" false sv w
              eq_refl eq_refl eq_refl) as (Hread & _ & H).
  assert (Hr : reads_as sv 60000) by (apply Hread; reflexivity).
  split; [exact Hr|].
  apply (H 60000 "p" "g1" (mkGroup "G1" "alpha" "@a" "t0" None None));
    try reflexivity.
  - exact Hr.
  - unfold MAX_TIME. simpl. lia.
  - right. reflexivity.
Defined.

(** C6 on a sample: a one-shot task for an instant in the past. *)
Lemma once_witness :
  let d := schedulePayload "once" "2001-09-09T01:46:40.000Z" "g1" in
  let w := demo_world "alpha" Tasks (JsonObject d) in
  let o := processTaskIpc demo_env d "alpha" false w in
  Date_parse demo_env "2001-09-09T01:46:40.000Z" = Some 1000000000000 /\
  1000000000000 < clock demo_env (ticks w) /\
  threw o = false /\
  exists task,
    tasks (final o) = <[newTaskId demo_env w := task]> (tasks w) /\
    t_next_run task = Some (toISOString demo_env 1000000000000) /\
    t_schedule_type task = "once" /\
    t_schedule_value task = "2001-09-09T01:46:40.000Z".
Proof.
  intros d w o. split; [reflexivity|]. split; [reflexivity|].
  destruct (once_verbatim_and_cron_rejection demo_env d "alpha" false
              "2001-09-09T01:46:40.000Z" w eq_refl eq_refl) as [H _].
  destruct (H eq_refl) as [_ H'].
  apply (H' 1000000000000 "p" "g1" (mkGroup "G1" "alpha" "@a" "t0" None None));
    try reflexivity.
  - discriminate.
  - right. reflexivity.
Defined.

(** C7 on a sample: alpha writes to its own jid. *)
Lemma message_witness :
  let d := messagePayload "g1" "hello" in
  let w := demo_world "alpha" Messages (JsonObject d) in
  let o := processMessageFile "Andy" demo_env demo_groups "alpha" false "r.json" w in
  find_file "alpha" Messages "r.json" w = Some (JsonObject d) /\
  sent (final o) = [("g1", "Andy: hello")] /\
  deleted "alpha" Messages "r.json" w (final o).
Proof.
  intros d w o. split; [reflexivity|].
  destruct (message_sent_iff_main_or_owner "Andy" demo_env demo_groups "alpha"
              false "r.json" d "g1" "hello" w eq_refl eq_refl eq_refl eq_refl)
    as (_ & Hyes & _).
  destruct Hyes as [Hs Hd]; try discriminate.
  { right. exists (mkGroup "G1" "alpha" "@a" "t0" None None).
    split; reflexivity. }
  split; [exact Hs|]. apply Hd. reflexivity.
Defined.

(** C8 on a sample: main schedules for the jid of alpha. *)
Lemma created_task_witness :
  let d := schedulePayload "interval" "60000" "g1" in
  let w := demo_world "main" Tasks (JsonObject d) in
  let o := processTaskIpc demo_env d "main" true w in
  p_type d = Some "schedule_task" /\
  scheduleNextRun demo_env "interval" "60000" w
    = Ok (Some (Some "@1700000060000")) (tick w) /\
  exists t,
    tasks (final o) = <[newTaskId demo_env (tick w) := t]> (tasks w) /\
    t_group_folder t = "alpha" /\ t_chat_jid t = "g1" /\
    t_status t = StActive /\ t_next_run t = Some "@1700000060000" /\
    t_context_mode t = CtxIsolated.
Proof.
  intros d w o. split; [reflexivity|]. split; [reflexivity|].
  destruct (created_task_fields demo_env d "main" true w eq_refl) as [H _].
  destruct (H "p" "interval" "60000" "g1" "@1700000060000"
              (mkGroup "G1" "alpha" "@a" "t0" None None) (tick w)
              eq_refl eq_refl eq_refl eq_refl eq_refl (or_introl eq_refl) eq_refl)
    as (_ & _ & t & Ht & _ & _ & Hn & Hf & Hj & Hs & _ & _ & Hc).
  exists t. repeat split; try assumption.
  apply Hc. discriminate.
Defined.

(** C9 on a sample: main registers a new group. *)
Lemma register_group_witness :
  let d := registerPayload "g9" "Nine" "gamma" "@nine" in
  let w := demo_world "main" Tasks (JsonObject d) in
  let o := processTaskIpc demo_env d "main" true w in
  p_type d = Some "register_group" /\
  groups (final o)
    = <["g9" := mkGroup "Nine" "gamma" "@nine" "@1700000000000" None None]>
        (groups w).
Proof.
  intros d w o. split; [reflexivity|].
  destruct (register_group_main_only demo_env d "main" true w eq_refl)
    as (_ & _ & _ & H).
  exact (H eq_refl).
Defined.


(** C5, counterexample. The value 12abc is not a numeral, yet the request
    is not rejected: a Task is created that is due twelve milliseconds
    after the clock reading. *)
Lemma interval_trailing_text_accepted :
  let d := schedulePayload "interval" "12abc" "g1" in
  let w := demo_world "alpha" Tasks (JsonObject d) in
  let o := processTaskIpc demo_env d "alpha" false w in
  spec_numeric "12abc" = false /\
  threw o = false /\
  tasks (final o) !! "task-1700000000001-k3x9qz"
    = Some (mkTask "task-1700000000001-k3x9qz" "alpha" "g1" "p" "interval"
              "12abc" CtxIsolated (Some "@1700000000012") StActive
              "@1700000000002").
Proof. vm_compute. repeat split; reflexivity. Qed.

(** C9, counterexample. Main sends a register_group request in which jid,
    name, folder and trigger are all present, the name being the empty
    string: the registry does not change. *)
Lemma register_group_empty_name_ignored :
  let d := registerPayload "g9" "" "gamma" "@nine" in
  let w := demo_world "main" Tasks (JsonObject d) in
  let o := processTaskIpc demo_env d "main" true w in
  (present (p_jid d) && present (p_name d) && present (p_folder d)
   && present (p_trigger d))%bool = true /\
  threw o = false /\
  groups (final o) = groups w /\
  groups (final o) !! "g9" = None.
Proof. vm_compute. repeat split; reflexivity. Qed.

(** C7, counterexample. Main drops a message file of type message that has
    a chatJid and a text, the text being the empty string: nothing is handed
    to the send function, and the file is unlinked. *)
Lemma empty_text_from_main_not_sent :
  let d := messagePayload "g1" "" in
  let w := demo_world "main" Messages (JsonObject d) in
  let o := processMessageFile "Andy" demo_env demo_groups "main" true "r.json" w in
  p_type d = Some "message" /\
  (present (p_chatJid d) && present (p_text d))%bool = true /\
  threw o = false /\
  sent (final o) = [] /\
  fsLog (final o) = [Unlink "main" Messages "r.json"].
Proof. vm_compute. repeat split; reflexivity. Qed.

(** * Further properties of the task request processor *)

#[local] Instance tenant_bounds_refl : Reflexive tenant_bounds.
Proof.
  intros w. unfold tenant_bounds. repeat split; try reflexivity.
  exists []. rewrite app_nil_r. auto.
Qed.

#[local] Instance tenant_bounds_trans : Transitive tenant_bounds.
Proof.
  intros a b c (H1 & H2 & n1 & H3 & F1) (H4 & H5 & n2 & H6 & F2).
  unfold tenant_bounds. rewrite H4, H5, H6, H3. repeat split; try assumption.
  exists (n1 ++ n2)%list. rewrite <- app_assoc. split; [reflexivity|].
  rewrite forallb_app, F1, F2. reflexivity.
Qed.

(** A step that changes neither registry nor sent messages nor calls. *)
Ltac bounds_prim :=
  let w := fresh "w" in
  intros w; unfold tenant_bounds; simpl; repeat case_match; simpl;
  repeat split; try reflexivity; exists []; rewrite app_nil_r; auto.

Section TenantBounds.

Variable env : Env.

Lemma log_bounds l msg : keeps tenant_bounds (log l msg).
Proof. bounds_prim. Qed.

Lemma Date_now_bounds : keeps tenant_bounds (Date_now env).
Proof. bounds_prim. Qed.

Lemma random36_bounds : keeps tenant_bounds (random36 env).
Proof. bounds_prim. Qed.

Lemma Date_toISOString_bounds t : keeps tenant_bounds (Date_toISOString env t).
Proof. unfold Date_toISOString. bounds_prim. Qed.

Lemma createTask_bounds t : keeps tenant_bounds (createTask t).
Proof. bounds_prim. Qed.

Lemma getTaskById_bounds id : keeps tenant_bounds (getTaskById id).
Proof. bounds_prim. Qed.

Lemma updateTask_bounds id st : keeps tenant_bounds (updateTask id st).
Proof. bounds_prim. Qed.

Lemma deleteTask_bounds id : keeps tenant_bounds (deleteTask id).
Proof. bounds_prim. Qed.

Lemma dynamic_import_bounds : keeps tenant_bounds (dynamic_import env).
Proof. unfold dynamic_import. bounds_prim. Qed.

Lemma google_call_bounds m d : keeps tenant_bounds (google_call env m d).
Proof.
  intros w. unfold google_call, tenant_bounds.
  destruct (google_fails env m d); simpl;
    repeat split; try reflexivity; exists [GoogleApi m d]; auto.
Qed.

#[local] Hint Resolve log_bounds Date_now_bounds random36_bounds
  Date_toISOString_bounds createTask_bounds getTaskById_bounds
  updateTask_bounds deleteTask_bounds dynamic_import_bounds
  google_call_bounds : keeps.

(** What a request of a tenant other than main can run: the log, the clock,
    the random source, the Task Store operations, and the import and the
    call of the action handlers. A relation that all of these keep is kept
    by the request. *)
Lemma non_main_request_keeps R `{!Reflexive R} `{!Transitive R} :
  (forall l msg, keeps R (log l msg)) ->
  keeps R (Date_now env) ->
  keeps R (random36 env) ->
  (forall t, keeps R (Date_toISOString env t)) ->
  (forall t, keeps R (createTask t)) ->
  (forall id, keeps R (getTaskById id)) ->
  (forall id st, keeps R (updateTask id st)) ->
  (forall id, keeps R (deleteTask id)) ->
  keeps R (dynamic_import env) ->
  (forall m d, keeps R (google_call env m d)) ->
  forall d sg, keeps R (processTaskIpc env d sg false).
Proof.
  intros Hlog Hnow Hrnd Hiso Hcreate Hget Hupd Hdel Himp Hcall d sg.
  destruct (action_handlers_keep env R Hlog Himp Hcall d sg)
    as (H1 & H2 & H3 & H4 & H5 & H6).
  unfold processTaskIpc, processScheduleTask, scheduleNextRun, processPauseTask,
    processResumeTask, processCancelTask, processRefreshGroups,
    processRegisterGroup. simpl.
  apply keeps_bind; try typeclasses eauto.
  { intros w. simpl. reflexivity. }
  keeps_struct.
Qed.

(** X1: whatever a tenant other than main writes into a task file, the
    registry stays as it is, nothing is handed to the send function, and the
    only calls that leave the process are calls of the Google API: no
    metadata resync, no snapshot. *)
Theorem non_main_request_bounds (d : Payload) (sg : string) (w : World) :
  groups (final (processTaskIpc env d sg false w)) = groups w /\
  sent (final (processTaskIpc env d sg false w)) = sent w /\
  exists new,
    calls (final (processTaskIpc env d sg false w)) = (calls w ++ new)%list /\
    forallb is_google_call new = true.
Proof.
  change (tenant_bounds w (final (processTaskIpc env d sg false w))).
  revert w. change (keeps tenant_bounds (processTaskIpc env d sg false)).
  apply non_main_request_keeps; try typeclasses eauto.
  - apply log_bounds.
  - apply Date_now_bounds.
  - apply random36_bounds.
  - apply Date_toISOString_bounds.
  - apply createTask_bounds.
  - apply getTaskById_bounds.
  - apply updateTask_bounds.
  - apply deleteTask_bounds.
  - apply dynamic_import_bounds.
  - apply google_call_bounds.
Qed.

End TenantBounds.

Section MoreRequests.

Variable env : Env.

(** X2: refresh_groups. From a tenant other than main the request only logs
    a warning. From main the metadata resync is forced first and the
    snapshot is then written for the requesting directory, with the
    available groups and the jids registered when the request was taken up;
    when the resync is rejected the call throws before any snapshot is
    written. No case touches Task Store, registry or mailboxes. *)
Theorem refresh_groups_main_only (d : Payload) (sg : string) (isMain : bool)
  (w : World) :
  p_type d = Some "refresh_groups" ->
  let o := processTaskIpc env d sg isMain w in
  store_same w (final o) /\ fs_same w (final o) /\
  (isMain = false ->
   threw o = false /\ calls (final o) = calls w /\
   logs (final o)
   = (logs w ++ [(LWarn, "Unauthorized refresh_groups attempt blocked")])%list) /\
  (isMain = true -> sync_rejects env = false ->
   threw o = false /\
   calls (final o)
   = (calls w ++ [SyncGroupMetadata true;
                  WriteGroupsSnapshot sg true (available_groups env)
                    (dom (groups w))])%list) /\
  (isMain = true -> sync_rejects env = true ->
   threw o = true /\
   calls (final o) = (calls w ++ [SyncGroupMetadata true])%list).
Proof.
  intros Hty o. subst o.
  split; [|split; [apply processTaskIpc_fs|]].
  - unfold processTaskIpc, bind, deps_registeredGroups. rewrite Hty. simpl.
    unfold processRefreshGroups, bind, log, deps_syncGroupMetadata,
      deps_getAvailableGroups, deps_writeGroupsSnapshot, ret, store_same.
    destruct isMain, (sync_rejects env); simpl; auto.
  - unfold processTaskIpc, bind, deps_registeredGroups. rewrite Hty. simpl.
    unfold processRefreshGroups, bind, log, deps_syncGroupMetadata,
      deps_getAvailableGroups, deps_writeGroupsSnapshot, ret.
    split; [|split]; intros ->.
    + simpl. auto.
    + intros ->. simpl. rewrite <- app_assoc. auto.
    + intros ->. simpl. auto.
Qed.

(** X3: a task file whose type is missing or is none of the twelve known
    literals (they are compared exactly, case included) leaves one warning
    in the log and changes nothing else. *)
Theorem unknown_type_only_warns (d : Payload) (sg : string) (isMain : bool)
  (w : World) :
  is_known_type (p_type d) = false ->
  processTaskIpc env d sg isMain w
  = Ok tt (add_log (LWarn, "Unknown IPC task type") w).
Proof.
  intros Hty. unfold processTaskIpc, bind, deps_registeredGroups.
  destruct (p_type d) as [ty|]; [|reflexivity].
  unfold is_known_type, mem, known_types in Hty. simpl in Hty.
  rewrite !orb_false_iff in Hty.
  destruct Hty as (T1 & T2 & T3 & T4 & T5 & T6 & T7 & T8 & T9 & T10 & T11 & T12 & _).
  unfold is_lit.
  rewrite T1, T2, T3, T4, T5, T6, T7, T8, T9, T10, T11, T12. reflexivity.
Qed.

End MoreRequests.

Section TaskStore.

Variable env : Env.

Lemma scheduleNextRun_counters st sv w r w1 :
  scheduleNextRun env st sv w = Ok r w1 ->
  (ticks w1 = ticks w \/ ticks w1 = S (ticks w)) /\ draws w1 = draws w.
Proof.
  unfold scheduleNextRun, bind, Date_now, Date_toISOString, log, ret, throw.
  repeat case_match; intros; simplify_eq /=; auto.
Qed.

Lemma newTaskId_counters w w1 :
  ticks w1 = ticks w -> draws w1 = draws w -> newTaskId env w1 = newTaskId env w.
Proof. unfold newTaskId. intros -> ->. reflexivity. Qed.

(** What one request can do to the Task Store: nothing, one insertion under
    a generated id, or one control operation the requester may perform. *)
Lemma request_effect_on_tasks d sg isMain w :
  let ts' := tasks (final (processTaskIpc env d sg isMain w)) in
  ts' = tasks w \/
  (exists id t tj g,
     (id = newTaskId env w \/ id = newTaskId env (tick w)) /\
     ts' = <[id := t]> (tasks w) /\ t_id t = id /\
     groups w !! tj = Some g /\ (isMain = true \/ g_folder g = sg) /\
     t_group_folder t = g_folder g /\ t_status t = StActive) \/
  (exists op id,
     mayControl (tasks w !! id) sg isMain = true /\
     ts' = op_effect op id (tasks w)).
Proof.
  intros ts'. subst ts'.
  destruct (is_action_type (p_type d)) eqn:Hact.
  { destruct (processTaskIpc_action env d sg isMain w Hact) as (_ & -> & _). auto. }
  destruct (is_lit (p_type d) "schedule_task") eqn:Hs.
  - apply is_lit_true in Hs.
    destruct (schedule_task_cases d sg isMain w)
      as [Hden | (prompt & st & sv & tj & g & Hp & Hst & Hsv & Htj & Hg & Hauth)].
    + destruct (schedule_task_denied env d sg isMain w Hs Hden) as (_ & -> & _).
      auto.
    + rewrite (schedule_task_authorized env d sg isMain w prompt st sv tj g)
        by assumption.
      pose proof (scheduleNextRun_store env st sv w) as (Ht & _ & _).
      destruct (scheduleNextRun env st sv w) as [[nr|] w1 | e w1] eqn:Hrun;
        simpl in Ht |- *; rewrite ?Ht; auto.
      right. left.
      apply scheduleNextRun_counters in Hrun as [Hticks Hdraws].
      eexists _, _, tj, g. split; [|repeat split; try reflexivity; assumption].
      destruct Hticks as [Hk|Hk]; [left | right];
        apply newTaskId_counters; simpl; assumption.
  - unfold processTaskIpc, bind, deps_registeredGroups. rewrite Hs.
    unfold processPauseTask, processResumeTask, processCancelTask,
      processRefreshGroups, processRegisterGroup, deps_syncGroupMetadata,
      deps_getAvailableGroups, deps_writeGroupsSnapshot, deps_registerGroup,
      getTaskById, updateTask, deleteTask, Date_now.
    unfold is_action_type in Hact. rewrite !orb_false_iff in Hact.
    destruct Hact as (((((A1 & A2) & A3) & A4) & A5) & A6).
    rewrite A1, A2, A3, A4, A5, A6.
    destruct (is_lit (p_type d) "pause_task");
      [|destruct (is_lit (p_type d) "resume_task");
        [|destruct (is_lit (p_type d) "cancel_task")]].
    1-3: destruct (nonempty (p_taskId d)) as [id|]; simpl; auto;
         unfold bind; simpl;
         destruct (mayControl (tasks w !! id) sg isMain) eqn:Hmc; simpl; auto;
         right; right.
    + exists Pause, id. auto.
    + exists Resume, id. auto.
    + exists Cancel, id. auto.
    + run_handler.
Qed.

Lemma with_status_same t : with_status (t_status t) t = t.
Proof. destruct t. reflexivity. Qed.

Lemma with_status_twice st st' t :
  with_status st (with_status st' t) = with_status st t.
Proof. destruct t. reflexivity. Qed.

Lemma lookup_op_effect_ne op id id' (ts : gmap string ScheduledTask) :
  id <> id' -> op_effect op id ts !! id' = ts !! id'.
Proof.
  intros Hne. destruct op; simpl.
  - apply lookup_alter_ne. exact Hne.
  - apply lookup_alter_ne. exact Hne.
  - apply lookup_delete_ne. exact Hne.
Qed.

Lemma lookup_op_effect_eq op id (ts : gmap string ScheduledTask) :
  op_effect op id ts !! id =
  match op with
  | Pause => with_status StPaused <$> ts !! id
  | Resume => with_status StActive <$> ts !! id
  | Cancel => None
  end.
Proof.
  destruct op; simpl.
  - apply lookup_alter_eq.
  - apply lookup_alter_eq.
  - apply lookup_delete_eq.
Qed.

(** X4: tenant isolation on the Task Store. Whatever a tenant other than main
    submits, a stored task that belongs to another folder stays exactly as
    it is (its id not being the id generated for a task created by this very
    request), and every entry that is new or different afterwards belongs to
    the requester's own folder. *)
Theorem foreign_tasks_untouched (d : Payload) (sg : string) (w : World) :
  let ts' := tasks (final (processTaskIpc env d sg false w)) in
  (forall id t,
     tasks w !! id = Some t -> t_group_folder t <> sg ->
     id <> newTaskId env w -> id <> newTaskId env (tick w) ->
     ts' !! id = Some t) /\
  (forall id t',
     ts' !! id = Some t' -> tasks w !! id <> Some t' -> t_group_folder t' = sg).
Proof.
  intros ts'. subst ts'.
  destruct (request_effect_on_tasks d sg false w)
    as [-> | [(nid & t & tj & g & Hid & -> & _ & _ & Hauth & Hf & _)
             | (op & oid & Hmc & ->)]].
  - split; [auto | intros; contradiction].
  - destruct Hauth as [? | Hg]; [discriminate|]. split.
    + intros id t0 Hin _ H1 H2. rewrite lookup_insert_ne; [exact Hin|].
      destruct Hid; congruence.
    + intros id t'. destruct (decide (nid = id)) as [->|Hne].
      * rewrite lookup_insert_eq. intros [= <-] _. congruence.
      * rewrite lookup_insert_ne by exact Hne. intros; contradiction.
  - apply mayControl_true in Hmc as (t0 & Ht0 & [? | Hown]); [discriminate|].
    split.
    + intros id t Hin Hforeign _ _.
      rewrite lookup_op_effect_ne; [exact Hin|]. intros ->. congruence.
    + intros id t'. destruct (decide (oid = id)) as [->|Hne].
      * rewrite lookup_op_effect_eq, Ht0.
        destruct op; simpl; intros [= <-] _; destruct t0; exact Hown.
      * rewrite lookup_op_effect_ne by exact Hne. intros; contradiction.
Qed.


End TaskStore.

Section ControlOps.

Variable env : Env.

Lemma control_op_tasks op d sg isMain w id :
  p_type d = Some (op_type op) ->
  nonempty (p_taskId d) = Some id ->
  threw (processTaskIpc env d sg isMain w) = false /\
  tasks (final (processTaskIpc env d sg isMain w))
  = if mayControl (tasks w !! id) sg isMain then op_effect op id (tasks w)
    else tasks w.
Proof.
  intros Hty Hid.
  unfold processTaskIpc, bind, deps_registeredGroups. rewrite Hty.
  destruct op; simpl;
    unfold processPauseTask, processResumeTask, processCancelTask; rewrite Hid;
    unfold bind, getTaskById, updateTask, deleteTask, log;
    destruct (mayControl (tasks w !! id) sg isMain); simpl; auto.
Qed.

Lemma alter_present (f : ScheduledTask -> ScheduledTask) id t
  (ts : gmap string ScheduledTask) :
  ts !! id = Some t -> alter f id ts = <[id := f t]> ts.
Proof.
  intros Hin. apply map_eq. intros k.
  destruct (decide (id = k)) as [->|Hne].
  - rewrite lookup_alter_eq, lookup_insert_eq, Hin. reflexivity.
  - rewrite lookup_alter_ne, lookup_insert_ne by exact Hne. reflexivity.
Qed.

(** X6: how the control operations compose, for a requester who is main or
    owns the task. Pause followed by resume leaves the task active and the
    rest of the store as it was, so an active task is back where it started;
    pausing twice is pausing once; after a cancel the record is gone, and
    any further pause, resume or cancel of that id changes nothing and does
    not throw. *)
Theorem control_ops_compose (pd rd cd : Payload) (sg : string)
  (isMain : bool) (id : string) (t : ScheduledTask) (w : World) :
  p_type pd = Some "pause_task" -> nonempty (p_taskId pd) = Some id ->
  p_type rd = Some "resume_task" -> nonempty (p_taskId rd) = Some id ->
  p_type cd = Some "cancel_task" -> nonempty (p_taskId cd) = Some id ->
  tasks w !! id = Some t ->
  isMain = true \/ t_group_folder t = sg ->
  let run := fun d w0 => final (processTaskIpc env d sg isMain w0) in
  tasks (run rd (run pd w)) = <[id := with_status StActive t]> (tasks w) /\
  (t_status t = StActive -> tasks (run rd (run pd w)) = tasks w) /\
  tasks (run pd (run pd w)) = tasks (run pd w) /\
  tasks (run cd w) = delete id (tasks w) /\
  (forall op d',
     p_type d' = Some (op_type op) -> nonempty (p_taskId d') = Some id ->
     threw (processTaskIpc env d' sg isMain (run cd w)) = false /\
     tasks (run d' (run cd w)) = tasks (run cd w)).
Proof.
  intros Hp Hpid Hr Hrid Hc Hcid Hin Hauth run. subst run. simpl.
  assert (Hmc : forall st, mayControl (Some (with_status st t)) sg isMain = true).
  { intros st. apply mayControl_true. eexists. split; [reflexivity|].
    destruct t; exact Hauth. }
  assert (Hmc0 : mayControl (tasks w !! id) sg isMain = true).
  { apply mayControl_true. eauto. }
  destruct (control_op_tasks Pause pd sg isMain w id Hp Hpid) as [_ Hp1].
  rewrite Hmc0 in Hp1. simpl in Hp1.
  assert (Hpl : tasks (final (processTaskIpc env pd sg isMain w)) !! id
                = Some (with_status StPaused t)).
  { rewrite Hp1, lookup_alter_eq, Hin. reflexivity. }
  assert (Hpr : tasks (final (processTaskIpc env rd sg isMain
                                (final (processTaskIpc env pd sg isMain w))))
                = <[id := with_status StActive t]> (tasks w)).
  { destruct (control_op_tasks Resume rd sg isMain
                (final (processTaskIpc env pd sg isMain w)) id Hr Hrid) as [_ E].
    rewrite Hpl, Hmc in E. rewrite E. simpl.
    rewrite (alter_present _ id _ _ Hpl), with_status_twice, Hp1.
    rewrite (alter_present _ id _ _ Hin). apply insert_insert_eq. }
  split; [exact Hpr|]. split; [|split; [|split]].
  - intros Hst. rewrite Hpr. apply insert_id. rewrite Hin. f_equal.
    rewrite <- Hst. symmetry. apply with_status_same.
  - destruct (control_op_tasks Pause pd sg isMain
                (final (processTaskIpc env pd sg isMain w)) id Hp Hpid) as [_ E].
    rewrite Hpl, Hmc in E. rewrite E. simpl.
    rewrite (alter_present _ id _ _ Hpl), with_status_twice.
    apply insert_id. exact Hpl.
  - destruct (control_op_tasks Cancel cd sg isMain w id Hc Hcid) as [_ E].
    rewrite Hmc0 in E. exact E.
  - intros op d' Hty Hid'.
    destruct (control_op_tasks Cancel cd sg isMain w id Hc Hcid) as [_ E].
    rewrite Hmc0 in E. simpl in E.
    destruct (control_op_tasks op d' sg isMain
                (final (processTaskIpc env cd sg isMain w)) id Hty Hid')
      as [Hno E'].
    split; [exact Hno|]. rewrite E'.
    rewrite E at 1. rewrite lookup_delete_eq. reflexivity.
Qed.

End ControlOps.

Section MoreSchedules.

Variable env : Env.

(** X7: a complete and authorized cron request whose expression the parser
    accepts creates a Task whose next_run is the next occurrence the parser
    gives for the clock reading at that moment; the raw expression is stored
    unchanged. *)
Theorem cron_next_run_from_parser (d : Payload) (sg : string) (isMain : bool)
  (prompt sv tj : string) (g : RegisteredGroup) (t : Z) (w : World) :
  p_type d = Some "schedule_task" ->
  p_schedule_type d = Some "cron" ->
  nonempty (p_prompt d) = Some prompt ->
  nonempty (p_schedule_value d) = Some sv ->
  nonempty (p_targetJid d) = Some tj ->
  groups w !! tj = Some g ->
  isMain = true \/ g_folder g = sg ->
  cron_next env sv (clock env (ticks w)) = Some t ->
  let o := processTaskIpc env d sg isMain w in
  threw o = false /\
  exists task,
    tasks (final o) = <[newTaskId env (tick w) := task]> (tasks w) /\
    t_next_run task = Some (toISOString env t) /\
    t_schedule_type task = "cron" /\ t_schedule_value task = sv /\
    t_status task = StActive.
Proof.
  intros Hty Hst Hp Hsv Htj Hg Hauth Hcron o. subst o.
  assert (Hst' : nonempty (p_schedule_type d) = Some "cron")
    by (apply nonempty_Some; split; [assumption | discriminate]).
  rewrite (schedule_task_authorized env d sg isMain w prompt "cron" sv tj g)
    by assumption.
  unfold scheduleNextRun, bind, Date_now. simpl. rewrite Hcron. simpl.
  split; [reflexivity|]. eexists. split; [reflexivity|]. simpl. auto.
Qed.

(** X8: an interval that leads past the last instant a Date can hold. The
    request passes every check, [toISOString] throws a RangeError, no Task
    is created, and the watcher moves the request file to the errors
    directory instead of deleting it. *)
Theorem interval_overflow_is_quarantined (d : Payload) (sg : string)
  (isMain : bool) (file prompt sv tj : string) (g : RegisteredGroup)
  (ms : Z) (w : World) :
  find_file sg Tasks file w = Some (JsonObject d) ->
  p_type d = Some "schedule_task" ->
  p_schedule_type d = Some "interval" ->
  nonempty (p_prompt d) = Some prompt ->
  nonempty (p_schedule_value d) = Some sv ->
  nonempty (p_targetJid d) = Some tj ->
  groups w !! tj = Some g ->
  isMain = true \/ g_folder g = sg ->
  parseInt10 sv = Some ms -> 0 < ms ->
  MAX_TIME < Z.abs (clock env (ticks w) + ms) ->
  let o := processTaskIpc env d sg isMain w in
  let o' := processTaskFile env sg isMain file w in
  o = Throw (RangeError "Invalid time value") (tick w) /\
  threw o' = false /\
  tasks (final o') = tasks w /\
  quarantined sg Tasks file (JsonObject d) w (final o').
Proof.
  intros Hfile Hty Hst Hp Hsv Htj Hg Hauth Hpi Hpos Hover o o'. subst o o'.
  assert (Hst' : nonempty (p_schedule_type d) = Some "interval")
    by (apply nonempty_Some; split; [assumption | discriminate]).
  assert (Hrun : processTaskIpc env d sg isMain w
                 = Throw (RangeError "Invalid time value") (tick w)).
  { rewrite (schedule_task_authorized env d sg isMain w prompt "interval" sv tj g)
      by assumption.
    unfold scheduleNextRun, bind, Date_now, Date_toISOString. simpl.
    rewrite Hpi.
    assert (H1 : (ms <=? 0)%Z = false) by (apply Z.leb_gt; lia).
    assert (H2 : (Z.abs (clock env (ticks w) + ms) <=? MAX_TIME)%Z = false)
      by (apply Z.leb_gt; lia).
    rewrite H1. simpl. rewrite H2. reflexivity. }
  split; [exact Hrun|].
  destruct (file_disposal Tasks sg file "Error processing IPC task"
              (taskWork env sg isMain) _ w _ Hfile (taskWork_fs env sg isMain _)
              (processTaskFile_pattern env sg isMain file w))
    as (H1 & _ & (H3 & _) & H4).
  unfold taskWork, bind in H3, H4. simpl in H3, H4. rewrite Hrun in H3, H4.
  simpl in H3, H4.
  split; [exact H1|]. split; [exact H3|].
  destruct H4 as [[Hno _] | [_ Hq]]; [discriminate | exact Hq].
Qed.

End MoreSchedules.

(** * Further properties of the watcher *)

Lemma try_catch_log_returns (c : M unit) l msg w :
  threw (try_catch c (fun _ : Exn => log l msg) w) = false.
Proof. unfold try_catch. destruct (c w); reflexivity. Qed.

Lemma string_app_length (s t : string) :
  String.length (s +:+ t) = (String.length s + String.length t)%nat.
Proof. induction s as [|a s IH]; simpl; [reflexivity | rewrite IH; reflexivity]. Qed.

Lemma string_app_inv_tail (s1 s2 t : string) : s1 +:+ t = s2 +:+ t -> s1 = s2.
Proof.
  revert s2. induction s1 as [|a s1 IH]; intros [|b s2] H.
  - reflexivity.
  - apply (f_equal String.length) in H.
    rewrite !string_app_length in H. simpl in H. lia.
  - apply (f_equal String.length) in H.
    rewrite !string_app_length in H. simpl in H. lia.
  - change (String a (s1 +:+ t) = String b (s2 +:+ t)) in H.
    injection H as -> H. f_equal. apply IH, H.
Qed.

Lemma quarantine_name_inj_file sg f1 f2 :
  sg +:+ "-" +:+ f1 = sg +:+ "-" +:+ f2 -> f1 = f2.
Proof.
  intros H. apply (inj (String.append sg)) in H.
  apply (inj (String.append "-")) in H. exact H.
Qed.

Lemma quarantine_name_inj_tenant sg1 sg2 f :
  sg1 +:+ "-" +:+ f = sg2 +:+ "-" +:+ f -> sg1 = sg2.
Proof.
  intros H.
  assert (Ha : forall a b c : string, a +:+ b +:+ c = (a +:+ b) +:+ c).
  { intros a b c. induction a as [|x a IH]; [reflexivity|].
    change (String x (a +:+ b +:+ c) = String x ((a +:+ b) +:+ c)).
    rewrite IH. reflexivity. }
  rewrite !Ha in H. apply string_app_inv_tail in H.
  apply string_app_inv_tail in H. exact H.
Qed.

Section MailboxLevel.

Variable MAIN_GROUP_FOLDER : string.
Variable ASSISTANT_NAME : string.
Variable env : Env.

Lemma processMessagesDir_returns sg isMain w :
  threw (processMessagesDir ASSISTANT_NAME env sg isMain w) = false.
Proof. unfold processMessagesDir. apply try_catch_log_returns. Qed.

Lemma processTasksDir_returns sg isMain w :
  threw (processTasksDir env sg isMain w) = false.
Proof. unfold processTasksDir. apply try_catch_log_returns. Qed.

Lemma processGroup_returns sg w :
  threw (processGroup MAIN_GROUP_FOLDER ASSISTANT_NAME env sg w) = false.
Proof.
  unfold processGroup, bind.
  pose proof (processMessagesDir_returns sg (isMainGroup MAIN_GROUP_FOLDER sg) w) as H.
  destruct (processMessagesDir _ _ _ _ w); [|discriminate].
  apply processTasksDir_returns.
Qed.

Lemma for_each_returns {A} (body : A -> M unit) :
  (forall x w, threw (body x w) = false) ->
  forall l w, threw (for_each l body w) = false.
Proof.
  intros Hb l. induction l as [|x r IH]; intros w; simpl; [reflexivity|].
  unfold bind. specialize (Hb x w). destruct (body x w); [apply IH | discriminate].
Qed.

Lemma processIpcFiles_returns w :
  threw (processIpcFiles MAIN_GROUP_FOLDER ASSISTANT_NAME env w) = false.
Proof.
  unfold processIpcFiles, bind, readdir_groups.
  apply for_each_returns. intros. apply processGroup_returns.
Qed.

(** A directory without request files is read and left alone. *)
Lemma dir_idle sg ch (body : string -> M unit) msg w :
  (forall f, (ends_with f ".json" && exists_file sg ch f w)%bool = false) ->
  try_catch
    (do listing <- readdir_json sg ch ;
     match listing with
     | Some files => for_each files body
     | None => ret tt
     end)
    (fun err => log LError msg) w = Ok tt w.
Proof.
  intros Hidle. unfold try_catch, bind, readdir_json.
  destruct (alist_lookup sg (mailboxes w)) as [mb|] eqn:Hmb; [|reflexivity].
  destruct (chan_files ch mb) as [fs|] eqn:Hfs; simpl; [|reflexivity].
  assert (Hd : dir_files sg ch (mailboxes w) = Some fs).
  { unfold dir_files. rewrite Hmb. simpl. exact Hfs. }
  assert (Hnil : List.filter (fun f => ends_with f ".json") (fst <$> fs) = []).
  { destruct (List.filter _ _) as [|f r] eqn:Hl; [reflexivity|].
    assert (Hm : mem f (List.filter (fun n => ends_with n ".json") (fst <$> fs)) = true).
    { rewrite Hl. simpl. rewrite String.eqb_refl. reflexivity. }
    apply mem_json_listing in Hm as [Hj Hin].
    apply (exists_file_elem sg ch f w fs Hd) in Hin.
    specialize (Hidle f). rewrite Hj, Hin in Hidle. discriminate. }
  rewrite Hnil. reflexivity.
Qed.

Lemma processGroup_idle sg w :
  (forall ch f, (ends_with f ".json" && exists_file sg ch f w)%bool = false) ->
  processGroup MAIN_GROUP_FOLDER ASSISTANT_NAME env sg w = Ok tt w.
Proof.
  intros Hidle. unfold processGroup, bind.
  unfold processMessagesDir. rewrite dir_idle by apply Hidle.
  unfold processTasksDir. apply dir_idle, Hidle.
Qed.

Lemma processIpcFiles_idle w :
  (forall sg ch f, processed sg ch f w = false) ->
  processIpcFiles MAIN_GROUP_FOLDER ASSISTANT_NAME env w = Ok tt w.
Proof.
  intros Hidle. unfold processIpcFiles, bind, readdir_groups.
  assert (H : forall gs,
             (forall sg, sg ∈ gs -> String.eqb sg "errors" = false) ->
             for_each gs (processGroup MAIN_GROUP_FOLDER ASSISTANT_NAME env) w = Ok tt w).
  { induction gs as [|sg r IH]; intros Hgs; simpl; [reflexivity|].
    unfold bind. rewrite processGroup_idle.
    - apply IH. intros s Hs. apply Hgs. right. exact Hs.
    - intros ch f. specialize (Hidle sg ch f). unfold processed in Hidle.
      rewrite (Hgs sg) in Hidle by left. simpl in Hidle.
      destruct (ends_with f ".json"); simpl in *; [exact Hidle | reflexivity]. }
  apply H. intros sg Hsg. apply list_elem_of_In, filter_In in Hsg as [_ Hsg].
  destruct (String.eqb sg "errors"); [discriminate | reflexivity].
Qed.

Lemma find_file_same_mailboxes sg ch f w w' :
  mailboxes w' = mailboxes w -> find_file sg ch f w' = find_file sg ch f w.
Proof. intros H. unfold find_file. rewrite H. reflexivity. Qed.

(** X9: a request file that is gone when its turn comes does not stop the
    watcher. Reading it fails, and so does the rename in the catch block, so
    the per-file handler itself throws, after the error line and the mkdir;
    the try/catch around the directory catches that. A visit of a directory
    and a whole poll cycle therefore return whatever the mailboxes hold, and
    the statement that re-arms the timer after the loop is always reached. *)
Theorem missing_file_is_not_fatal (w : World) :
  (forall registry sg isMain file,
     find_file sg Messages file w = None ->
     processMessageFile ASSISTANT_NAME env registry sg isMain file w
     = Throw (ENOENT file)
         (final ((do _ <- log LError "Error processing IPC message" ;
                  mkdirSync "errors") w))) /\
  (forall sg isMain file,
     find_file sg Tasks file w = None ->
     processTaskFile env sg isMain file w
     = Throw (ENOENT file)
         (final ((do _ <- log LError "Error processing IPC task" ;
                  mkdirSync "errors") w))) /\
  (forall sg, threw (processGroup MAIN_GROUP_FOLDER ASSISTANT_NAME env sg w) = false) /\
  threw (processIpcFiles MAIN_GROUP_FOLDER ASSISTANT_NAME env w) = false.
Proof.
  split; [|split; [|split]].
  - intros registry sg isMain file Hf.
    unfold processMessageFile, try_catch, bind, readFileSync. rewrite Hf.
    unfold log, mkdirSync, renameSync. cbv beta iota.
    rewrite (find_file_same_mailboxes sg Messages file w) by reflexivity.
    rewrite Hf. reflexivity.
  - intros sg isMain file Hf.
    unfold processTaskFile, try_catch, bind, readFileSync. rewrite Hf.
    unfold log, mkdirSync, renameSync. cbv beta iota.
    rewrite (find_file_same_mailboxes sg Tasks file w) by reflexivity.
    rewrite Hf. reflexivity.
  - intros sg. apply processGroup_returns.
  - apply processIpcFiles_returns.
Qed.

(** X10: a poll cycle is silent exactly when there is nothing to take up. A
    cycle that finds no .json file in any channel of any directory other
    than errors does nothing at all: no log line, no send, no file-system
    operation, no change of the Task Store or the registry. And when no
    directory lists a name twice, a cycle that changes nothing has found no
    such file. *)
Theorem idle_cycle_is_silent (w : World) :
  ((forall sg ch f, processed sg ch f w = false) ->
   processIpcFiles MAIN_GROUP_FOLDER ASSISTANT_NAME env w = Ok tt w) /\
  (mailboxes_wf w ->
   processIpcFiles MAIN_GROUP_FOLDER ASSISTANT_NAME env w = Ok tt w ->
   forall sg ch f, processed sg ch f w = false).
Proof.
  split; [apply processIpcFiles_idle|].
  intros Hwf Hsame sg ch f.
  destruct (poll_cycle_sweep MAIN_GROUP_FOLDER ASSISTANT_NAME env w Hwf) as [_ H].
  destruct (H sg ch f) as [Hf _]. rewrite Hsame in Hf. simpl in Hf.
  destruct (processed sg ch f w) eqn:Hp; [|reflexivity].
  unfold processed, exists_file in Hp. rewrite Hf in Hp.
  rewrite andb_false_r in Hp. discriminate Hp.
Qed.

(** X11: one cycle leaves nothing behind for the next one: when no directory
    lists a name twice and no new file arrives, the cycle that follows is
    silent, so no request is ever processed a second time. *)
Theorem second_cycle_is_silent (w : World) :
  mailboxes_wf w ->
  let w1 := final (processIpcFiles MAIN_GROUP_FOLDER ASSISTANT_NAME env w) in
  processIpcFiles MAIN_GROUP_FOLDER ASSISTANT_NAME env w1 = Ok tt w1.
Proof.
  intros Hwf w1. apply processIpcFiles_idle. intros sg ch f.
  destruct (poll_cycle_sweep MAIN_GROUP_FOLDER ASSISTANT_NAME env w Hwf) as [_ H].
  destruct (H sg ch f) as [Hf _]. fold w1 in Hf.
  unfold processed, exists_file in *. rewrite Hf.
  destruct (negb (String.eqb sg "errors")); simpl; [|reflexivity].
  destruct (ends_with f ".json"); simpl; [|reflexivity].
  destruct (find_file sg ch f w); reflexivity.
Qed.

End MailboxLevel.

(** ** What a tenant's mailbox can send *)

#[local] Instance sends_own_refl N sg : Reflexive (sends_own N sg).
Proof.
  intros w. split; [reflexivity|]. exists []. rewrite app_nil_r.
  split; [reflexivity|]. intros jid text H. inversion H.
Qed.

#[local] Instance sends_own_trans N sg : Transitive (sends_own N sg).
Proof.
  intros a b c (G1 & n1 & S1 & F1) (G2 & n2 & S2 & F2). split; [congruence|].
  exists (n1 ++ n2)%list. split.
  - rewrite S2, S1, <- app_assoc. reflexivity.
  - intros jid text [H|H]%elem_of_app; [apply F1, H|].
    rewrite <- G1. apply F2, H.
Qed.

Lemma sends_own_same N sg w w' :
  groups w' = groups w -> sent w' = sent w -> sends_own N sg w w'.
Proof.
  intros Hg Hs. split; [exact Hg|]. exists []. rewrite app_nil_r.
  split; [exact Hs|]. intros jid text H. inversion H.
Qed.

Ltac own_prim :=
  let w := fresh "w" in
  intros w; apply sends_own_same; simpl; repeat case_match; reflexivity.

Section OwnSends.

Variable MAIN_GROUP_FOLDER : string.
Variable ASSISTANT_NAME : string.
Variable env : Env.
Variable sg : string.

Lemma log_own l msg : keeps (sends_own ASSISTANT_NAME sg) (log l msg).
Proof. own_prim. Qed.

Lemma readFileSync_own g ch f : keeps (sends_own ASSISTANT_NAME sg) (readFileSync g ch f).
Proof. unfold readFileSync. own_prim. Qed.

Lemma unlinkSync_own g ch f : keeps (sends_own ASSISTANT_NAME sg) (unlinkSync g ch f).
Proof. unfold unlinkSync. own_prim. Qed.

Lemma mkdirSync_own d : keeps (sends_own ASSISTANT_NAME sg) (mkdirSync d).
Proof. own_prim. Qed.

Lemma renameSync_own g ch f t : keeps (sends_own ASSISTANT_NAME sg) (renameSync g ch f t).
Proof. unfold renameSync. own_prim. Qed.

Lemma JSON_parse_own c : keeps (sends_own ASSISTANT_NAME sg) (JSON_parse c).
Proof. unfold JSON_parse. own_prim. Qed.

Lemma readdir_json_own g ch : keeps (sends_own ASSISTANT_NAME sg) (readdir_json g ch).
Proof. unfold readdir_json. own_prim. Qed.

Lemma processTaskIpc_own d : keeps (sends_own ASSISTANT_NAME sg) (processTaskIpc env d sg false).
Proof.
  apply non_main_request_keeps; try typeclasses eauto; intros;
    try unfold Date_toISOString; try unfold dynamic_import;
    try unfold google_call; own_prim.
Qed.

Lemma messageWork_own c w :
  (sends_own ASSISTANT_NAME sg) w (final (messageWork ASSISTANT_NAME env (groups w) sg false c w)).
Proof.
  unfold messageWork, bind. destruct c as [raw| |d]; simpl; try reflexivity.
  destruct (is_lit (p_type d) "message"); [|reflexivity].
  destruct (nonempty (p_chatJid d)) as [jid|]; [|reflexivity].
  destruct (nonempty (p_text d)) as [text|]; [|reflexivity].
  destruct (ownsJid (groups w) jid sg) eqn:Hown; simpl.
  - assert (H : (sends_own ASSISTANT_NAME sg) w (add_sent (jid, ASSISTANT_NAME +:+ ": " +:+ text) w)).
    { split; [reflexivity|].
      exists [(jid, ASSISTANT_NAME +:+ ": " +:+ text)]. split; [reflexivity|].
      intros j t Hin. apply list_elem_of_singleton in Hin. injection Hin as -> ->.
      split; [exact Hown | exists text; reflexivity]. }
    unfold deps_sendMessage.
    destruct (send_rejects env jid (ASSISTANT_NAME +:+ ": " +:+ text)); simpl.
    + exact H.
    + etransitivity; [exact H | apply log_own].
  - apply log_own.
Qed.

Lemma message_file_own file :
  keeps (sends_own ASSISTANT_NAME sg) (do registeredGroups <- deps_registeredGroups ;
             processMessageFile ASSISTANT_NAME env registeredGroups sg false file).
Proof.
  intros w. unfold bind at 1. unfold deps_registeredGroups.
  destruct (find_file sg Messages file w) as [c|] eqn:Hf.
  - destruct (file_disposal Messages sg file
                "Error processing IPC message"
                (messageWork ASSISTANT_NAME env (groups w) sg false) c w _ Hf
                (messageWork_fs ASSISTANT_NAME env (groups w) sg false c)
                (processMessageFile_pattern ASSISTANT_NAME env (groups w) sg false file w))
      as (_ & _ & (Ht & Hg & Hs) & _).
    pose proof (messageWork_own c w) as (G & n & S & F).
    split; [congruence|]. exists n. split; [congruence | exact F].
  - assert (Hr : forall w', mailboxes w' = mailboxes w ->
                        find_file sg Messages file w' = None).
    { intros w' Hm. unfold find_file in *. rewrite Hm. exact Hf. }
    apply sends_own_same;
      unfold processMessageFile, try_catch, bind, readFileSync; rewrite Hf;
      unfold log, mkdirSync, renameSync; cbv beta iota;
      rewrite Hr by reflexivity; reflexivity.
Qed.

Lemma processMessagesDir_own :
  keeps (sends_own ASSISTANT_NAME sg) (processMessagesDir ASSISTANT_NAME env sg false).
Proof.
  unfold processMessagesDir.
  apply keeps_try_catch; try typeclasses eauto; [|intros; apply log_own].
  apply keeps_bind; try typeclasses eauto; [apply readdir_json_own|].
  intros [files|]; [|apply keeps_ret; typeclasses eauto].
  apply keeps_for_each; try typeclasses eauto. apply message_file_own.
Qed.

Lemma processTasksDir_own : keeps (sends_own ASSISTANT_NAME sg) (processTasksDir env sg false).
Proof.
  unfold processTasksDir, processTaskFile.
  pose proof log_own. pose proof readFileSync_own. pose proof unlinkSync_own.
  pose proof mkdirSync_own. pose proof renameSync_own. pose proof JSON_parse_own.
  pose proof readdir_json_own. pose proof processTaskIpc_own.
  keeps_struct.
Qed.

(** X12: a directory other than main's can only make the process send to its
    own chats. Over a whole visit of the directory (all message files, then
    all task files) the registry stays as it is and every text handed to the
    send function goes to a jid registered to that directory and starts
    with the assistant's name. *)
Theorem tenant_mailbox_sends_only_to_own_chats (w : World) :
  sg <> MAIN_GROUP_FOLDER ->
  let o := processGroup MAIN_GROUP_FOLDER ASSISTANT_NAME env sg w in
  threw o = false /\
  groups (final o) = groups w /\
  exists new,
    sent (final o) = (sent w ++ new)%list /\
    forall jid text, (jid, text) ∈ new ->
      (exists g, groups w !! jid = Some g /\ g_folder g = sg) /\
      exists body, text = ASSISTANT_NAME +:+ ": " +:+ body.
Proof.
  intros Hne o. split; [apply processGroup_returns|].
  assert (Hmain : isMainGroup MAIN_GROUP_FOLDER sg = false).
  { unfold isMainGroup. apply String.eqb_neq. exact Hne. }
  assert (H : (sends_own ASSISTANT_NAME sg) w (final o)).
  { subst o. unfold processGroup. rewrite Hmain. revert w.
    apply keeps_bind; try typeclasses eauto;
      [apply processMessagesDir_own | intros _; apply processTasksDir_own]. }
  destruct H as (G & n & S & F). split; [exact G|]. exists n. split; [exact S|].
  intros jid text Hin. destruct (F jid text Hin) as [Hown Hbody].
  split; [|exact Hbody]. unfold ownsJid in Hown.
  destruct (groups w !! jid) as [g|]; [|discriminate].
  exists g. split; [reflexivity|]. apply String.eqb_eq, Hown.
Qed.

End OwnSends.

(** ** The names of quarantined files *)

Section Quarantine.

Variable ASSISTANT_NAME : string.
Variable env : Env.

Lemma malformed_cases c :
  malformed c = true -> (exists raw, c = Unparsable raw) \/ c = JsonNull.
Proof. destruct c; simpl; eauto; discriminate. Qed.

Lemma malformed_task_file sg isMain f c w :
  find_file sg Tasks f w = Some c -> malformed c = true ->
  let o := processTaskFile env sg isMain f w in
  errorsDir (final o) = <[sg +:+ "-" +:+ f := c]> (errorsDir w) /\
  mailboxes (final o) = remove_file sg Tasks f (mailboxes w).
Proof.
  intros Hf Hm o.
  pose proof (processTaskFile_pattern env sg isMain f w) as Hp. fold o in Hp.
  destruct (file_disposal Tasks sg f "Error processing IPC task"
              (taskWork env sg isMain) c w o Hf (taskWork_fs env sg isMain c) Hp)
    as (_ & _ & _ & [[Hn _]|[_ [_ Hq]]]).
  - assert (Ht : threw (taskWork env sg isMain c w) = true).
    { apply taskWork_throws. destruct (malformed_cases c Hm) as [H|H]; auto. }
    congruence.
  - split; [exact Hq|]. rewrite Hp.
    apply (disposal_mailboxes Tasks sg f _ (taskWork env sg isMain) c w Hf
             (taskWork_fs env sg isMain c)).
Qed.

Lemma malformed_message_file registry sg isMain f c w :
  find_file sg Messages f w = Some c -> malformed c = true ->
  let o := processMessageFile ASSISTANT_NAME env registry sg isMain f w in
  errorsDir (final o) = <[sg +:+ "-" +:+ f := c]> (errorsDir w) /\
  mailboxes (final o) = remove_file sg Messages f (mailboxes w).
Proof.
  intros Hf Hm o.
  pose proof (processMessageFile_pattern ASSISTANT_NAME env registry sg isMain f w) as Hp.
  fold o in Hp.
  destruct (file_disposal Messages sg f "Error processing IPC message"
              (messageWork ASSISTANT_NAME env registry sg isMain) c w o Hf
              (messageWork_fs ASSISTANT_NAME env registry sg isMain c) Hp)
    as (_ & _ & _ & [[Hn _]|[_ [_ Hq]]]).
  - assert (Ht : threw (messageWork ASSISTANT_NAME env registry sg isMain c w) = true).
    { apply messageWork_throws. destruct (malformed_cases c Hm) as [H|H]; auto. }
    congruence.
  - split; [exact Hq|]. rewrite Hp.
    apply (disposal_mailboxes Messages sg f _
             (messageWork ASSISTANT_NAME env registry sg isMain) c w Hf
             (messageWork_fs ASSISTANT_NAME env registry sg isMain c)).
Qed.

(** X13: the name under which a failing file is kept in the errors directory
    does not say which channel it came from. When a tenant has a malformed
    file of the same name in messages and in tasks, both are renamed to the
    same target: after the task file is handled the errors directory holds
    the task file's content under that name and the message file's content
    is gone. *)
Theorem quarantine_name_ignores_channel
  (registry : gmap string RegisteredGroup) (sg : string) (isMain : bool)
  (file : string) (c1 c2 : FileContent) (w : World) :
  find_file sg Messages file w = Some c1 ->
  find_file sg Tasks file w = Some c2 ->
  malformed c1 = true -> malformed c2 = true ->
  let o1 := processMessageFile ASSISTANT_NAME env registry sg isMain file w in
  let o2 := processTaskFile env sg isMain file (final o1) in
  errorsDir (final o1) = <[sg +:+ "-" +:+ file := c1]> (errorsDir w) /\
  errorsDir (final o2) = <[sg +:+ "-" +:+ file := c2]> (errorsDir w) /\
  find_file sg Messages file (final o2) = None /\
  find_file sg Tasks file (final o2) = None.
Proof.
  intros Hf1 Hf2 Hm1 Hm2 o1 o2.
  destruct (malformed_message_file registry sg isMain file c1 w Hf1 Hm1) as [He1 Hb1].
  fold o1 in He1, Hb1.
  assert (Hf2' : find_file sg Tasks file (final o1) = Some c2).
  { rewrite (find_file_remove sg Messages file sg Tasks file w (final o1) Hb1).
    simpl. rewrite String.eqb_refl. simpl. exact Hf2. }
  destruct (malformed_task_file sg isMain file c2 (final o1) Hf2' Hm2) as [He2 Hb2].
  fold o2 in He2, Hb2.
  split; [exact He1|]. split.
  - rewrite He2, He1. apply insert_insert_eq.
  - split.
    + rewrite (find_file_remove sg Tasks file sg Messages file (final o1) (final o2) Hb2).
      simpl. rewrite String.eqb_refl. simpl.
      rewrite (find_file_remove sg Messages file sg Messages file w (final o1) Hb1).
      simpl. rewrite !String.eqb_refl. reflexivity.
    + rewrite (find_file_remove sg Tasks file sg Tasks file (final o1) (final o2) Hb2).
      simpl. rewrite !String.eqb_refl. reflexivity.
Qed.

(** X14: the quarantine name joins directory and file name with a dash and
    nothing else, so two tenants can meet on one name: when the names
    coincide for failing task files of two different directories, the second
    rename replaces the first file in the errors directory. *)
Theorem quarantine_name_clash_across_tenants
  (sg1 sg2 : string) (isMain1 isMain2 : bool) (f1 f2 : string)
  (c1 c2 : FileContent) (w : World) :
  sg1 <> sg2 ->
  sg1 +:+ "-" +:+ f1 = sg2 +:+ "-" +:+ f2 ->
  find_file sg1 Tasks f1 w = Some c1 ->
  find_file sg2 Tasks f2 w = Some c2 ->
  malformed c1 = true -> malformed c2 = true ->
  let o1 := processTaskFile env sg1 isMain1 f1 w in
  let o2 := processTaskFile env sg2 isMain2 f2 (final o1) in
  errorsDir (final o1) !! (sg1 +:+ "-" +:+ f1) = Some c1 /\
  errorsDir (final o2) = <[sg2 +:+ "-" +:+ f2 := c2]> (errorsDir w).
Proof.
  intros Hne Hname Hf1 Hf2 Hm1 Hm2 o1 o2.
  destruct (malformed_task_file sg1 isMain1 f1 c1 w Hf1 Hm1) as [He1 Hb1].
  fold o1 in He1, Hb1.
  assert (Hf2' : find_file sg2 Tasks f2 (final o1) = Some c2).
  { rewrite (find_file_remove sg1 Tasks f1 sg2 Tasks f2 w (final o1) Hb1).
    simpl. destruct (String.eqb_spec sg2 sg1) as [->|_]; [contradiction|].
    simpl. exact Hf2. }
  destruct (malformed_task_file sg2 isMain2 f2 c2 (final o1) Hf2' Hm2) as [He2 Hb2].
  fold o2 in He2, Hb2. split.
  - rewrite He1. apply lookup_insert_eq.
  - rewrite He2, He1, Hname. apply insert_insert_eq.
Qed.

(** X15: apart from such clashes nothing is lost in the errors directory:
    failing task files of one tenant with different names, and failing task
    files of the same name from different tenants, are kept side by side. *)
Theorem quarantine_keeps_distinct_requests
  (sg1 sg2 : string) (isMain1 isMain2 : bool) (f1 f2 : string)
  (c1 c2 : FileContent) (w : World) :
  (sg1 = sg2 /\ f1 <> f2) \/ (sg1 <> sg2 /\ f1 = f2) ->
  find_file sg1 Tasks f1 w = Some c1 ->
  find_file sg2 Tasks f2 w = Some c2 ->
  malformed c1 = true -> malformed c2 = true ->
  let o1 := processTaskFile env sg1 isMain1 f1 w in
  let o2 := processTaskFile env sg2 isMain2 f2 (final o1) in
  errorsDir (final o2) !! (sg1 +:+ "-" +:+ f1) = Some c1 /\
  errorsDir (final o2) !! (sg2 +:+ "-" +:+ f2) = Some c2.
Proof.
  intros Hd Hf1 Hf2 Hm1 Hm2 o1 o2.
  destruct (malformed_task_file sg1 isMain1 f1 c1 w Hf1 Hm1) as [He1 Hb1].
  fold o1 in He1, Hb1.
  assert (Hother : (String.eqb sg2 sg1 && String.eqb f2 f1)%bool = false).
  { destruct Hd as [[-> Hn]|[Hn ->]].
    - rewrite String.eqb_refl. simpl. apply String.eqb_neq. congruence.
    - rewrite String.eqb_refl, andb_true_r. apply String.eqb_neq. congruence. }
  assert (Hf2' : find_file sg2 Tasks f2 (final o1) = Some c2).
  { rewrite (find_file_remove sg1 Tasks f1 sg2 Tasks f2 w (final o1) Hb1).
    simpl. rewrite andb_true_r, Hother. exact Hf2. }
  destruct (malformed_task_file sg2 isMain2 f2 c2 (final o1) Hf2' Hm2) as [He2 Hb2].
  fold o2 in He2, Hb2.
  assert (Hnames : sg2 +:+ "-" +:+ f2 <> sg1 +:+ "-" +:+ f1).
  { destruct Hd as [[-> Hn]|[Hn ->]]; intros H.
    - apply quarantine_name_inj_file in H. congruence.
    - apply quarantine_name_inj_tenant in H. congruence. }
  rewrite He2, He1. split.
  - rewrite lookup_insert_ne by exact Hnames. apply lookup_insert_eq.
  - apply lookup_insert_eq.
Qed.

End Quarantine.

(** * Further properties of the action handlers *)


Section ActionCalls.

Variable env : Env.



End ActionCalls.

(** ** The requests they build *)

Lemma string_app_assoc (a b c : string) : a +:+ b +:+ c = (a +:+ b) +:+ c.
Proof.
  induction a as [|x a IH]; [reflexivity|].
  change (String x (a +:+ b +:+ c) = String x ((a +:+ b) +:+ c)).
  rewrite IH. reflexivity.
Qed.

Lemma concat_snoc sep (l : list string) (x y : string) :
  String.concat sep (l ++ [x; y])%list
  = String.concat sep (l ++ [x])%list +:+ sep +:+ y.
Proof.
  induction l as [|a l IH]; [reflexivity|].
  destruct l as [|b l].
  - simpl. rewrite <- !string_app_assoc. reflexivity.
  - change (a +:+ sep +:+ String.concat sep ((b :: l) ++ [x; y])%list
            = (a +:+ sep +:+ String.concat sep ((b :: l) ++ [x])%list) +:+ sep +:+ y).
    rewrite IH. rewrite <- !string_app_assoc. reflexivity.
Qed.

Lemma concat_last sep (l : list string) (x : string) :
  exists p, String.concat sep (l ++ [x])%list = p +:+ x.
Proof.
  induction l as [|a l [p IH]]; [exists ""; reflexivity|].
  exists (a +:+ sep +:+ p).
  destruct l as [|b l].
  - simpl in *. rewrite <- !string_app_assoc. do 2 f_equal.
    destruct p; [reflexivity|].
    apply (f_equal String.length) in IH. simpl in IH.
    rewrite string_app_length in IH. lia.
  - change (a +:+ sep +:+ String.concat sep ((b :: l) ++ [x])%list
            = (a +:+ sep +:+ p) +:+ x).
    rewrite IH, <- !string_app_assoc. reflexivity.
Qed.

(** What is left of the parts after [filter(Boolean)]. *)
Lemma messageParts_filtered (data : GmailData) :
  exists hdrs kind,
    List.filter (fun s => negb (String.eqb s "")) (messageParts data)
    = (hdrs ++ ["Content-Type: " +:+ kind +:+ "; charset=utf-8"]
         ++ match nonempty (gm_body data) with
            | Some b => [b]
            | None => []
            end)%list.
Proof.
  destruct data as [to subject body cc bcc html].
  unfold messageParts. cbv zeta. simpl gm_to. simpl gm_cc. simpl gm_bcc.
  simpl gm_subject. simpl gm_body. simpl gm_html.
  exists (("To: " +:+ String.concat ", " (default [] to))
            :: (if (0 <? List.length (default [] cc))%nat
                then ["Cc: " +:+ String.concat ", " (default [] cc)] else [])
            ++ (if (0 <? List.length (default [] bcc))%nat
                then ["Bcc: " +:+ String.concat ", " (default [] bcc)] else [])
            ++ ["Subject: " +:+ default "" subject])%list.
  exists (if default false html then "text/html" else "text/plain").
  destruct (0 <? List.length (default [] cc))%nat;
    destruct (0 <? List.length (default [] bcc))%nat;
    destruct body as [[|a b]|]; reflexivity.
Qed.

(** X17: the message handed to Gmail has no empty line between its headers and
    its body. The builder puts an empty string between them and then drops
    every empty string, so a non-empty body starts on the line right after
    the Content-Type header; an empty body leaves the Content-Type header as
    the last line. *)
Theorem gmail_message_has_no_separator_line (data : GmailData) :
  (forall body, nonempty (gm_body data) = Some body ->
     exists head, gmailMessage data
                  = head +:+ "; charset=utf-8" +:+ newline +:+ body) /\
  (nonempty (gm_body data) = None ->
     exists head, gmailMessage data = head +:+ "; charset=utf-8") /\
  ~ "" ∈ List.filter (fun s => negb (String.eqb s "")) (messageParts data).
Proof.
  destruct (messageParts_filtered data) as (hdrs & kind & Hf).
  unfold gmailMessage. rewrite Hf.
  destruct (concat_last newline hdrs ("Content-Type: " +:+ kind +:+ "; charset=utf-8"))
    as [p Hp].
  split; [|split].
  - intros body Hb. rewrite Hb. exists (p +:+ "Content-Type: " +:+ kind).
    change (hdrs ++ ["Content-Type: " +:+ kind +:+ "; charset=utf-8"] ++ [body])%list
      with (hdrs ++ ["Content-Type: " +:+ kind +:+ "; charset=utf-8"; body])%list.
    rewrite concat_snoc, Hp. rewrite <- !string_app_assoc. reflexivity.
  - intros Hb. rewrite Hb. exists (p +:+ "Content-Type: " +:+ kind).
    change (hdrs ++ ["Content-Type: " +:+ kind +:+ "; charset=utf-8"] ++ [])%list
      with (hdrs ++ ["Content-Type: " +:+ kind +:+ "; charset=utf-8"])%list.
    rewrite Hp. rewrite <- !string_app_assoc. reflexivity.
  - rewrite <- Hf. intros Hin. apply list_elem_of_In, filter_In in Hin as [_ Hin].
    discriminate.
Qed.

Lemma includes_replace_all a b s :
  a <> b -> includes (replace_all a b s) a = false.
Proof.
  intros Hab. induction s as [|c r IH]; simpl; [reflexivity|].
  rewrite IH, orb_false_r.
  destruct (Ascii.eqb_spec c a) as [->|Hc]; apply Ascii.eqb_neq; congruence.
Qed.

Lemma includes_replace_other a b x s :
  x <> b -> includes s x = false -> includes (replace_all a b s) x = false.
Proof.
  intros Hxb. induction s as [|c r IH]; simpl; [reflexivity|].
  intros [Hc Hr]%orb_false_iff. rewrite (IH Hr), orb_false_r.
  destruct (Ascii.eqb c a); [apply Ascii.eqb_neq; congruence | exact Hc].
Qed.

Lemma includes_strip_trailing a x s :
  includes s x = false -> includes (strip_trailing a s) x = false.
Proof.
  induction s as [|c r IH]; simpl; [reflexivity|].
  intros [Hc Hr]%orb_false_iff.
  destruct (Ascii.eqb c a && String.eqb (strip_trailing a r) "")%bool; simpl;
    [reflexivity|]. rewrite Hc, (IH Hr). reflexivity.
Qed.

Lemma replace_all_app a b s t :
  replace_all a b (s +:+ t) = replace_all a b s +:+ replace_all a b t.
Proof.
  induction s as [|c r IH]; [reflexivity|].
  change (String (if Ascii.eqb c a then b else c) (replace_all a b (r +:+ t))
          = String (if Ascii.eqb c a then b else c)
              (replace_all a b r +:+ replace_all a b t)).
  rewrite IH. reflexivity.
Qed.

Lemma strip_trailing_padding a s pad :
  includes s a = false -> strip_trailing a pad = "" ->
  strip_trailing a (s +:+ pad) = s.
Proof.
  intros Hs Hpad. induction s as [|c r IH]; [exact Hpad|].
  simpl in Hs. apply orb_false_iff in Hs as [Hc Hr].
  change (strip_trailing a (String c (r +:+ pad)) = String c r). simpl.
  rewrite Hc, (IH Hr). reflexivity.
Qed.

(** X18: the text sent as [raw] is URL-safe. Whatever the base64 text, the
    result has no plus sign and no slash; and when the equals sign occurs in
    it only as the padding at the end, as in every base64 text, the result
    is the unpadded part with plus and slash replaced, without any equals
    sign. *)
Theorem base64url_is_url_safe (b64 : string) :
  includes (base64url b64) "+" = false /\
  includes (base64url b64) "/" = false /\
  (forall body pad,
     b64 = body +:+ pad ->
     includes body "=" = false ->
     pad = "" \/ pad = "=" \/ pad = "==" ->
     base64url b64 = replace_all "/" "_" (replace_all "+" "-" body) /\
     includes (base64url b64) "=" = false).
Proof.
  unfold base64url. split; [|split].
  - apply includes_strip_trailing, includes_replace_other; [discriminate|].
    apply includes_replace_all. discriminate.
  - apply includes_strip_trailing, includes_replace_all. discriminate.
  - intros body pad -> Hb Hpad.
    assert (Hb' : includes (replace_all "/" "_" (replace_all "+" "-" body)) "=" = false).
    { apply includes_replace_other; [discriminate|].
      apply includes_replace_other; [discriminate | exact Hb]. }
    assert (E : strip_trailing "="
                  (replace_all "/" "_" (replace_all "+" "-" (body +:+ pad)))
                = replace_all "/" "_" (replace_all "+" "-" body)).
    { rewrite !replace_all_app. apply strip_trailing_padding; [exact Hb'|].
      destruct Hpad as [->|[->| ->]]; reflexivity. }
    rewrite E. split; [reflexivity | exact Hb'].
Qed.

(** X19: a list request never asks for more than 250 events. A missing
    [max_results] and 0 give 10, a count from 1 to 250 is passed on as it
    is, a larger one is cut to 250, and a negative one is passed on as it
    is: there is no lower bound. *)
Theorem list_events_max_results_capped (max_results : option Z) :
  maxResults max_results <= 250 /\
  (max_results = None \/ max_results = Some 0 -> maxResults max_results = 10) /\
  (forall n, max_results = Some n -> 1 <= n <= 250 -> maxResults max_results = n) /\
  (forall n, max_results = Some n -> 250 < n -> maxResults max_results = 250) /\
  (forall n, max_results = Some n -> n < 0 -> maxResults max_results = n).
Proof.
  unfold maxResults. split; [apply Z.le_min_r|]. split; [|split; [|split]].
  - intros [->| ->]; reflexivity.
  - intros n -> Hn. destruct (Z.eqb_spec n 0); lia.
  - intros n -> Hn. destruct (Z.eqb_spec n 0); lia.
  - intros n -> Hn. destruct (Z.eqb_spec n 0); lia.
Qed.

Lemma lookup_assign_if_eq {A} key (v : option A) f m :
  assign_if key v f m !! key
  = match v with Some x => Some (f x) | None => m !! key end.
Proof. destruct v; simpl; [apply lookup_insert_eq | reflexivity]. Qed.

Lemma lookup_assign_if_ne {A} key (v : option A) f m k :
  k <> key -> assign_if key v f m !! k = m !! k.
Proof.
  intros Hk. destruct v; simpl; [|reflexivity].
  apply lookup_insert_ne. congruence.
Qed.

Ltac other_keys :=
  repeat (rewrite lookup_assign_if_ne by first [discriminate | assumption | congruence]).

Section EventRequests.

Variable TIMEZONE : string.

Lemma createEvent_lookup data ev :
  createEvent TIMEZONE data = Some ev ->
  exists summary start end_,
    nonempty (cd_summary data) = Some summary /\
    nonempty (cd_start data) = Some start /\
    nonempty (cd_end data) = Some end_ /\
    ev !! "summary" = Some (EvText summary) /\
    ev !! "start"
    = Some (eventTime TIMEZONE (negb (includes start "T")) data start) /\
    ev !! "end"
    = Some (eventTime TIMEZONE (negb (includes start "T")) data end_) /\
    ev !! "description" = EvText <$> nonempty (cd_description data).
Proof.
  unfold createEvent. intros H.
  destruct (nonempty (cd_summary data)) as [summary|]; [|discriminate].
  destruct (nonempty (cd_start data)) as [start|]; [|discriminate].
  destruct (nonempty (cd_end data)) as [end_|]; [|discriminate].
  injection H as <-. exists summary, start, end_.
  split; [reflexivity|]. split; [reflexivity|]. split; [reflexivity|].
  repeat split; other_keys.
  - rewrite lookup_insert_ne, lookup_insert_ne by discriminate.
    apply lookup_insert_eq.
  - rewrite lookup_insert_ne by discriminate. apply lookup_insert_eq.
  - apply lookup_insert_eq.
  - rewrite lookup_assign_if_eq.
    destruct (nonempty (cd_description data)); [reflexivity|].
    rewrite !lookup_insert_ne by discriminate. apply lookup_empty.
Qed.

Lemma updateEvent_start existing data :
  updateEvent TIMEZONE existing data !! "start"
  = match cd_start data with
    | Some x => Some (eventTime TIMEZONE (negb (includes x "T")) data x)
    | None => existing !! "start"
    end.
Proof.
  unfold updateEvent. other_keys. rewrite lookup_assign_if_eq.
  destruct (cd_start data); [reflexivity|]. other_keys. reflexivity.
Qed.

Lemma updateEvent_end existing data :
  updateEvent TIMEZONE existing data !! "end"
  = match cd_end data with
    | Some x => Some (eventTime TIMEZONE (negb (includes x "T")) data x)
    | None => existing !! "end"
    end.
Proof.
  unfold updateEvent. other_keys. rewrite lookup_assign_if_eq.
  destruct (cd_end data); [reflexivity|]. other_keys. reflexivity.
Qed.

Lemma updateEvent_summary existing data :
  updateEvent TIMEZONE existing data !! "summary"
  = match cd_summary data with
    | Some x => Some (EvText x)
    | None => existing !! "summary"
    end.
Proof. unfold updateEvent. other_keys. apply lookup_assign_if_eq. Qed.

Lemma updateEvent_description existing data :
  updateEvent TIMEZONE existing data !! "description"
  = match cd_description data with
    | Some x => Some (EvText x)
    | None => existing !! "description"
    end.
Proof.
  unfold updateEvent. other_keys. rewrite lookup_assign_if_eq.
  destruct (cd_description data); [reflexivity|]. other_keys. reflexivity.
Qed.

Lemma updateEvent_location existing data :
  updateEvent TIMEZONE existing data !! "location"
  = match cd_location data with
    | Some x => Some (EvText x)
    | None => existing !! "location"
    end.
Proof.
  unfold updateEvent. other_keys. rewrite lookup_assign_if_eq.
  destruct (cd_location data); [reflexivity|]. other_keys. reflexivity.
Qed.

Lemma updateEvent_attendees existing data :
  updateEvent TIMEZONE existing data !! "attendees"
  = match cd_attendees data with
    | Some x => Some (EvAttendees x)
    | None => existing !! "attendees"
    end.
Proof.
  unfold updateEvent. rewrite lookup_assign_if_eq.
  destruct (cd_attendees data); [reflexivity|]. other_keys. reflexivity.
Qed.

Lemma updateEvent_other existing data k :
  k ∉ event_fields ->
  updateEvent TIMEZONE existing data !! k = existing !! k.
Proof.
  unfold event_fields. intros Hk. rewrite !not_elem_of_cons in Hk.
  destruct Hk as (? & ? & ? & ? & ? & ? & _).
  unfold updateEvent. other_keys. reflexivity.
Qed.

Lemma updateEvent_twice existing data :
  updateEvent TIMEZONE (updateEvent TIMEZONE existing data) data
  = updateEvent TIMEZONE existing data.
Proof.
  apply map_eq. intros k.
  destruct (decide (k = "summary")) as [->|?].
  { rewrite !updateEvent_summary. destruct (cd_summary data); reflexivity. }
  destruct (decide (k = "start")) as [->|?].
  { rewrite !updateEvent_start. destruct (cd_start data); reflexivity. }
  destruct (decide (k = "end")) as [->|?].
  { rewrite !updateEvent_end. destruct (cd_end data); reflexivity. }
  destruct (decide (k = "description")) as [->|?].
  { rewrite !updateEvent_description. destruct (cd_description data); reflexivity. }
  destruct (decide (k = "location")) as [->|?].
  { rewrite !updateEvent_location. destruct (cd_location data); reflexivity. }
  destruct (decide (k = "attendees")) as [->|?].
  { rewrite !updateEvent_attendees. destruct (cd_attendees data); reflexivity. }
  assert (Hk : k ∉ event_fields).
  { unfold event_fields. rewrite !not_elem_of_cons. repeat split; try assumption.
    apply not_elem_of_nil. }
  rewrite !updateEvent_other by exact Hk. reflexivity.
Qed.

(** X20: a create request decides by its start alone whether both ends of the
    event are dates or date-times; an update request decides for each end
    by that end. So a create request whose start has no T sends its end as
    a date even when the end has a T, where an update request sends the
    same end as a date-time. *)
Theorem event_time_kind_create_vs_update (data : CalendarData) :
  (forall ev, createEvent TIMEZONE data = Some ev ->
     exists start end_,
       nonempty (cd_start data) = Some start /\
       nonempty (cd_end data) = Some end_ /\
       ev !! "start"
       = Some (eventTime TIMEZONE (negb (includes start "T")) data start) /\
       ev !! "end"
       = Some (eventTime TIMEZONE (negb (includes start "T")) data end_)) /\
  (forall existing start, cd_start data = Some start ->
     updateEvent TIMEZONE existing data !! "start"
     = Some (eventTime TIMEZONE (negb (includes start "T")) data start)) /\
  (forall existing end_, cd_end data = Some end_ ->
     updateEvent TIMEZONE existing data !! "end"
     = Some (eventTime TIMEZONE (negb (includes end_ "T")) data end_)) /\
  (forall ev existing start end_,
     createEvent TIMEZONE data = Some ev ->
     cd_start data = Some start -> cd_end data = Some end_ ->
     includes start "T" = false -> includes end_ "T" = true ->
     ev !! "end" = Some (EvDate end_ (timeZoneOf TIMEZONE data)) /\
     updateEvent TIMEZONE existing data !! "end"
     = Some (EvDateTime end_ (timeZoneOf TIMEZONE data))).
Proof.
  split; [|split; [|split]].
  - intros ev H.
    destruct (createEvent_lookup data ev H) as (su & s & e & _ & H2 & H3 & _ & H5 & H6 & _).
    exists s, e. auto.
  - intros existing start H. rewrite updateEvent_start, H. reflexivity.
  - intros existing end_ H. rewrite updateEvent_end, H. reflexivity.
  - intros ev existing start end_ Hc Hst Hen Ts Te.
    destruct (createEvent_lookup data ev Hc) as (su & s & e & _ & H2 & H3 & _ & _ & H6 & _).
    apply nonempty_Some in H2 as [H2 _]. apply nonempty_Some in H3 as [H3 _].
    assert (s = start) by congruence. assert (e = end_) by congruence. subst s e.
    rewrite H6, updateEvent_end, Hen, Ts, Te. split; reflexivity.
Qed.

(** X21: an update changes what the request names and nothing else. Every
    property of the fetched event other than the six that a request can set
    is sent back as it was; so is each of the six whose field the request
    leaves out, and a request that names no field sends the event back
    unchanged. Applying the same request to its own result changes nothing.
    A description given as the empty string is applied, where a create
    request leaves it out. *)
Theorem update_event_changes_named_fields_only
  (existing : gmap string EventValue) (data : CalendarData) :
  (forall k, k ∉ event_fields ->
     updateEvent TIMEZONE existing data !! k = existing !! k) /\
  (cd_summary data = None ->
   updateEvent TIMEZONE existing data !! "summary" = existing !! "summary") /\
  (cd_start data = None ->
   updateEvent TIMEZONE existing data !! "start" = existing !! "start") /\
  (cd_end data = None ->
   updateEvent TIMEZONE existing data !! "end" = existing !! "end") /\
  (cd_description data = None ->
   updateEvent TIMEZONE existing data !! "description" = existing !! "description") /\
  (cd_location data = None ->
   updateEvent TIMEZONE existing data !! "location" = existing !! "location") /\
  (cd_attendees data = None ->
   updateEvent TIMEZONE existing data !! "attendees" = existing !! "attendees") /\
  (cd_summary data = None -> cd_start data = None -> cd_end data = None ->
   cd_description data = None -> cd_location data = None ->
   cd_attendees data = None ->
   updateEvent TIMEZONE existing data = existing) /\
  updateEvent TIMEZONE (updateEvent TIMEZONE existing data) data
  = updateEvent TIMEZONE existing data /\
  (cd_description data = Some "" ->
   updateEvent TIMEZONE existing data !! "description" = Some (EvText "") /\
   forall ev, createEvent TIMEZONE data = Some ev -> ev !! "description" = None).
Proof.
  split; [apply updateEvent_other|].
  split; [intros H; rewrite updateEvent_summary, H; reflexivity|].
  split; [intros H; rewrite updateEvent_start, H; reflexivity|].
  split; [intros H; rewrite updateEvent_end, H; reflexivity|].
  split; [intros H; rewrite updateEvent_description, H; reflexivity|].
  split; [intros H; rewrite updateEvent_location, H; reflexivity|].
  split; [intros H; rewrite updateEvent_attendees, H; reflexivity|].
  split.
  { intros H1 H2 H3 H4 H5 H6. unfold updateEvent.
    rewrite H1, H2, H3, H4, H5, H6. reflexivity. }
  split; [apply updateEvent_twice|].
  intros H. split; [rewrite updateEvent_description, H; reflexivity|].
  intros ev Hc.
  destruct (createEvent_lookup data ev Hc) as (_ & _ & _ & _ & _ & _ & _ & _ & _ & Hd).
  rewrite Hd, H. reflexivity.
Qed.

End EventRequests.

(** * Starting the watcher *)

(** X22: the watcher starts one polling loop, however often it is started.
    From a state in which it is not running, any number of calls leaves the
    flag set and exactly one loop started, makes the IPC root once, and logs
    the start once followed by one debug line for every further call. *)
Theorem watcher_starts_one_loop (s : Watcher) (n : nat) :
  ipcWatcherRunning s = false ->
  let s' := Nat.iter (S n) startIpcWatcher s in
  ipcWatcherRunning s' = true /\
  pollLoops s' = S (pollLoops s) /\
  fsLog (world s') = (fsLog (world s) ++ [Mkdir "ipc"])%list /\
  logs (world s')
  = (logs (world s)
       ++ (LInfo, "IPC watcher started (per-group namespaces)")
       :: repeat (LDebug, "IPC watcher already running, skipping duplicate start") n)%list.
Proof.
  intros Hs. cbv zeta. induction n as [|n IH].
  - simpl. unfold startIpcWatcher. rewrite Hs. simpl. auto.
  - change (Nat.iter (S (S n)) startIpcWatcher s)
      with (startIpcWatcher (Nat.iter (S n) startIpcWatcher s)).
    destruct IH as (H1 & H2 & H3 & H4).
    set (s1 := Nat.iter (S n) startIpcWatcher s) in *.
    unfold startIpcWatcher. rewrite H1. simpl.
    rewrite H2, H3, H4. repeat split; try reflexivity.
    rewrite <- app_assoc. f_equal. simpl. f_equal.
    symmetry. apply repeat_cons.
Qed.

(** * Voice transcription *)

Lemma attempts_app (a b : list TranscriptionEvent) :
  attempts (a ++ b)%list = (attempts a ++ attempts b)%list.
Proof.
  induction a as [|[l msg|u k m] a IH]; simpl; [reflexivity | exact IH|].
  unfold attempts in *. simpl. rewrite IH. reflexivity.
Qed.

#[local] Arguments attempts : simpl never.

Section TranscriptionFacts.

Variable tenv : TranscriptionEnv.

Lemma trim_blank (s : string) : skip_ws s = "" -> trim s = "".
Proof. unfold trim. intros ->. reflexivity. Qed.

(** The ways a transcription can go, once the configuration is there. *)
Lemma transcribeAudio_cases (audioBuffer : string) (config : TranscriptionConfig)
  (t0 : list TranscriptionEvent) :
  loadConfig tenv = (Some config, t0) ->
  attempts t0 = [] ->
  let r := fst (transcribeAudio tenv audioBuffer) in
  let tr := snd (transcribeAudio tenv audioBuffer) in
  (r = Resolves (fallbackMessage config) /\
   (attempts tr = [] \/
    exists pc baseURL dflt,
      attempts tr
      = [(baseURL, apiKey pc, if String.eqb (model pc) "" then dflt else model pc)] /\
      (provider_result tenv baseURL (apiKey pc)
         (if String.eqb (model pc) "" then dflt else model pc) audioBuffer = None \/
       provider_result tenv baseURL (apiKey pc)
         (if String.eqb (model pc) "" then dflt else model pc) audioBuffer = Some "") /\
      enabled config = true /\ apiKey pc <> "" /\
      ((provider config = "openai" /\ openai config = Some pc /\
        baseURL = None /\ dflt = "whisper-1") \/
       (provider config = "groq" /\ groq config = Some pc /\
        baseURL = Some "https://api.groq.com/openai/v1" /\
        dflt = "whisper-large-v3"))))
  \/
  (exists pc baseURL dflt text,
     attempts tr
     = [(baseURL, apiKey pc, if String.eqb (model pc) "" then dflt else model pc)] /\
     provider_result tenv baseURL (apiKey pc)
       (if String.eqb (model pc) "" then dflt else model pc) audioBuffer = Some text /\
     text <> "" /\
     r = Resolves (Some (trim text)) /\
     last tr = Some (Logged LInfo "Transcription successful") /\
     enabled config = true /\ apiKey pc <> "" /\
     ((provider config = "openai" /\ openai config = Some pc /\
       baseURL = None /\ dflt = "whisper-1") \/
      (provider config = "groq" /\ groq config = Some pc /\
       baseURL = Some "https://api.groq.com/openai/v1" /\
       dflt = "whisper-large-v3"))).
Proof.
  intros Hload Ht0. cbv zeta. unfold transcribeAudio. rewrite Hload.
  destruct (enabled config) eqn:He; simpl;
    [|simpl; left; split; [reflexivity|]; left; rewrite !attempts_app, Ht0; reflexivity].
  destruct (String.eqb_spec (provider config) "openai") as [Hp|Hp]; simpl.
  - unfold transcribeWithOpenAI.
    destruct (openai config) as [pc|] eqn:Ho;
      [|simpl; left; split; [reflexivity|]; left; rewrite !attempts_app, Ht0; reflexivity].
    destruct (String.eqb_spec (apiKey pc) "") as [Hk|Hk];
      [simpl; left; split; [reflexivity|]; left; rewrite !attempts_app, Ht0; reflexivity|].
    destruct (provider_result tenv None (apiKey pc)
                (if String.eqb (model pc) "" then "whisper-1" else model pc)
                audioBuffer) as [text|] eqn:Hr.
    + destruct (String.eqb_spec text "") as [Ht|Ht]; simpl.
      * left. split; [reflexivity|]. right. exists pc, None, "whisper-1".
        rewrite !attempts_app, Ht0. subst text. simpl. auto 10.
      * right. exists pc, None, "whisper-1", text.
        rewrite !attempts_app, Ht0. simpl.
        split; [reflexivity|]. split; [exact Hr|]. split; [exact Ht|].
        split; [reflexivity|]. split; [|auto 10].
        rewrite last_app_cons. reflexivity.
    + simpl. left. split; [reflexivity|]. right. exists pc, None, "whisper-1".
      rewrite !attempts_app, Ht0. simpl. auto 10.
  - destruct (String.eqb_spec (provider config) "groq") as [Hg|Hg]; simpl;
      [|simpl; left; split; [reflexivity|]; left; rewrite !attempts_app, Ht0; reflexivity].
    unfold transcribeWithGroq.
    destruct (groq config) as [pc|] eqn:Ho;
      [|simpl; left; split; [reflexivity|]; left; rewrite !attempts_app, Ht0; reflexivity].
    destruct (String.eqb_spec (apiKey pc) "") as [Hk|Hk];
      [simpl; left; split; [reflexivity|]; left; rewrite !attempts_app, Ht0; reflexivity|].
    cbv zeta.
    destruct (provider_result tenv (Some "https://api.groq.com/openai/v1") (apiKey pc)
                (if String.eqb (model pc) "" then "whisper-large-v3" else model pc)
                audioBuffer) as [text|] eqn:Hr.
    + destruct (String.eqb_spec text "") as [Ht|Ht]; simpl.
      * left. split; [reflexivity|]. right.
        exists pc, (Some "https://api.groq.com/openai/v1"), "whisper-large-v3".
        rewrite !attempts_app, Ht0. subst text. simpl. auto 10.
      * right.
        exists pc, (Some "https://api.groq.com/openai/v1"), "whisper-large-v3", text.
        rewrite !attempts_app, Ht0. simpl.
        split; [reflexivity|]. split; [exact Hr|]. split; [exact Ht|].
        split; [reflexivity|]. split; [|auto 10].
        rewrite last_app_cons. reflexivity.
    + simpl. left. split; [reflexivity|]. right.
      exists pc, (Some "https://api.groq.com/openai/v1"), "whisper-large-v3".
      rewrite !attempts_app, Ht0. simpl. auto 10.
Qed.

Lemma loadConfig_cases :
  (config_file tenv = ConfigNull /\ loadConfig tenv = (None, [])) \/
  (exists config t0, loadConfig tenv = (Some config, t0) /\ attempts t0 = [] /\
     (config_file tenv = ConfigObject config \/
      config_file tenv = ConfigUnreadable /\
      enabled config = false /\
      fallbackMessage config = Some "[Voice Message - transcription unavailable]")).
Proof.
  unfold loadConfig. destruct (config_file tenv) as [| |config].
  - right. eexists _, _. split; [reflexivity|]. split; [reflexivity|]. right. auto.
  - left. auto.
  - right. exists config, []. auto.
Qed.

(** X23: what a transcription comes to. A configuration file that holds
    null makes the call reject with a TypeError, before anything is logged
    or attempted. Otherwise the call resolves: at most one provider attempt
    is made, and only with transcription enabled, for provider openai or
    groq, with that provider's non-empty key, its model or else the
    provider's default model, and for groq its base URL; the result is the
    configured fallback message unless the attempt returned a non-empty
    text, and then it is that text trimmed. Without a readable
    configuration file the result is the default fallback message and no
    attempt is made. *)
Theorem transcription_outcome (audioBuffer : string) :
  let r := fst (transcribeAudio tenv audioBuffer) in
  let tr := snd (transcribeAudio tenv audioBuffer) in
  (config_file tenv = ConfigNull ->
   r = Rejects (TypeError "Cannot read properties of null") /\ tr = []) /\
  (config_file tenv = ConfigUnreadable ->
   r = Resolves (Some "[Voice Message - transcription unavailable]") /\
   attempts tr = []) /\
  (forall config, config_file tenv = ConfigObject config ->
     (attempts tr = [] \/
      exists pc baseURL dflt,
        attempts tr
        = [(baseURL, apiKey pc, if String.eqb (model pc) "" then dflt else model pc)] /\
        enabled config = true /\ apiKey pc <> "" /\
        ((provider config = "openai" /\ openai config = Some pc /\
          baseURL = None /\ dflt = "whisper-1") \/
         (provider config = "groq" /\ groq config = Some pc /\
          baseURL = Some "https://api.groq.com/openai/v1" /\
          dflt = "whisper-large-v3"))) /\
     (r = Resolves (fallbackMessage config) \/
      exists baseURL key m text,
        attempts tr = [(baseURL, key, m)] /\
        provider_result tenv baseURL key m audioBuffer = Some text /\
        text <> "" /\ r = Resolves (Some (trim text))) /\
     (fallbackMessage config <> None -> r <> Resolves None)) /\
  (config_file tenv <> ConfigNull -> exists result, r = Resolves result).
Proof.
  cbv zeta.
  destruct loadConfig_cases as [[Hnull Hload] | (config & t0 & Hload & Ht0 & Hsrc)].
  - split; [|split; [|split]]; try (intros; congruence).
    intros _. unfold transcribeAudio. rewrite Hload. auto.
  - pose proof (transcribeAudio_cases audioBuffer config t0 Hload Ht0) as Hcases.
    cbv zeta in Hcases.
    split; [intros Hn; destruct Hsrc as [Hs|[Hs _]]; congruence|].
    split; [|split].
    + intros Hu. destruct Hsrc as [Hs|(_ & He & Hfb)]; [congruence|].
      destruct Hcases as [[Hr Hatt] | (pc & b & dflt & text & _ & _ & _ & _ & _ & He' & _)];
        [|congruence].
      rewrite Hr, Hfb. split; [reflexivity|].
      destruct Hatt as [Ha | (pc & b & dflt & _ & _ & He' & _)]; [exact Ha | congruence].
    + intros config' Hc.
      assert (config' = config) as ->.
      { destruct Hsrc as [Hs|[Hs _]]; congruence. }
      destruct Hcases as [[Hr Hatt] | (pc & b & dflt & text & Ha & Hp & Ht & Hr & _ & He & Hk & Hprov)].
      * split; [|split].
        -- destruct Hatt as [Ha | (pc & b & dflt & Ha & _ & He & Hk & Hprov)];
             [left; exact Ha | right; exists pc, b, dflt; auto].
        -- left. exact Hr.
        -- intros Hfb. rewrite Hr. congruence.
      * split; [|split].
        -- right. exists pc, b, dflt. auto.
        -- right. eauto 10.
        -- intros _. rewrite Hr. discriminate.
    + intros _.
      destruct Hcases as [[Hr _] | (pc & b & dflt & text & _ & _ & _ & Hr & _)];
        rewrite Hr; eauto.
Qed.

(** X24: a transcript is replaced by the fallback message only when it is
    empty. Whichever provider was asked, a text that is not empty is
    returned trimmed and reported as a success, so a text of white space
    alone comes back as the empty string, not as the fallback message. *)
Theorem whitespace_transcript_is_not_replaced
  (audioBuffer : string) (baseURL : option string) (key m text : string) :
  attempts (snd (transcribeAudio tenv audioBuffer)) = [(baseURL, key, m)] ->
  provider_result tenv baseURL key m audioBuffer = Some text ->
  text <> "" ->
  fst (transcribeAudio tenv audioBuffer) = Resolves (Some (trim text)) /\
  (skip_ws text = "" -> fst (transcribeAudio tenv audioBuffer) = Resolves (Some "")) /\
  last (snd (transcribeAudio tenv audioBuffer))
  = Some (Logged LInfo "Transcription successful").
Proof.
  intros Ha Hp Ht.
  destruct loadConfig_cases as [[Hnull Hload] | (config & t0 & Hload & Ht0 & Hsrc)].
  { unfold transcribeAudio in Ha. rewrite Hload in Ha. discriminate Ha. }
  pose proof (transcribeAudio_cases audioBuffer config t0 Hload Ht0) as Hcases.
  cbv zeta in Hcases.
  destruct Hcases as [[_ Hatt] | (pc & b & dflt & text' & Ha' & Hp' & _ & Hr & Hl & _)].
  - destruct Hatt as [Hn | (pc & b & dflt & Ha' & Hres & _)]; [congruence|].
    rewrite Ha in Ha'. injection Ha' as -> -> ->.
    destruct Hres as [Hres|Hres]; congruence.
  - rewrite Ha in Ha'. injection Ha' as -> -> ->.
    assert (text' = text) as -> by congruence.
    split; [exact Hr|]. split; [|exact Hl].
    intros Hb. rewrite Hr, (trim_blank text Hb). reflexivity.
Qed.

End TranscriptionFacts.

(** * Registration and sending together *)

Section Registration.

Variable ASSISTANT_NAME : string.
Variable env : Env.

Lemma register_group_effect d sg jid name folder trigger w :
  p_type d = Some "register_group" ->
  nonempty (p_jid d) = Some jid -> nonempty (p_name d) = Some name ->
  nonempty (p_folder d) = Some folder -> nonempty (p_trigger d) = Some trigger ->
  let w1 := final (processTaskIpc env d sg true w) in
  groups w1 = <[jid := mkGroup name folder trigger
                        (toISOString env (clock env (ticks w)))
                        (p_containerConfig d) (p_requiresTrigger d)]> (groups w) /\
  sent w1 = sent w /\ mailboxes w1 = mailboxes w.
Proof.
  intros Hty Hj Hn Hf Ht.
  unfold processTaskIpc, bind, deps_registeredGroups. rewrite Hty. simpl.
  unfold processRegisterGroup. simpl. rewrite Hj, Hn, Hf, Ht.
  unfold bind, Date_now, deps_registerGroup. simpl. auto.
Qed.

(** X25: a registration by main decides at once who may write to the chat.
    After main's register_group request for a jid, a message file for that
    jid from the tenant whose folder was registered is sent, and one from any
    other tenant than main is dropped without a send, whoever owned the jid
    before. *)
Theorem registration_moves_a_chat (d : Payload) (sg jid name folder trigger : string)
  (s file : string) (m : Payload) (text : string) (w : World) :
  p_type d = Some "register_group" ->
  nonempty (p_jid d) = Some jid -> nonempty (p_name d) = Some name ->
  nonempty (p_folder d) = Some folder -> nonempty (p_trigger d) = Some trigger ->
  let w1 := final (processTaskIpc env d sg true w) in
  find_file s Messages file w1 = Some (JsonObject m) ->
  p_type m = Some "message" ->
  nonempty (p_chatJid m) = Some jid -> nonempty (p_text m) = Some text ->
  let o := processMessageFile ASSISTANT_NAME env (groups w1) s false file w1 in
  (s = folder ->
   sent (final o) = (sent w ++ [(jid, ASSISTANT_NAME +:+ ": " +:+ text)])%list) /\
  (s <> folder -> sent (final o) = sent w) /\
  find_file s Messages file (final o) = None.
Proof.
  intros Hty Hj Hn Hf Ht w1 Hfile Hm Hc Htx o.
  destruct (register_group_effect d sg jid name folder trigger w Hty Hj Hn Hf Ht)
    as (Hg & Hs & _). fold w1 in Hg, Hs.
  assert (Hown : ownsJid (groups w1) jid s = String.eqb folder s).
  { unfold ownsJid. rewrite Hg, lookup_insert_eq. reflexivity. }
  destruct (file_disposal Messages s file "Error processing IPC message"
              (messageWork ASSISTANT_NAME env (groups w1) s false) (JsonObject m) w1 o
              Hfile (messageWork_fs ASSISTANT_NAME env (groups w1) s false (JsonObject m))
              (processMessageFile_pattern ASSISTANT_NAME env (groups w1) s false file w1))
    as (_ & Hgone & (_ & _ & Hsent) & _).
  assert (Hwork : sent (final (messageWork ASSISTANT_NAME env (groups w1) s false
                                 (JsonObject m) w1))
                  = if String.eqb folder s
                    then (sent w ++ [(jid, ASSISTANT_NAME +:+ ": " +:+ text)])%list
                    else sent w).
  { unfold messageWork, bind. simpl.
    apply is_lit_true in Hm. rewrite Hm, Hc, Htx. simpl. rewrite Hown.
    unfold deps_sendMessage.
    destruct (String.eqb folder s); simpl; [|exact Hs].
    destruct (send_rejects env jid (ASSISTANT_NAME +:+ ": " +:+ text)); simpl;
      rewrite Hs; reflexivity. }
  rewrite Hsent, Hwork. split; [|split; [|exact Hgone]].
  - intros ->. rewrite String.eqb_refl. reflexivity.
  - intros Hne. destruct (String.eqb_spec folder s); [congruence | reflexivity].
Qed.

End Registration.

(** * Who can change the registry *)

#[local] Instance registry_kept_refl sg : Reflexive (registry_kept sg).
Proof. intros w H. split; [reflexivity | exact H]. Qed.

#[local] Instance registry_kept_trans sg : Transitive (registry_kept sg).
Proof.
  intros a b c Hab Hbc Ha. destruct (Hab Ha) as [G1 Hb].
  destruct (Hbc Hb) as [G2 Hc]. split; [congruence | exact Hc].
Qed.

Lemma registry_kept_same sg w w' :
  groups w' = groups w -> mailboxes w' = mailboxes w -> registry_kept sg w w'.
Proof.
  intros Hg Hm Hw. split; [exact Hg|]. intros f. specialize (Hw f).
  unfold exists_file in *. rewrite (find_file_same_mailboxes sg Tasks f w w' Hm).
  exact Hw.
Qed.

Lemma registry_kept_removed sg g ch file w w' :
  groups w' = groups w ->
  mailboxes w' = remove_file g ch file (mailboxes w) ->
  registry_kept sg w w'.
Proof.
  intros Hg Hm Hw. split; [exact Hg|]. intros f. specialize (Hw f).
  unfold exists_file in *.
  rewrite (find_file_remove g ch file sg Tasks f w w' Hm).
  destruct (disposes sg Tasks f (Unlink g ch file)); [apply andb_false_r | exact Hw].
Qed.

Ltac kept_prim :=
  let w := fresh "w" in
  intros w; apply registry_kept_same; simpl; repeat case_match; reflexivity.

Section Registry.

Variable MAIN_GROUP_FOLDER : string.
Variable ASSISTANT_NAME : string.
Variable env : Env.

Lemma log_kept l msg : keeps (registry_kept MAIN_GROUP_FOLDER) (log l msg).
Proof. kept_prim. Qed.

Lemma readFileSync_kept g ch f : keeps (registry_kept MAIN_GROUP_FOLDER) (readFileSync g ch f).
Proof. unfold readFileSync. kept_prim. Qed.

Lemma mkdirSync_kept d : keeps (registry_kept MAIN_GROUP_FOLDER) (mkdirSync d).
Proof. kept_prim. Qed.

Lemma JSON_parse_kept c : keeps (registry_kept MAIN_GROUP_FOLDER) (JSON_parse c).
Proof. unfold JSON_parse. kept_prim. Qed.

Lemma readdir_json_kept g ch : keeps (registry_kept MAIN_GROUP_FOLDER) (readdir_json g ch).
Proof. unfold readdir_json. kept_prim. Qed.

Lemma deps_registeredGroups_kept : keeps (registry_kept MAIN_GROUP_FOLDER) deps_registeredGroups.
Proof. kept_prim. Qed.

Lemma deps_sendMessage_kept jid text : keeps (registry_kept MAIN_GROUP_FOLDER) (deps_sendMessage env jid text).
Proof. unfold deps_sendMessage. kept_prim. Qed.

Lemma unlinkSync_kept g ch f : keeps (registry_kept MAIN_GROUP_FOLDER) (unlinkSync g ch f).
Proof.
  intros w. unfold unlinkSync.
  destruct (find_file g ch f w); simpl; [|reflexivity].
  apply (registry_kept_removed _ g ch f); reflexivity.
Qed.

Lemma renameSync_kept g ch f t : keeps (registry_kept MAIN_GROUP_FOLDER) (renameSync g ch f t).
Proof.
  intros w. unfold renameSync.
  destruct (find_file g ch f w); simpl; [|reflexivity].
  apply (registry_kept_removed _ g ch f); reflexivity.
Qed.

Lemma processTaskIpc_kept d sg : 
  keeps (registry_kept MAIN_GROUP_FOLDER) (processTaskIpc env d sg false).
Proof.
  apply non_main_request_keeps; try typeclasses eauto; intros;
    try unfold Date_toISOString; try unfold dynamic_import;
    try unfold google_call; kept_prim.
Qed.

Lemma processMessagesDir_kept sg isMain :
  keeps (registry_kept MAIN_GROUP_FOLDER) (processMessagesDir ASSISTANT_NAME env sg isMain).
Proof.
  unfold processMessagesDir, processMessageFile.
  pose proof log_kept. pose proof readFileSync_kept. pose proof unlinkSync_kept.
  pose proof mkdirSync_kept. pose proof renameSync_kept. pose proof JSON_parse_kept.
  pose proof readdir_json_kept. pose proof deps_registeredGroups_kept.
  pose proof deps_sendMessage_kept.
  keeps_struct.
Qed.

Lemma processTasksDir_kept sg :
  keeps (registry_kept MAIN_GROUP_FOLDER) (processTasksDir env sg false).
Proof.
  unfold processTasksDir, processTaskFile.
  pose proof log_kept. pose proof readFileSync_kept. pose proof unlinkSync_kept.
  pose proof mkdirSync_kept. pose proof renameSync_kept. pose proof JSON_parse_kept.
  pose proof readdir_json_kept. pose proof processTaskIpc_kept.
  keeps_struct.
Qed.

Lemma processGroup_kept sg :
  keeps (registry_kept MAIN_GROUP_FOLDER) (processGroup MAIN_GROUP_FOLDER ASSISTANT_NAME env sg).
Proof.
  unfold processGroup.
  apply keeps_bind; try typeclasses eauto; [apply processMessagesDir_kept|].
  intros _. destruct (isMainGroup MAIN_GROUP_FOLDER sg) eqn:Hmain.
  - apply isMainGroup_true in Hmain. subst sg.
    intros w Hw. unfold processTasksDir. rewrite dir_idle by exact Hw.
    split; [reflexivity | exact Hw].
  - apply processTasksDir_kept.
Qed.

(** X26: only a task file in main's own directory can change the registry.
    When no request file waits in the tasks channel of main's directory, a
    whole poll cycle, whatever the other directories and main's messages
    hold, leaves the registry as it is. *)
Theorem registry_changes_only_through_main (w : World) :
  (forall f,
     (ends_with f ".json" && exists_file MAIN_GROUP_FOLDER Tasks f w)%bool = false) ->
  let o := processIpcFiles MAIN_GROUP_FOLDER ASSISTANT_NAME env w in
  threw o = false /\ groups (final o) = groups w.
Proof.
  intros Hw o. split; [apply processIpcFiles_returns|].
  assert (H : keeps (registry_kept MAIN_GROUP_FOLDER) (processIpcFiles MAIN_GROUP_FOLDER ASSISTANT_NAME env)).
  { unfold processIpcFiles.
    apply keeps_bind; try typeclasses eauto.
    - intros w0. unfold readdir_groups. simpl. reflexivity.
    - intros gs. apply keeps_for_each; try typeclasses eauto.
      apply processGroup_kept. }
  exact (proj1 (H w Hw)).
Qed.

End Registry.

(** * Identity and privilege of a directory *)

#[local] Instance tasks_within_refl P : Reflexive (tasks_within P).
Proof. intros w id. left. reflexivity. Qed.

#[local] Instance tasks_within_trans P : Transitive (tasks_within P).
Proof.
  intros a b c Hab Hbc id.
  destruct (Hbc id) as [E | [E | E]]; [|auto|auto].
  rewrite E. apply Hab.
Qed.

Lemma tasks_within_same P w w' : tasks w' = tasks w -> tasks_within P w w'.
Proof. intros E id. left. rewrite E. reflexivity. Qed.

(** An entry that is new or different is a task of a folder in [P]. *)
Lemma tasks_within_new P w w' id t' :
  tasks_within P w w' ->
  tasks w' !! id = Some t' -> tasks w !! id <> Some t' -> P (t_group_folder t').
Proof.
  intros H Hn Ho. destruct (H id) as [E | [E | (t & E & Hp)]];
    [congruence | congruence |].
  assert (t = t') as -> by congruence. exact Hp.
Qed.

#[local] Instance confined_refl N P : Reflexive (confined N P).
Proof.
  intros w. split; [reflexivity|]. split; [|reflexivity].
  exists []. rewrite app_nil_r. split; [reflexivity|].
  intros jid text H. inversion H.
Qed.

#[local] Instance confined_trans N P : Transitive (confined N P).
Proof.
  intros a b c (G1 & (n1 & S1 & F1) & T1) (G2 & (n2 & S2 & F2) & T2).
  split; [congruence|]. split; [|etransitivity; eassumption].
  exists (n1 ++ n2)%list. split.
  - rewrite S2, S1, <- app_assoc. reflexivity.
  - intros jid text [H|H]%elem_of_app; [apply F1, H|].
    rewrite <- G1. apply F2, H.
Qed.

Lemma confined_weaken N (P Q : string -> Prop) w w' :
  (forall folder, P folder -> Q folder) -> confined N P w w' -> confined N Q w w'.
Proof.
  intros HPQ (G & (n & S & F) & T). split; [exact G|]. split.
  - exists n. split; [exact S|]. intros jid text Hin.
    destruct (F jid text Hin) as [(g & Hg & Hp) Hb].
    split; [exists g; auto | exact Hb].
  - intros id. destruct (T id) as [E | [E | (t & E & Hp)]]; [auto | auto |].
    right. right. exists t. auto.
Qed.

#[local] Instance files_shrink_refl : Reflexive files_shrink.
Proof. intros w g ch f H. exact H. Qed.

#[local] Instance files_shrink_trans : Transitive files_shrink.
Proof. intros a b c Hab Hbc g ch f H. apply Hab, Hbc, H. Qed.

Lemma files_shrink_same w w' : mailboxes w' = mailboxes w -> files_shrink w w'.
Proof.
  intros Hm g ch f. unfold exists_file.
  rewrite (find_file_same_mailboxes g ch f w w' Hm). auto.
Qed.

Lemma files_shrink_removed g0 ch0 file w w' :
  mailboxes w' = remove_file g0 ch0 file (mailboxes w) -> files_shrink w w'.
Proof.
  intros Hm g ch f. unfold exists_file.
  rewrite (find_file_remove g0 ch0 file g ch f w w' Hm).
  destruct (disposes g ch f (Unlink g0 ch0 file)); [discriminate | auto].
Qed.

Lemma no_request_files_shrink sg w w' :
  files_shrink w w' -> no_request_files sg w -> no_request_files sg w'.
Proof.
  intros Hs Hw ch f. specialize (Hw ch f).
  destruct (ends_with f ".json"); simpl in *; [|reflexivity].
  destruct (exists_file sg ch f w') eqn:E; [|reflexivity].
  apply Hs in E. congruence.
Qed.

#[local] Instance sent_grows_refl : Reflexive sent_grows.
Proof. intros w. exists []. rewrite app_nil_r. reflexivity. Qed.

#[local] Instance sent_grows_trans : Transitive sent_grows.
Proof.
  intros a b c [n1 S1] [n2 S2]. exists (n1 ++ n2)%list.
  rewrite S2, S1, <- app_assoc. reflexivity.
Qed.

Lemma sent_grows_same w w' : sent w' = sent w -> sent_grows w w'.
Proof. intros E. exists []. rewrite app_nil_r. exact E. Qed.

#[local] Instance without_main_refl N main : Reflexive (without_main N main).
Proof. intros w. split; [reflexivity | intros _; reflexivity]. Qed.

#[local] Instance without_main_trans N main : Transitive (without_main N main).
Proof.
  intros a b c [S1 C1] [S2 C2]. split; [etransitivity; eassumption|].
  intros Ha. etransitivity; [apply C1, Ha|].
  apply C2. eapply no_request_files_shrink; eassumption.
Qed.

(** A primitive that leaves alone the field a relation looks at. *)
Ltac same_prim lem :=
  let w := fresh "w" in
  intros w; apply lem; simpl; repeat case_match; reflexivity.

Section Identity.

Variable MAIN_GROUP_FOLDER : string.
Variable ASSISTANT_NAME : string.
Variable env : Env.

(** What a visit of a directory runs: the log, the file operations, the
    parser, the registry read, the send function and the request processor.
    A relation that all of these keep is kept by both loops of the visit. *)
Lemma visit_keeps R `{!Reflexive R} `{!Transitive R} sg isMain :
  (forall l msg, keeps R (log l msg)) ->
  (forall g ch f, keeps R (readFileSync g ch f)) ->
  (forall g ch f, keeps R (unlinkSync g ch f)) ->
  (forall d, keeps R (mkdirSync d)) ->
  (forall g ch f t, keeps R (renameSync g ch f t)) ->
  (forall c, keeps R (JSON_parse c)) ->
  (forall g ch, keeps R (readdir_json g ch)) ->
  keeps R deps_registeredGroups ->
  (forall jid text, keeps R (deps_sendMessage env jid text)) ->
  (forall d, keeps R (processTaskIpc env d sg isMain)) ->
  keeps R (processMessagesDir ASSISTANT_NAME env sg isMain) /\
  keeps R (processTasksDir env sg isMain).
Proof.
  intros. split.
  - unfold processMessagesDir, processMessageFile. keeps_struct.
  - unfold processTasksDir, processTaskFile. keeps_struct.
Qed.

(** What a request can run, whoever sends it. *)
Lemma request_keeps R `{!Reflexive R} `{!Transitive R} :
  (forall l msg, keeps R (log l msg)) ->
  keeps R (Date_now env) ->
  keeps R (random36 env) ->
  (forall t, keeps R (Date_toISOString env t)) ->
  (forall t, keeps R (createTask t)) ->
  (forall id, keeps R (getTaskById id)) ->
  (forall id st, keeps R (updateTask id st)) ->
  (forall id, keeps R (deleteTask id)) ->
  keeps R (dynamic_import env) ->
  (forall m d, keeps R (google_call env m d)) ->
  keeps R deps_registeredGroups ->
  (forall jid g, keeps R (deps_registerGroup jid g)) ->
  (forall b, keeps R (deps_syncGroupMetadata env b)) ->
  keeps R (deps_getAvailableGroups env) ->
  (forall g b a j, keeps R (deps_writeGroupsSnapshot g b a j)) ->
  forall d sg isMain, keeps R (processTaskIpc env d sg isMain).
Proof.
  intros Hlog Hnow Hrnd Hiso Hcreate Hget Hupd Hdel Himp Hcall Hreg Hrg Hsync
    Hav Hsnap d sg isMain.
  destruct (action_handlers_keep env R Hlog Himp Hcall d sg)
    as (H1 & H2 & H3 & H4 & H5 & H6).
  unfold processTaskIpc, processScheduleTask, scheduleNextRun, processPauseTask,
    processResumeTask, processCancelTask, processRefreshGroups,
    processRegisterGroup.
  keeps_struct.
Qed.

(** No request hands anything to the send function. *)
Lemma processTaskIpc_sent d sg isMain :
  keeps sent_grows (processTaskIpc env d sg isMain).
Proof.
  apply request_keeps; try typeclasses eauto; intros;
    try unfold Date_toISOString; try unfold dynamic_import;
    try unfold google_call; try unfold deps_syncGroupMetadata;
    same_prim sent_grows_same.
Qed.

Lemma processGroup_sent sg : 
  keeps sent_grows (processGroup MAIN_GROUP_FOLDER ASSISTANT_NAME env sg).
Proof.
  destruct (visit_keeps sent_grows sg (isMainGroup MAIN_GROUP_FOLDER sg))
    as [Hm Ht]; try (intros; same_prim sent_grows_same).
  - intros; unfold readFileSync; same_prim sent_grows_same.
  - intros; unfold unlinkSync; same_prim sent_grows_same.
  - intros; unfold renameSync; same_prim sent_grows_same.
  - intros; unfold JSON_parse; same_prim sent_grows_same.
  - intros; unfold readdir_json; same_prim sent_grows_same.
  - intros jid text w. unfold deps_sendMessage.
    destruct (send_rejects env jid text); simpl; exists [(jid, text)]; reflexivity.
  - intros; apply processTaskIpc_sent.
  - unfold processGroup. apply keeps_bind; try typeclasses eauto; auto.
Qed.

(** The visit of any directory only takes files away. *)
Lemma processGroup_shrink sg :
  keeps files_shrink (processGroup MAIN_GROUP_FOLDER ASSISTANT_NAME env sg).
Proof.
  destruct (visit_keeps files_shrink sg (isMainGroup MAIN_GROUP_FOLDER sg))
    as [Hm Ht]; try (intros; same_prim files_shrink_same).
  - intros; unfold readFileSync; same_prim files_shrink_same.
  - intros g ch f w. unfold unlinkSync.
    destruct (find_file g ch f w); simpl; [|reflexivity].
    apply (files_shrink_removed g ch f). reflexivity.
  - intros g ch f t w. unfold renameSync.
    destruct (find_file g ch f w); simpl; [|reflexivity].
    apply (files_shrink_removed g ch f). reflexivity.
  - intros; unfold JSON_parse; same_prim files_shrink_same.
  - intros; unfold readdir_json; same_prim files_shrink_same.
  - intros; unfold deps_sendMessage; same_prim files_shrink_same.
  - intros d w. apply files_shrink_same.
    apply (processTaskIpc_fs env d sg (isMainGroup MAIN_GROUP_FOLDER sg) w).
  - unfold processGroup. apply keeps_bind; try typeclasses eauto; auto.
Qed.

(** A request found in the directory [sg], handled without privilege,
    changes the Task Store within the folder [sg]. *)
Lemma processTaskIpc_within d sg :
  keeps (tasks_within (fun folder => folder = sg)) (processTaskIpc env d sg false).
Proof.
  intros w id.
  destruct (request_effect_on_tasks env d sg false w)
    as [E | [(nid & t & tj & g & Hid & E & _ & _ & Hauth & Hf & _)
            | (op & oid & Hmc & E)]]; rewrite E.
  - left. reflexivity.
  - destruct Hauth as [? | Hg]; [discriminate|].
    destruct (decide (nid = id)) as [->|Hne].
    + right. right. exists t. rewrite lookup_insert_eq.
      split; [reflexivity | congruence].
    + left. apply lookup_insert_ne, Hne.
  - apply mayControl_true in Hmc as (t0 & Ht0 & [? | Hown]); [discriminate|].
    destruct (decide (oid = id)) as [->|Hne];
      [|left; apply lookup_op_effect_ne, Hne].
    rewrite lookup_op_effect_eq, Ht0.
    destruct op; simpl.
    + right. right. eexists. split; [reflexivity|]. destruct t0; exact Hown.
    + right. right. eexists. split; [reflexivity|]. destruct t0; exact Hown.
    + right. left. reflexivity.
Qed.

Lemma processGroup_within sg :
  sg <> MAIN_GROUP_FOLDER ->
  keeps (tasks_within (fun folder => folder = sg))
    (processGroup MAIN_GROUP_FOLDER ASSISTANT_NAME env sg).
Proof.
  intros Hne.
  assert (Hmain : isMainGroup MAIN_GROUP_FOLDER sg = false).
  { unfold isMainGroup. apply String.eqb_neq. exact Hne. }
  unfold processGroup. rewrite Hmain.
  destruct (visit_keeps (tasks_within (fun folder => folder = sg)) sg false)
    as [Hm Ht]; try (intros; same_prim (tasks_within_same (fun folder => folder = sg))).
  - intros; unfold readFileSync; same_prim (tasks_within_same (fun folder => folder = sg)).
  - intros; unfold unlinkSync; same_prim (tasks_within_same (fun folder => folder = sg)).
  - intros; unfold renameSync; same_prim (tasks_within_same (fun folder => folder = sg)).
  - intros; unfold JSON_parse; same_prim (tasks_within_same (fun folder => folder = sg)).
  - intros; unfold readdir_json; same_prim (tasks_within_same (fun folder => folder = sg)).
  - intros; unfold deps_sendMessage; same_prim (tasks_within_same (fun folder => folder = sg)).
  - intros; apply processTaskIpc_within.
  - apply keeps_bind; try typeclasses eauto; auto.
Qed.

(** The visit of a directory other than main's stays within the folder of
    that name. *)
Lemma processGroup_confined sg :
  sg <> MAIN_GROUP_FOLDER ->
  keeps (confined ASSISTANT_NAME (fun folder => folder = sg))
    (processGroup MAIN_GROUP_FOLDER ASSISTANT_NAME env sg).
Proof.
  intros Hne w.
  assert (Hmain : isMainGroup MAIN_GROUP_FOLDER sg = false).
  { unfold isMainGroup. apply String.eqb_neq. exact Hne. }
  assert (H : sends_own ASSISTANT_NAME sg w
                (final (processGroup MAIN_GROUP_FOLDER ASSISTANT_NAME env sg w))).
  { unfold processGroup. rewrite Hmain. revert w.
    apply keeps_bind; try typeclasses eauto;
      [apply processMessagesDir_own | intros _; apply processTasksDir_own]. }
  destruct H as (G & n & S & F). split; [exact G|]. split.
  - exists n. split; [exact S|]. intros jid text Hin.
    destruct (F jid text Hin) as [Hown Hbody]. split; [|exact Hbody].
    unfold ownsJid in Hown. destruct (groups w !! jid) as [g|]; [|discriminate].
    exists g. split; [reflexivity|]. apply String.eqb_eq, Hown.
  - apply processGroup_within, Hne.
Qed.

(** A cycle in which main's directory holds no request stays within the
    other folders. *)
Lemma processIpcFiles_without_main :
  keeps (without_main ASSISTANT_NAME MAIN_GROUP_FOLDER)
    (processIpcFiles MAIN_GROUP_FOLDER ASSISTANT_NAME env).
Proof.
  unfold processIpcFiles. apply keeps_bind; try typeclasses eauto.
  { intros w. unfold readdir_groups. simpl. reflexivity. }
  intros dirs. apply keeps_for_each; try typeclasses eauto.
  intros sg w. split; [apply processGroup_shrink|]. intros Hquiet.
  destruct (String.eqb_spec sg MAIN_GROUP_FOLDER) as [->|Hne].
  - rewrite processGroup_idle by exact Hquiet. simpl. reflexivity.
  - apply (confined_weaken ASSISTANT_NAME (fun folder => folder = sg)).
    + intros folder ->. exact Hne.
    + apply processGroup_confined, Hne.
Qed.

Lemma try_catch_bind_Ok {A B} (c : M A) (k : A -> M B) h w a w1 :
  c w = Ok a w1 -> try_catch (bind c k) h w = try_catch (k a) h w1.
Proof. intros H. unfold try_catch, bind. rewrite H. reflexivity. Qed.

Lemma bind_same_outcome {A B} (c c' : M A) (k : A -> M B) w w' :
  c w = c' w' -> bind c k w = bind c' k w'.
Proof. intros H. unfold bind. rewrite H. reflexivity. Qed.

Lemma message_body_sent sg isMain f :
  keeps sent_grows
    (do registeredGroups <- deps_registeredGroups ;
     processMessageFile ASSISTANT_NAME env registeredGroups sg isMain f).
Proof.
  assert (Hsend : forall jid text, keeps sent_grows (deps_sendMessage env jid text)).
  { intros jid text w. unfold deps_sendMessage.
    destruct (send_rejects env jid text); simpl; exists [(jid, text)]; reflexivity. }
  assert (Hlog : forall l msg, keeps sent_grows (log l msg))
    by (intros; same_prim sent_grows_same).
  assert (Hread : forall g ch x, keeps sent_grows (readFileSync g ch x))
    by (intros; unfold readFileSync; same_prim sent_grows_same).
  assert (Hunlink : forall g ch x, keeps sent_grows (unlinkSync g ch x))
    by (intros; unfold unlinkSync; same_prim sent_grows_same).
  assert (Hmk : forall x, keeps sent_grows (mkdirSync x))
    by (intros; same_prim sent_grows_same).
  assert (Hren : forall g ch x t, keeps sent_grows (renameSync g ch x t))
    by (intros; unfold renameSync; same_prim sent_grows_same).
  assert (Hparse : forall c, keeps sent_grows (JSON_parse c))
    by (intros; unfold JSON_parse; same_prim sent_grows_same).
  assert (Hreg : keeps sent_grows deps_registeredGroups)
    by (same_prim sent_grows_same).
  unfold processMessageFile. keeps_struct.
Qed.

(** The first message file of main's directory is sent to the chat it
    names, whoever that chat is registered to. *)
Lemma main_sends_anywhere file rest d jid text w :
  readdir_json MAIN_GROUP_FOLDER Messages w = Ok (Some (file :: rest)) w ->
  find_file MAIN_GROUP_FOLDER Messages file w = Some (JsonObject d) ->
  p_type d = Some "message" ->
  nonempty (p_chatJid d) = Some jid ->
  nonempty (p_text d) = Some text ->
  exists more,
    sent (final (processGroup MAIN_GROUP_FOLDER ASSISTANT_NAME env
                   MAIN_GROUP_FOLDER w))
    = (sent w ++ (jid, ASSISTANT_NAME +:+ ": " +:+ text) :: more)%list.
Proof.
  intros Hlist Hfile Hty Hjid Htext.
  set (body := fun f : string =>
         do registeredGroups <- deps_registeredGroups ;
         processMessageFile ASSISTANT_NAME env registeredGroups
           MAIN_GROUP_FOLDER true f).
  set (rest_of_loop :=
         try_catch (for_each rest body)
           (fun err => log LError "Error reading IPC messages directory")).
  set (tasks_loop := fun _ : unit => processTasksDir env MAIN_GROUP_FOLDER true).
  assert (Hfirst : exists w1, body file w = Ok tt w1 /\
            sent w1 = (sent w ++ [(jid, ASSISTANT_NAME +:+ ": " +:+ text)])%list).
  { unfold body, bind at 1, deps_registeredGroups.
    destruct (file_disposal Messages MAIN_GROUP_FOLDER file
                "Error processing IPC message"
                (messageWork ASSISTANT_NAME env (groups w) MAIN_GROUP_FOLDER true)
                (JsonObject d) w _ Hfile
                (messageWork_fs ASSISTANT_NAME env (groups w) MAIN_GROUP_FOLDER true _)
                (processMessageFile_pattern ASSISTANT_NAME env (groups w)
                   MAIN_GROUP_FOLDER true file w))
      as (Hno & _ & (_ & _ & Hs) & _).
    destruct (processMessageFile ASSISTANT_NAME env (groups w) MAIN_GROUP_FOLDER
                true file w) as [[] w1 | e w1]; [|discriminate Hno].
    exists w1. split; [reflexivity|]. simpl in Hs. rewrite Hs.
    unfold messageWork, bind. simpl.
    apply is_lit_true in Hty. rewrite Hty, Hjid, Htext. simpl.
    unfold bind, deps_sendMessage.
    destruct (send_rejects env jid (ASSISTANT_NAME +:+ ": " +:+ text));
      reflexivity. }
  destruct Hfirst as (w1 & Hrun & Hsent).
  assert (Hmain : isMainGroup MAIN_GROUP_FOLDER MAIN_GROUP_FOLDER = true)
    by apply String.eqb_refl.
  assert (Hvisit : processGroup MAIN_GROUP_FOLDER ASSISTANT_NAME env
                     MAIN_GROUP_FOLDER w = bind rest_of_loop tasks_loop w1).
  { unfold processGroup. rewrite Hmain. apply bind_same_outcome.
    unfold processMessagesDir, rest_of_loop.
    rewrite (try_catch_bind_Ok _ _ _ w _ w Hlist).
    change (for_each (file :: rest) ?b) with (bind (b file) (fun _ => for_each rest b)).
    exact (try_catch_bind_Ok (body file) (fun _ => for_each rest body) _ w tt w1 Hrun). }
  assert (Hrest : keeps sent_grows (bind rest_of_loop tasks_loop)).
  { destruct (visit_keeps sent_grows MAIN_GROUP_FOLDER true) as [_ Ht];
      try (intros; same_prim sent_grows_same).
    - intros; unfold readFileSync; same_prim sent_grows_same.
    - intros; unfold unlinkSync; same_prim sent_grows_same.
    - intros; unfold renameSync; same_prim sent_grows_same.
    - intros; unfold JSON_parse; same_prim sent_grows_same.
    - intros; unfold readdir_json; same_prim sent_grows_same.
    - intros j t w0. unfold deps_sendMessage.
      destruct (send_rejects env j t); simpl; exists [(j, t)]; reflexivity.
    - intros; apply processTaskIpc_sent.
    - apply keeps_bind; try typeclasses eauto; [|intros; exact Ht].
      apply keeps_try_catch; try typeclasses eauto;
        [|intros; same_prim sent_grows_same].
      apply keeps_for_each; try typeclasses eauto.
      intros f. apply message_body_sent. }
  rewrite Hvisit. destruct (Hrest w1) as [more Hmore].
  exists more. rewrite Hmore, Hsent, <- app_assoc. reflexivity.
Qed.

(** A register_group request that is the one task file of main's directory
    is carried out. *)
Lemma main_registers file d jid name folder trigger w :
  (forall f, (ends_with f ".json"
              && exists_file MAIN_GROUP_FOLDER Messages f w)%bool = false) ->
  readdir_json MAIN_GROUP_FOLDER Tasks w = Ok (Some [file]) w ->
  find_file MAIN_GROUP_FOLDER Tasks file w = Some (JsonObject d) ->
  p_type d = Some "register_group" ->
  nonempty (p_jid d) = Some jid -> nonempty (p_name d) = Some name ->
  nonempty (p_folder d) = Some folder -> nonempty (p_trigger d) = Some trigger ->
  groups (final (processGroup MAIN_GROUP_FOLDER ASSISTANT_NAME env
                   MAIN_GROUP_FOLDER w))
  = <[jid := mkGroup name folder trigger
               (toISOString env (clock env (ticks w)))
               (p_containerConfig d) (p_requiresTrigger d)]> (groups w).
Proof.
  intros Hidle Hlist Hfile Hty Hj Hn Hf Ht.
  assert (Hmain : isMainGroup MAIN_GROUP_FOLDER MAIN_GROUP_FOLDER = true)
    by apply String.eqb_refl.
  unfold processGroup. rewrite Hmain. unfold bind at 1.
  unfold processMessagesDir. rewrite dir_idle by exact Hidle.
  unfold processTasksDir.
  rewrite (try_catch_bind_Ok _ _ _ w _ w Hlist).
  destruct (file_disposal Tasks MAIN_GROUP_FOLDER file "Error processing IPC task"
              (taskWork env MAIN_GROUP_FOLDER true) (JsonObject d) w _ Hfile
              (taskWork_fs env MAIN_GROUP_FOLDER true _)
              (processTaskFile_pattern env MAIN_GROUP_FOLDER true file w))
    as (Hno & _ & (_ & Hg & _) & _).
  destruct (processTaskFile env MAIN_GROUP_FOLDER true file w)
    as [[] w1 | e w1] eqn:Hrun; [|discriminate Hno].
  change (for_each [file] ?b) with (bind (b file) (fun _ => for_each [] b)).
  rewrite (try_catch_bind_Ok _ _ _ w tt w1 Hrun). simpl.
  simpl in Hg. rewrite Hg.
  apply (register_group_effect env d MAIN_GROUP_FOLDER jid name folder trigger w
           Hty Hj Hn Hf Ht).
Qed.

(** C1. The watcher takes a tenant's identity from the name of its mailbox
    directory and its privilege from one test on that name, and from
    nothing a request file says.
    Over a whole visit of a directory other than the main folder, all its
    message files and then all its task files, whatever they hold: nothing
    escapes, the registry stays as it is, every text handed to the send
    function goes to a jid registered with this directory as folder, and
    every Task Store entry that is new or different afterwards is a task of
    this folder.
    The visit of the main folder has the privilege: the first message file
    of its directory is sent to the chat it names, whoever that chat is
    registered to, and a register_group request that is its one request
    file is carried out.
    Over a whole poll cycle in which main's directory holds no request
    file: nothing escapes, the registry stays as it is, every text handed to
    the send function goes to a jid registered to a folder other than main,
    and every Task Store entry that is new or different afterwards is a task
    of a folder other than main.
    Request by request, in a directory other than the main folder: a
    message whose chatJid is not registered with this directory as folder is
    never sent; a schedule_task whose targetJid is registered to another
    folder creates nothing; writing any groupFolder, chatJid, jid, name,
    folder or trigger into a task request changes neither whether the call
    throws nor the resulting Task Store, registry and outbound messages; and
    writing any groupFolder, targetJid, jid, name, folder or trigger into a
    message changes nothing at all. *)
Theorem identity_is_the_directory (sg : string) (w : World) :
  sg <> MAIN_GROUP_FOLDER ->
  let isMain := isMainGroup MAIN_GROUP_FOLDER sg in
  let visit := processGroup MAIN_GROUP_FOLDER ASSISTANT_NAME env sg w in
  let main_visit :=
    processGroup MAIN_GROUP_FOLDER ASSISTANT_NAME env MAIN_GROUP_FOLDER w in
  let cycle := processIpcFiles MAIN_GROUP_FOLDER ASSISTANT_NAME env w in
  (threw visit = false /\
   groups (final visit) = groups w /\
   (exists new,
      sent (final visit) = (sent w ++ new)%list /\
      forall jid text, (jid, text) ∈ new ->
        (exists g, groups w !! jid = Some g /\ g_folder g = sg) /\
        exists body, text = ASSISTANT_NAME +:+ ": " +:+ body) /\
   (forall id t',
      tasks (final visit) !! id = Some t' -> tasks w !! id <> Some t' ->
      t_group_folder t' = sg)) /\
  (forall file rest d jid text,
     readdir_json MAIN_GROUP_FOLDER Messages w = Ok (Some (file :: rest)) w ->
     find_file MAIN_GROUP_FOLDER Messages file w = Some (JsonObject d) ->
     p_type d = Some "message" ->
     nonempty (p_chatJid d) = Some jid -> nonempty (p_text d) = Some text ->
     exists more,
       sent (final main_visit)
       = (sent w ++ (jid, ASSISTANT_NAME +:+ ": " +:+ text) :: more)%list) /\
  (forall file d jid name folder trigger,
     (forall f, (ends_with f ".json"
                 && exists_file MAIN_GROUP_FOLDER Messages f w)%bool = false) ->
     readdir_json MAIN_GROUP_FOLDER Tasks w = Ok (Some [file]) w ->
     find_file MAIN_GROUP_FOLDER Tasks file w = Some (JsonObject d) ->
     p_type d = Some "register_group" ->
     nonempty (p_jid d) = Some jid -> nonempty (p_name d) = Some name ->
     nonempty (p_folder d) = Some folder ->
     nonempty (p_trigger d) = Some trigger ->
     groups (final main_visit)
     = <[jid := mkGroup name folder trigger
                  (toISOString env (clock env (ticks w)))
                  (p_containerConfig d) (p_requiresTrigger d)]> (groups w)) /\
  ((forall ch f, (ends_with f ".json"
                  && exists_file MAIN_GROUP_FOLDER ch f w)%bool = false) ->
   threw cycle = false /\
   groups (final cycle) = groups w /\
   (exists new,
      sent (final cycle) = (sent w ++ new)%list /\
      forall jid text, (jid, text) ∈ new ->
        (exists g, groups w !! jid = Some g /\ g_folder g <> MAIN_GROUP_FOLDER) /\
        exists body, text = ASSISTANT_NAME +:+ ": " +:+ body) /\
   (forall id t',
      tasks (final cycle) !! id = Some t' -> tasks w !! id <> Some t' ->
      t_group_folder t' <> MAIN_GROUP_FOLDER)) /\
  (forall registry file d jid,
     find_file sg Messages file w = Some (JsonObject d) ->
     p_chatJid d = Some jid ->
     (forall g, registry !! jid = Some g -> g_folder g <> sg) ->
     let o := processMessageFile ASSISTANT_NAME env registry sg isMain file w in
     store_same w (final o) /\ deleted sg Messages file w (final o)) /\
  (forall d jid g,
     p_type d = Some "schedule_task" ->
     p_targetJid d = Some jid ->
     groups w !! jid = Some g -> g_folder g <> sg ->
     let o := processTaskIpc env d sg isMain w in
     threw o = false /\ store_same w (final o)) /\
  (forall d gf cj j n f t,
     let o := processTaskIpc env d sg isMain w in
     let o' := processTaskIpc env (with_claims gf cj j n f t d) sg isMain w in
     threw o' = threw o /\ tasks (final o') = tasks (final o) /\
     groups (final o') = groups (final o) /\ sent (final o') = sent (final o)) /\
  (forall registry d gf tj j n f t,
     messageWork ASSISTANT_NAME env registry sg isMain
       (JsonObject (with_message_claims gf tj j n f t d)) w
     = messageWork ASSISTANT_NAME env registry sg isMain (JsonObject d) w).
Proof.
  intros Hne isMain visit main_visit cycle.
  assert (HisMain : isMain = false).
  { subst isMain. unfold isMainGroup. apply String.eqb_neq. exact Hne. }
  rewrite HisMain. clear isMain HisMain.
  split.
  { destruct (processGroup_confined sg Hne w) as (G & S & T).
    split; [apply processGroup_returns|]. split; [exact G|]. split; [exact S|].
    intros id t'. apply (tasks_within_new _ _ _ id t' T). }
  split; [intros file rest d jid text; apply main_sends_anywhere|].
  split; [intros file d jid name folder trigger; apply main_registers|].
  split.
  { intros Hquiet.
    destruct (processIpcFiles_without_main w) as [_ Hc].
    destruct (Hc Hquiet) as (G & S & T).
    split; [apply processIpcFiles_returns|]. split; [exact G|]. split; [exact S|].
    intros id t'. apply (tasks_within_new _ _ _ id t' T). }
  split; [|split; [|split; [|reflexivity]]].
  - intros registry file d jid Hfile Hjid Hnot o. subst o.
    destruct (file_disposal Messages sg file "Error processing IPC message"
                (messageWork ASSISTANT_NAME env registry sg false) _ w _ Hfile
                (messageWork_fs ASSISTANT_NAME env registry sg false _)
                (processMessageFile_pattern ASSISTANT_NAME env registry sg false file w))
      as (_ & _ & H3 & H4).
    assert (Hinner : threw (messageWork ASSISTANT_NAME env registry sg false
                              (JsonObject d) w) = false
                     /\ store_same w (final (messageWork ASSISTANT_NAME env registry
                                               sg false (JsonObject d) w))).
    { unfold messageWork, bind. simpl.
      destruct (is_lit (p_type d) "message"); [|split; reflexivity].
      destruct (nonempty (p_chatJid d)) as [jid'|] eqn:Hj; [|split; reflexivity].
      destruct (nonempty (p_text d)) as [text|]; [|split; reflexivity].
      apply nonempty_Some in Hj as [Hj _].
      assert (jid' = jid) as -> by congruence.
      assert (Hown : ownsJid registry jid sg = false).
      { unfold ownsJid. destruct (registry !! jid) as [g|] eqn:Hg; [|reflexivity].
        apply String.eqb_neq. apply Hnot. reflexivity. }
      rewrite Hown. simpl. split; [reflexivity|]. unfold store_same. auto. }
    destruct Hinner as [Hno Hsame].
    split; [etransitivity; eassumption|].
    destruct H4 as [[_ Hd] | [Hq _]]; [exact Hd | congruence].
  - intros d jid g Hty Hjid Hg Hfolder o. subst o.
    apply schedule_task_denied; [assumption|].
    do 3 right.
    destruct (nonempty (p_targetJid d)) as [tj|] eqn:Htj; [right | left; reflexivity].
    exists tj. split; [reflexivity|].
    apply nonempty_Some in Htj as [Htj _].
    assert (tj = jid) as -> by congruence.
    rewrite Hg. auto.
  - intros d gf cj j n f t. apply claims_are_ignored.
Qed.

End Identity.

(** C1 on a sample: main and tenant alpha each hold a message for the chat
    g2 of tenant beta, and alpha asks for a task on that chat too. Alpha's
    visit sends nothing and leaves registry and Task Store alone; main's
    message is sent. *)
Lemma identity_witness :
  let w := two_senders in
  let visit := processGroup "main" "Andy" demo_env "alpha" w in
  let main_visit := processGroup "main" "Andy" demo_env "main" w in
  "alpha" <> "main" /\
  groups w !! "g2" = Some (mkGroup "G2" "beta" "@b" "t0" None None) /\
  threw visit = false /\
  groups (final visit) = groups w /\
  (forall id t',
     tasks (final visit) !! id = Some t' -> tasks w !! id <> Some t' ->
     t_group_folder t' = "alpha") /\
  sent (final visit) = [] /\
  tasks (final visit) = tasks w /\
  exists more,
    sent (final main_visit) = (sent w ++ ("g2", "Andy" +:+ ": " +:+ "hello") :: more)%list.
Proof.
  intros w visit main_visit.
  assert (Hne : "alpha" <> "main") by discriminate.
  destruct (identity_is_the_directory "main" "Andy" demo_env "alpha" w Hne)
    as ((Hno & G & _ & T) & Hmain & _).
  split; [exact Hne|]. split; [reflexivity|]. split; [exact Hno|].
  split; [exact G|]. split; [exact T|].
  split; [reflexivity|]. split; [reflexivity|].
  apply (Hmain "m.json" [] (messagePayload "g2" "hello") "g2" "hello");
    reflexivity.
Defined.

(** * The further properties on sample requests *)

(** X2 on a sample: tenant alpha asks for a refresh. *)
Lemma refresh_groups_witness :
  let d := actionPayload "refresh_groups" in
  let w := demo_world "alpha" Tasks (JsonObject d) in
  p_type d = Some "refresh_groups" /\
  logs (final (processTaskIpc demo_env d "alpha" false w))
  = [(LWarn, "Unauthorized refresh_groups attempt blocked")].
Proof.
  intros d w. split; [reflexivity|].
  destruct (refresh_groups_main_only demo_env d "alpha" false w eq_refl)
    as (_ & _ & H & _).
  destruct (H eq_refl) as (_ & _ & Hl). exact Hl.
Defined.

(** X3 on a sample: the type is written with a capital letter. *)
Lemma unknown_type_witness :
  let d := actionPayload "Pause_task" in
  let w := demo_world "main" Tasks (JsonObject d) in
  is_known_type (p_type d) = false /\
  processTaskIpc demo_env d "main" true w
  = Ok tt (add_log (LWarn, "Unknown IPC task type") w).
Proof.
  intros d w. split; [reflexivity|].
  exact (unknown_type_only_warns demo_env d "main" true w eq_refl).
Defined.

(** X4 on a sample: alpha tries to cancel the task of beta. *)
Lemma foreign_tasks_witness :
  let d := controlPayload "cancel_task" "task-1-aaaaaa" in
  let w := demo_world "alpha" Tasks (JsonObject d) in
  tasks w !! "task-1-aaaaaa" = Some demo_task /\
  t_group_folder demo_task <> "alpha" /\
  tasks (final (processTaskIpc demo_env d "alpha" false w)) !! "task-1-aaaaaa"
  = Some demo_task.
Proof.
  intros d w. split; [reflexivity|]. split; [discriminate|].
  destruct (foreign_tasks_untouched demo_env d "alpha" w) as [H _].
  apply H; [reflexivity | discriminate | |];
    intros E; vm_compute in E; discriminate E.
Defined.


(** X6 on a sample: beta pauses and resumes its active task. *)
Lemma control_ops_witness :
  let pd := controlPayload "pause_task" "task-1-aaaaaa" in
  let rd := controlPayload "resume_task" "task-1-aaaaaa" in
  let cd := controlPayload "cancel_task" "task-1-aaaaaa" in
  let w := demo_world "beta" Tasks (JsonObject pd) in
  let run := fun d w0 => final (processTaskIpc demo_env d "beta" false w0) in
  tasks w !! "task-1-aaaaaa" = Some demo_task /\
  t_group_folder demo_task = "beta" /\
  tasks (run rd (run pd w)) = tasks w /\
  tasks (run cd w) = delete "task-1-aaaaaa" (tasks w).
Proof.
  intros pd rd cd w run. split; [reflexivity|]. split; [reflexivity|].
  destruct (control_ops_compose demo_env pd rd cd "beta" false "task-1-aaaaaa"
              demo_task w eq_refl eq_refl eq_refl eq_refl eq_refl eq_refl eq_refl
              (or_intror eq_refl)) as (_ & H2 & _ & H4 & _).
  split; [exact (H2 eq_refl) | exact H4].
Defined.

(** X7 on a sample: alpha schedules every minute for its own jid. *)
Lemma cron_witness :
  let d := schedulePayload "cron" "* * * * *" "g1" in
  let w := demo_world "alpha" Tasks (JsonObject d) in
  let o := processTaskIpc demo_env d "alpha" false w in
  cron_next demo_env "* * * * *" (clock demo_env (ticks w)) = Some 1700000060000 /\
  exists task,
    tasks (final o) = <[newTaskId demo_env (tick w) := task]> (tasks w) /\
    t_next_run task = Some (toISOString demo_env 1700000060000).
Proof.
  intros d w o. split; [reflexivity|].
  destruct (cron_next_run_from_parser demo_env d "alpha" false "p" "* * * * *" "g1"
              (mkGroup "G1" "alpha" "@a" "t0" None None) 1700000060000 w
              eq_refl eq_refl eq_refl eq_refl eq_refl eq_refl (or_intror eq_refl)
              eq_refl) as (_ & task & H1 & H2 & _).
  exists task. split; [exact H1 | exact H2].
Defined.

(** X8 on a sample: an interval of 9999999999999999 ms. *)
Lemma interval_overflow_witness :
  let d := schedulePayload "interval" "9999999999999999" "g1" in
  let w := demo_world "alpha" Tasks (JsonObject d) in
  find_file "alpha" Tasks "r.json" w = Some (JsonObject d) /\
  parseInt10 "9999999999999999" = Some 9999999999999999 /\
  MAX_TIME < Z.abs (clock demo_env (ticks w) + 9999999999999999) /\
  tasks (final (processTaskFile demo_env "alpha" false "r.json" w)) = tasks w /\
  quarantined "alpha" Tasks "r.json" (JsonObject d) w
    (final (processTaskFile demo_env "alpha" false "r.json" w)).
Proof.
  intros d w. split; [reflexivity|]. split; [reflexivity|]. split; [reflexivity|].
  destruct (interval_overflow_is_quarantined demo_env d "alpha" false "r.json" "p"
              "9999999999999999" "g1" (mkGroup "G1" "alpha" "@a" "t0" None None)
              9999999999999999 w eq_refl eq_refl eq_refl eq_refl eq_refl eq_refl
              eq_refl (or_intror eq_refl) eq_refl eq_refl eq_refl)
    as (_ & _ & H3 & H4).
  split; [exact H3 | exact H4].
Defined.

Lemma alist_lookup_cons {A} k k' (v : A) l :
  alist_lookup k ((k', v) :: l) = if String.eqb k' k then Some v else alist_lookup k l.
Proof. reflexivity. Qed.

(** X10 on a sample: the only files are a text file of alpha and a request
    file that was moved to the errors directory earlier. *)
Lemma idle_cycle_witness :
  let w := world_with
             [("errors", mkMailbox None (Some [("alpha-r.json", JsonNull)]));
              ("alpha", mkMailbox (Some [("notes.txt", JsonNull)]) (Some []))] in
  (forall sg ch f, processed sg ch f w = false) /\
  processIpcFiles "main" "Andy" demo_env w = Ok tt w.
Proof.
  intros w.
  assert (H : forall sg ch f, processed sg ch f w = false).
  { intros sg ch f. unfold processed.
    destruct (String.eqb_spec sg "errors") as [->|Hne]; [reflexivity|].
    destruct (ends_with f ".json") eqn:Hj; [|reflexivity].
    cbn [negb andb]. unfold exists_file, find_file, w, world_with.
    cbn [mailboxes]. rewrite !alist_lookup_cons.
    destruct (String.eqb_spec "errors" sg) as [<-|_]; [contradiction|].
    destruct (String.eqb_spec "alpha" sg) as [<-|_]; [|reflexivity].
    destruct ch; [|reflexivity].
    cbn [mbind option_bind chan_files mb_messages]. rewrite alist_lookup_cons.
    destruct (String.eqb_spec "notes.txt" f) as [<-|_]; [discriminate Hj | reflexivity]. }
  split; [exact H|].
  exact (proj1 (idle_cycle_is_silent "main" "Andy" demo_env w) H).
Defined.

(** X9 on a sample: the handlers are run on a file that is not there. *)
Lemma missing_file_witness :
  let w := world_with [("alpha", mkMailbox (Some []) (Some []))] in
  find_file "alpha" Tasks "gone.json" w = None /\
  threw (processTaskFile demo_env "alpha" false "gone.json" w) = true /\
  logs (final (processTaskFile demo_env "alpha" false "gone.json" w))
  = [(LError, "Error processing IPC task")] /\
  threw (processIpcFiles "main" "Andy" demo_env w) = false.
Proof.
  intros w. split; [reflexivity|].
  destruct (missing_file_is_not_fatal "main" "Andy" demo_env w) as (_ & H & _ & Hc).
  rewrite (H "alpha" false "gone.json" eq_refl).
  split; [reflexivity|]. split; [reflexivity | exact Hc].
Defined.

(** X11 on a sample: the cycle after the one that quarantined a file. *)
Lemma second_cycle_witness :
  let w := demo_world "alpha" Tasks (Unparsable "{oops") in
  let w1 := final (processIpcFiles "main" "Andy" demo_env w) in
  mailboxes_wf w /\
  processIpcFiles "main" "Andy" demo_env w1 = Ok tt w1.
Proof.
  intros w w1.
  assert (Hwf : mailboxes_wf w) by (apply mailboxes_wf_b_sound; reflexivity).
  split; [exact Hwf|].
  exact (second_cycle_is_silent "main" "Andy" demo_env w Hwf).
Defined.

(** X12 on a sample: alpha writes to a chat of beta. *)
Lemma tenant_mailbox_witness :
  let w := demo_world "alpha" Messages (JsonObject (messagePayload "g2" "hi")) in
  let o := processGroup "main" "Andy" demo_env "alpha" w in
  "alpha" <> "main" /\ threw o = false /\ groups (final o) = groups w.
Proof.
  intros w o.
  assert (Hne : "alpha" <> "main") by discriminate.
  split; [exact Hne|].
  destruct (tenant_mailbox_sends_only_to_own_chats "main" "Andy" demo_env "alpha" w Hne)
    as (H1 & H2 & _).
  split; [exact H1 | exact H2].
Defined.

(** X13 on a sample: alpha has a malformed r.json in both channels. *)
Lemma quarantine_channel_witness :
  let w := world_with
             [("alpha", mkMailbox (Some [("r.json", Unparsable "{m")])
                          (Some [("r.json", JsonNull)]))] in
  let o1 := processMessageFile "Andy" demo_env demo_groups "alpha" false "r.json" w in
  let o2 := processTaskFile demo_env "alpha" false "r.json" (final o1) in
  find_file "alpha" Messages "r.json" w = Some (Unparsable "{m") /\
  find_file "alpha" Tasks "r.json" w = Some JsonNull /\
  errorsDir (final o2) = <["alpha-r.json" := JsonNull]> (errorsDir w).
Proof.
  intros w o1 o2. split; [reflexivity|]. split; [reflexivity|].
  destruct (quarantine_name_ignores_channel "Andy" demo_env demo_groups "alpha" false
              "r.json" (Unparsable "{m") JsonNull w eq_refl eq_refl eq_refl eq_refl)
    as (_ & H & _).
  exact H.
Defined.

(** X14 on a sample: directory a with file b-x.json, directory a-b with file
    x.json. *)
Lemma quarantine_clash_witness :
  let w := world_with
             [("a", mkMailbox None (Some [("b-x.json", Unparsable "1")]));
              ("a-b", mkMailbox None (Some [("x.json", Unparsable "2")]))] in
  let o1 := processTaskFile demo_env "a" false "b-x.json" w in
  let o2 := processTaskFile demo_env "a-b" false "x.json" (final o1) in
  "a" <> "a-b" /\
  "a" +:+ "-" +:+ "b-x.json" = "a-b" +:+ "-" +:+ "x.json" /\
  errorsDir (final o2) = <["a-b-x.json" := Unparsable "2"]> (errorsDir w).
Proof.
  intros w o1 o2.
  assert (Hne : "a" <> "a-b") by discriminate.
  split; [exact Hne|]. split; [reflexivity|].
  destruct (quarantine_name_clash_across_tenants demo_env "a" "a-b" false false
              "b-x.json" "x.json" (Unparsable "1") (Unparsable "2") w
              Hne eq_refl eq_refl eq_refl eq_refl eq_refl) as [_ H].
  exact H.
Defined.

(** X15 on a sample: alpha and beta each have a malformed r.json. *)
Lemma quarantine_distinct_witness :
  let w := world_with
             [("alpha", mkMailbox None (Some [("r.json", Unparsable "1")]));
              ("beta", mkMailbox None (Some [("r.json", Unparsable "2")]))] in
  let o1 := processTaskFile demo_env "alpha" false "r.json" w in
  let o2 := processTaskFile demo_env "beta" false "r.json" (final o1) in
  "alpha" <> "beta" /\
  errorsDir (final o2) !! "alpha-r.json" = Some (Unparsable "1") /\
  errorsDir (final o2) !! "beta-r.json" = Some (Unparsable "2").
Proof.
  intros w o1 o2.
  assert (Hne : "alpha" <> "beta") by discriminate.
  split; [exact Hne|].
  exact (quarantine_keeps_distinct_requests demo_env "alpha" "beta" false false
           "r.json" "r.json" (Unparsable "1") (Unparsable "2") w
           (or_intror (conj Hne eq_refl)) eq_refl eq_refl eq_refl eq_refl).
Defined.


(** X17 on a sample: a plain mail to one address. *)
Lemma gmail_message_witness :
  nonempty (gm_body demo_gmail) = Some "Hello" /\
  exists head,
    gmailMessage demo_gmail = head +:+ "; charset=utf-8" +:+ newline +:+ "Hello".
Proof.
  split; [reflexivity|].
  exact (proj1 (gmail_message_has_no_separator_line demo_gmail) "Hello" eq_refl).
Defined.

(** X18 on a sample: the base64 text of the one-letter message a. *)
Lemma base64url_witness :
  "YQ==" = "YQ" +:+ "==" /\ includes "YQ" "=" = false /\
  base64url "YQ==" = "YQ".
Proof.
  split; [reflexivity|]. split; [reflexivity|].
  destruct (base64url_is_url_safe "YQ==") as (_ & _ & H).
  destruct (H "YQ" "==" eq_refl eq_refl (or_intror (or_intror eq_refl))) as [E _].
  exact E.
Defined.

(** X19 on a sample: a request for 1000 events. *)
Lemma max_results_witness : 250 < 1000 /\ maxResults (Some 1000) = 250.
Proof.
  split; [reflexivity|].
  destruct (list_events_max_results_capped (Some 1000)) as (_ & _ & _ & H & _).
  exact (H 1000 eq_refl eq_refl).
Defined.

(** X20 on a sample: an all-day start with an end that has a time. *)
Lemma event_time_kind_witness :
  includes "2024-05-01" "T" = false /\
  includes "2024-05-02T10:00:00" "T" = true /\
  exists ev,
    createEvent "UTC" demo_calendar = Some ev /\
    ev !! "end" = Some (EvDate "2024-05-02T10:00:00" "UTC") /\
    updateEvent "UTC" ∅ demo_calendar !! "end"
    = Some (EvDateTime "2024-05-02T10:00:00" "UTC").
Proof.
  split; [reflexivity|]. split; [reflexivity|].
  destruct (createEvent "UTC" demo_calendar) as [ev|] eqn:Hc; [|discriminate Hc].
  exists ev. split; [reflexivity|].
  destruct (event_time_kind_create_vs_update "UTC" demo_calendar) as (_ & _ & _ & H).
  exact (H ev ∅ "2024-05-01" "2024-05-02T10:00:00" Hc eq_refl eq_refl eq_refl eq_refl).
Defined.

(** X21 on a sample: an update that names no field. *)
Lemma update_event_witness :
  let existing : gmap string EventValue :=
    <["summary" := EvText "Trip"]> (<["etag" := EvOther "7"]> ∅) in
  cd_summary empty_calendar = None /\
  updateEvent "UTC" existing empty_calendar = existing.
Proof.
  intros existing. split; [reflexivity|].
  destruct (update_event_changes_named_fields_only "UTC" existing empty_calendar)
    as (_ & _ & _ & _ & _ & _ & _ & H & _).
  exact (H eq_refl eq_refl eq_refl eq_refl eq_refl eq_refl).
Defined.

(** X22 on a sample: the watcher is started three times. *)
Lemma watcher_start_witness :
  let s := mkWatcher false 0 (world_with []) in
  ipcWatcherRunning s = false /\
  pollLoops (Nat.iter 3 startIpcWatcher s) = 1%nat.
Proof.
  intros s. split; [reflexivity|].
  destruct (watcher_starts_one_loop s 2 eq_refl) as (_ & H & _).
  exact H.
Defined.

(** X23 on a sample: the configuration file holds null. *)
Lemma transcription_witness :
  let tenv := mkTranscriptionEnv ConfigNull (fun _ _ _ _ => Some "hello") in
  config_file tenv = ConfigNull /\
  fst (transcribeAudio tenv "audio")
  = Rejects (TypeError "Cannot read properties of null").
Proof.
  intros tenv. split; [reflexivity|].
  destruct (transcription_outcome tenv "audio") as (H & _).
  exact (proj1 (H eq_refl)).
Defined.

(** X24 on a sample: groq answers with a no-break space and a space. *)
Lemma whitespace_transcript_witness :
  attempts (snd (transcribeAudio demo_tenv "audio"))
  = [(Some "https://api.groq.com/openai/v1", "gsk-1", "whisper-large-v3")] /\
  provider_result demo_tenv (Some "https://api.groq.com/openai/v1") "gsk-1"
    "whisper-large-v3" "audio" = Some blank_text /\
  blank_text <> "" /\ skip_ws blank_text = "" /\
  fst (transcribeAudio demo_tenv "audio") = Resolves (Some "").
Proof.
  assert (Hne : blank_text <> "") by discriminate.
  split; [reflexivity|]. split; [reflexivity|]. split; [exact Hne|].
  split; [reflexivity|].
  destruct (whitespace_transcript_is_not_replaced demo_tenv "audio"
              (Some "https://api.groq.com/openai/v1") "gsk-1" "whisper-large-v3"
              blank_text eq_refl eq_refl Hne) as (_ & H & _).
  exact (H eq_refl).
Defined.

(** X25 on a sample: main registers the chat of alpha to beta, and alpha
    writes to it. *)
Lemma registration_witness :
  let d := registerPayload "g1" "G1" "beta" "@b" in
  let m := messagePayload "g1" "hi" in
  let w := demo_world "alpha" Messages (JsonObject m) in
  let w1 := final (processTaskIpc demo_env d "main" true w) in
  let o := processMessageFile "Andy" demo_env (groups w1) "alpha" false "r.json" w1 in
  groups w !! "g1" = Some (mkGroup "G1" "alpha" "@a" "t0" None None) /\
  find_file "alpha" Messages "r.json" w1 = Some (JsonObject m) /\
  "alpha" <> "beta" /\
  sent (final o) = sent w.
Proof.
  intros d m w w1 o.
  assert (Hne : "alpha" <> "beta") by discriminate.
  split; [reflexivity|]. split; [reflexivity|]. split; [exact Hne|].
  destruct (registration_moves_a_chat "Andy" demo_env d "main" "g1" "G1" "beta" "@b"
              "alpha" "r.json" m "hi" w eq_refl eq_refl eq_refl eq_refl eq_refl
              eq_refl eq_refl eq_refl eq_refl) as (_ & H & _).
  exact (H Hne).
Defined.

(** X26 on a sample: alpha asks for a registration, main's directory does
    not exist. *)
Lemma registry_witness :
  let w := demo_world "alpha" Tasks
             (JsonObject (registerPayload "g9" "G9" "alpha" "@x")) in
  (forall f, (ends_with f ".json" && exists_file "main" Tasks f w)%bool = false) /\
  groups (final (processIpcFiles "main" "Andy" demo_env w)) = demo_groups.
Proof.
  intros w.
  assert (H : forall f, (ends_with f ".json" && exists_file "main" Tasks f w)%bool = false).
  { intros f. unfold exists_file, find_file. simpl. apply andb_false_r. }
  split; [exact H|].
  exact (proj2 (registry_changes_only_through_main "main" "Andy" demo_env w H)).
Defined.
